(** * The parse -> markdown -> extract -> validate -> export pipeline

    A shallow embedding of the client-side pipeline of the ADE book
    extraction demo:

    - [src/utils/exportMarkdown.ts]      (module [ExportMarkdown]),
    - [src/schema/books.ts]              (modules [Zod] and [Books]),
    - [src/components/BookExtractor.tsx] (module [BookExtractor]),
    - [src/components/PdfExtractionWorkflow.tsx]
                                         (module [PdfExtractionWorkflow]),
    - [src/App.tsx]                      (module [App]),
    - [src/components/BookLibrary.tsx]   (module [BookLibrary]),
    - [vite.config.ts]                   (module [ViteConfig]).

    Conventions of the embedding.

    - A JavaScript string is a [string]: a sequence of code units, here the
      code units 0..255 (the Latin-1 range), on which [toLowerCase], [trim]
      and the [\s] class of regular expressions are written out.
    - A JSON number is a rational ([Q]); the integers the schema lets through
      are read back as [Z].
    - A JSON object is an association list of its own properties.
    - The network, the clock and the locale are inputs: the outcome of a
      [fetch], the current [Date] and the text of [toLocaleString] are
      arguments of the functions that use them.
    - React state is a record; a handler is a function from the state before
      to the state after, together with the effects it issued. *)

From Stdlib Require Import List String Ascii Bool ZArith QArith Lia.
From Stdlib Require Import Numbers.DecimalString.
From Stdlib Require Import Permutation Sorted QArith.Qround.
Local Close Scope Q_scope.
Import ListNotations.
Set Warnings "-register-all".
Local Open Scope list_scope.
Local Open Scope string_scope.

(** ** JavaScript strings *)

Module Js.

Definition code (c : ascii) : nat := nat_of_ascii c.

Definition between (lo hi : nat) (c : ascii) : bool :=
  Nat.leb lo (code c) && Nat.leb (code c) hi.

Definition is_upper (c : ascii) : bool := between 65 90 c.
Definition is_lower (c : ascii) : bool := between 97 122 c.
Definition is_digit (c : ascii) : bool := between 48 57 c.
Definition is_hyphen (c : ascii) : bool := Nat.eqb (code c) 45.

(** White space and line terminators of ECMAScript below U+0100: TAB, LF,
    VT, FF, CR, SPACE and NO-BREAK SPACE.  This is both what [trim] strips
    and what [\s] matches. *)
Definition is_space (c : ascii) : bool :=
  between 9 13 c || Nat.eqb (code c) 32 || Nat.eqb (code c) 160.

(** [String.prototype.toLowerCase] on one code unit of Latin-1: A-Z, and
    the upper-case letters U+00C0..U+00DE without the multiplication sign
    U+00D7, move up by 32.  On a string of Latin-1 the method works code
    unit by code unit, as written here.  Beyond Latin-1, which is not
    modelled, it does not: U+0130 becomes two code units, the Kelvin sign
    U+212A becomes the letter k, and a capital sigma becomes one of two
    letters according to what stands before and after it. *)
Definition lower_char (c : ascii) : ascii :=
  if is_upper c || (between 192 222 c && negb (Nat.eqb (code c) 215))
  then ascii_of_nat (code c + 32)
  else c.

Fixpoint toLowerCase (s : string) : string :=
  match s with
  | EmptyString => EmptyString
  | String c s' => String (lower_char c) (toLowerCase s')
  end.

(** [s.replace(/[^...]/g, "")] for a character class: the code units
    outside [keep] are deleted. *)
Fixpoint removeUnless (keep : ascii -> bool) (s : string) : string :=
  match s with
  | EmptyString => EmptyString
  | String c s' =>
      if keep c then String c (removeUnless keep s') else removeUnless keep s'
  end.

(** [s.replace(/C+/g, r)] for a character class [C]: every maximal run of
    code units of the class is replaced by [r].  [inRun] tells that the
    previous code unit belonged to the run being replaced. *)
Fixpoint replaceRunsFrom (inRun : bool) (cls : ascii -> bool) (r : string)
    (s : string) : string :=
  match s with
  | EmptyString => EmptyString
  | String c s' =>
      if cls c
      then (if inRun then replaceRunsFrom true cls r s'
            else r ++ replaceRunsFrom true cls r s')
      else String c (replaceRunsFrom false cls r s')
  end.

Definition replaceRuns := replaceRunsFrom false.

(** The code units of a class taken off the start, and off the end. *)
Fixpoint dropStart (cls : ascii -> bool) (s : string) : string :=
  match s with
  | EmptyString => EmptyString
  | String c s' => if cls c then dropStart cls s' else s
  end.

Fixpoint dropEnd (cls : ascii -> bool) (s : string) : string :=
  match s with
  | EmptyString => EmptyString
  | String c s' =>
      match dropEnd cls s' with
      | EmptyString => if cls c then EmptyString else String c EmptyString
      | t => String c t
      end
  end.

(** [String.prototype.trim]: white space goes, at both ends. *)
Definition trim (s : string) : string :=
  dropEnd is_space (dropStart is_space s).

(** Every code unit of [s] is of the class. *)
Fixpoint every (cls : ascii -> bool) (s : string) : bool :=
  match s with
  | EmptyString => true
  | String c s' => cls c && every cls s'
  end.

(** Truthiness of a string: the empty string is the only falsy one. *)
Definition truthy (s : string) : bool :=
  match s with EmptyString => false | String _ _ => true end.

(** [Array.prototype.join]. *)
Definition join (sep : string) (parts : list string) : string :=
  String.concat sep parts.

Fixpoint repeatChar (c : ascii) (n : nat) : string :=
  match n with
  | O => EmptyString
  | S n' => String c (repeatChar c n')
  end.

(** [s.padStart(n, c)] with a one-character filler. *)
Definition padStart (n : nat) (c : ascii) (s : string) : string :=
  repeatChar c (n - String.length s) ++ s.

(** The line feed, written [\n] in the source. *)
Definition nl : string := String (ascii_of_nat 10) EmptyString.

(** [String(n)] and [`${n}`] for an integer [n]: its decimal numeral.
    This is what ECMAScript prints for the integers that a number holds
    exactly, those up to 2^53 in absolute value; a number above that is
    printed with the shortest digits that read back to it, and from 10^21
    on with an exponent, which is not modelled. *)
Definition ofInt (n : Z) : string := NilZero.string_of_int (Z.to_int n).

(** A value that may be missing: [undefined] (the property is not there),
    [null], or a value. *)
Inductive optional (A : Type) : Type :=
| Undefined
| Null
| Present (a : A).
Arguments Undefined {A}.
Arguments Null {A}.
Arguments Present {A} a.

End Js.
Import Js.

(** ** The extraction record ([z.infer<typeof DocumentExtractionSchema>]) *)

Record Publisher := {
  name : optional string;
  location : optional string
}.

Record DocumentExtraction := {
  title : optional string;
  authors : optional (list string);
  publishedYear : optional Z;
  genres : optional (list string);
  pages : optional Z;
  language : optional string;
  publisher : optional Publisher
}.

(** ** [src/utils/exportMarkdown.ts] *)

Module ExportMarkdown.

(** What the code reads off [new Date()]: [getFullYear()], [getMonth()]
    (January is 0) and [getDate()]. *)
Record Date := {
  getFullYear : Z;
  getMonth : Z;
  getDate : Z
}.

(** The class [[a-z0-9\s-]]. *)
Definition slug_char (c : ascii) : bool :=
  is_lower c || is_digit c || is_space c || is_hyphen c.

Definition sanitizeFilename (title : string) : string :=
  trim
    (replaceRuns is_hyphen "-"
       (replaceRuns is_space "-"
          (removeUnless slug_char
             (toLowerCase title)))).

Definition formatDate (now : Date) : string :=
  let year := getFullYear now in
  let month := padStart 2 "0" (ofInt (getMonth now + 1)) in
  let day := padStart 2 "0" (ofInt (getDate now)) in
  ofInt year ++ "-" ++ month ++ "-" ++ day.

(** The test [if (x)] on an optional string. *)
Definition truthyString (x : optional string) : option string :=
  match x with
  | Present s => if truthy s then Some s else None
  | _ => None
  end.

Definition generateFilename (now : Date) (data : DocumentExtraction)
    : string :=
  let date := formatDate now in
  let titlePart :=
    match truthyString (title data) with
    | Some t => sanitizeFilename t
    | None => "untitled-document"
    end in
  date ++ "-" ++ titlePart ++ ".md".

(** The tests [if (data.authors && data.authors.length > 0)] and
    [if (data.publishedYear)]: an empty array and the number 0 do not
    pass. *)
Definition nonEmptyList (x : optional (list string)) : option (list string) :=
  match x with
  | Present (a :: l) => Some (a :: l)
  | _ => None
  end.

Definition truthyNumber (x : optional Z) : option Z :=
  match x with
  | Present n => if Z.eqb n 0 then None else Some n
  | _ => None
  end.

(** [cond && sections.push(line)]: the line is pushed when the test
    passes. *)
Definition pushIf {A : Type} (test : option A) (line : A -> string)
    : list string :=
  match test with
  | Some a => [line a]
  | None => []
  end.

Definition publisherParts (p : Publisher) : list string :=
  List.concat
    [ pushIf (truthyString (name p)) (fun n => n);
      pushIf (truthyString (location p)) (fun l => "(" ++ l ++ ")") ].

Definition publisherSection (x : optional Publisher) : list string :=
  match x with
  | Present p =>
      match publisherParts p with
      | [] => []
      | parts => ["**Publisher:** " ++ join " " parts ++ nl]
      end
  | _ => []
  end.

Definition separator : string := nl ++ "---" ++ nl.

(** The test [fullMarkdown && fullMarkdown.trim()] on the optional
    argument. *)
Definition nonBlank (fullMarkdown : option string) : option string :=
  match fullMarkdown with
  | Some s => if truthy s && truthy (trim s) then Some s else None
  | None => None
  end.

(** The array [sections] at the end of [generateMarkdownContent];
    [localeNow] is the text of [new Date().toLocaleString()]. *)
Definition markdownSections (localeNow : string) (data : DocumentExtraction)
    (fullMarkdown : option string) : list string :=
  List.concat
    [ pushIf (truthyString (title data)) (fun t => "# " ++ t ++ nl);
      ["## Metadata" ++ nl];
      pushIf (nonEmptyList (authors data))
        (fun l => "**Authors:** " ++ join ", " l ++ nl);
      pushIf (truthyNumber (publishedYear data))
        (fun y => "**Published Year:** " ++ ofInt y ++ nl);
      pushIf (truthyNumber (pages data))
        (fun n => "**Pages:** " ++ ofInt n ++ nl);
      pushIf (truthyString (language data))
        (fun l => "**Language:** " ++ l ++ nl);
      publisherSection (publisher data);
      pushIf (nonEmptyList (genres data))
        (fun l => "**Genres:** " ++ join ", " l ++ nl);
      [ separator;
        "*Extracted on: " ++ localeNow ++ "*" ++ nl;
        "*Extraction method: ADE PDF Parse & Extract*" ++ nl ];
      match nonBlank fullMarkdown with
      | Some full => [separator; "## Document Content" ++ nl; full]
      | None => []
      end ].

Definition generateMarkdownContent (localeNow : string)
    (data : DocumentExtraction) (fullMarkdown : option string) : string :=
  join nl (markdownSections localeNow data fullMarkdown).

End ExportMarkdown.

(** ** JSON values, as [response.json()] hands them over *)

Inductive json : Type :=
| JNull
| JBool (b : bool)
| JNum (q : Q)
| JStr (s : string)
| JArr (items : list json)
| JObj (props : list (string * json)).

(** [obj[key]]: [None] is [undefined]. *)
Fixpoint getProp (key : string) (props : list (string * json)) : option json :=
  match props with
  | [] => None
  | (k, v) :: rest => if String.eqb k key then Some v else getProp key rest
  end.

Definition keys (props : list (string * json)) : list string :=
  map fst props.

(** [Number.isInteger] and the integer a whole number stands for. *)
Definition isInteger (q : Q) : bool :=
  Z.eqb (Z.modulo (Qnum q) (Zpos (Qden q))) 0.

Definition toInteger (q : Q) : Z := Z.div (Qnum q) (Zpos (Qden q)).

(** [!!x] on a JSON value that may be [undefined]. *)
Definition truthyValue (x : option json) : bool :=
  match x with
  | None | Some JNull | Some (JBool false) => false
  | Some (JBool true) => true
  | Some (JNum q) => negb (Z.eqb (Qnum q) 0)
  | Some (JStr s) => truthy s
  | Some (JArr _) | Some (JObj _) => true
  end.

(** ** The part of the Zod schema language that [DocumentExtractionSchema]
    is written in

    Zod is a library the repository depends on.  A schema is a term here,
    and [parse] gives it the meaning the library gives it in [safeParse]:
    a value of the wrong type is an [invalid_type] issue, every check of a
    number is run and a failed one is an issue, each issue carries the path
    of the field it is about, the issues of all fields and items are
    collected in the order of the declaration, the keys of an object that
    the schema does not declare are dropped (the default, [strip]), and
    parsing succeeds exactly when no issue was recorded.  The wording of an
    issue (its [message]) is the library's and is not fixed here: the
    functions that print it take it as an argument. *)

Module Zod.

Inductive ZodParsedType : Type :=
| t_undefined | t_null | t_boolean | t_number | t_string | t_array
| t_object | t_integer | t_float.

Inductive ZodIssueCode : Type :=
| invalid_type (expected received : ZodParsedType)
| too_small (minimum : Z) (inclusive : bool).

Inductive PathElem : Type :=
| Key (k : string)
| Index (i : nat).

Record ZodIssue := {
  code : ZodIssueCode;
  path : list PathElem
}.

Inductive NumberCheck : Type :=
| check_int
| check_min (value : Z) (inclusive : bool).

Inductive ZodType : Type :=
| ZodString
| ZodNumber (checks : list NumberCheck)
| ZodArray (element : ZodType)
| ZodObject (shape : list (string * ZodType))
| ZodOptional (inner : ZodType)
| ZodNullable (inner : ZodType).

(** The builders of the source, [z.string()], [.int()], [.optional()] and
    so on; [t |> f] is the method call [t.f()]. *)
Definition string_ : ZodType := ZodString.
Definition number : ZodType := ZodNumber [].
Definition array (element : ZodType) : ZodType := ZodArray element.
Definition object (shape : list (string * ZodType)) : ZodType :=
  ZodObject shape.

Definition addCheck (c : NumberCheck) (t : ZodType) : ZodType :=
  match t with
  | ZodNumber checks => ZodNumber (checks ++ [c])
  | _ => t
  end.

Definition int : ZodType -> ZodType := addCheck check_int.
Definition positive : ZodType -> ZodType := addCheck (check_min 0 false).
Definition optional : ZodType -> ZodType := ZodOptional.
Definition nullable : ZodType -> ZodType := ZodNullable.
(** A description is documentation: it does not change what is accepted. *)
Definition describe (description : string) (t : ZodType) : ZodType := t.

Definition getParsedType (x : option json) : ZodParsedType :=
  match x with
  | None => t_undefined
  | Some JNull => t_null
  | Some (JBool _) => t_boolean
  | Some (JNum _) => t_number
  | Some (JStr _) => t_string
  | Some (JArr _) => t_array
  | Some (JObj _) => t_object
  end.

(** The result of parsing one value: the issues found in it, and the value
    handed on ([None] for [undefined]; of no use when there are issues). *)
Definition ParseReturn : Type := list ZodIssue * option json.

Definition invalid (at_ : list PathElem) (expected : ZodParsedType)
    (x : option json) : ParseReturn :=
  ([ {| code := invalid_type expected (getParsedType x); path := at_ |} ],
   None).

Definition runCheck (at_ : list PathElem) (q : Q) (c : NumberCheck)
    : list ZodIssue :=
  match c with
  | check_int =>
      if isInteger q then []
      else [ {| code := invalid_type t_integer t_float; path := at_ |} ]
  | check_min value inclusive =>
      let tooSmall :=
        if inclusive then negb (Qle_bool (inject_Z value) q)
        else Qle_bool q (inject_Z value) in
      if tooSmall
      then [ {| code := too_small value inclusive; path := at_ |} ]
      else []
  end.

(** The items of an array, each under its index. *)
Fixpoint parseItems (parseItem : list PathElem -> option json -> ParseReturn)
    (at_ : list PathElem) (i : nat) (items : list json)
    : list ZodIssue * list json :=
  match items with
  | [] => ([], [])
  | x :: rest =>
      let '(issues, out) := parseItem (at_ ++ [Index i]) (Some x) in
      let '(issues', outs) := parseItems parseItem at_ (S i) rest in
      (issues ++ issues',
       match out with Some y => y :: outs | None => outs end)
  end%list.

(** The declared keys of an object, in the order of the declaration; a key
    whose value comes out [undefined] is not set in the result. *)
Fixpoint parseShape
    (parseField : ZodType -> list PathElem -> option json -> ParseReturn)
    (at_ : list PathElem) (props : list (string * json))
    (shape : list (string * ZodType))
    : list ZodIssue * list (string * json) :=
  match shape with
  | [] => ([], [])
  | (key, t) :: rest =>
      let '(issues, out) := parseField t (at_ ++ [Key key]) (getProp key props) in
      let '(issues', outs) := parseShape parseField at_ props rest in
      (issues ++ issues',
       match out with Some y => (key, y) :: outs | None => outs end)
  end%list.

Fixpoint parse (t : ZodType) (at_ : list PathElem) (x : option json)
    {struct t} : ParseReturn :=
  match t with
  | ZodString =>
      match x with
      | Some (JStr _) => ([], x)
      | _ => invalid at_ t_string x
      end
  | ZodNumber checks =>
      match x with
      | Some (JNum q) => (flat_map (runCheck at_ q) checks, x)
      | _ => invalid at_ t_number x
      end
  | ZodArray element =>
      match x with
      | Some (JArr items) =>
          let '(issues, outs) := parseItems (parse element) at_ 0 items in
          (issues, Some (JArr outs))
      | _ => invalid at_ t_array x
      end
  | ZodObject shape =>
      match x with
      | Some (JObj props) =>
          let '(issues, outs) := parseShape parse at_ props shape in
          (issues, Some (JObj outs))
      | _ => invalid at_ t_object x
      end
  | ZodOptional inner =>
      match x with
      | None => ([], None)
      | _ => parse inner at_ x
      end
  | ZodNullable inner =>
      match x with
      | Some JNull => ([], Some JNull)
      | _ => parse inner at_ x
      end
  end.

(** [t.shape]: the declared fields of an object schema. *)
Definition shapeOf (t : ZodType) : list (string * ZodType) :=
  match t with
  | ZodObject shape => shape
  | _ => []
  end.

(** An issue lies under a path when its own path starts with it. *)
Definition under (at_ : list PathElem) (issue : ZodIssue) : Prop :=
  exists rest, path issue = (at_ ++ rest)%list.

Inductive SafeParseReturn : Type :=
| success (data : json)
| failure (issues : list ZodIssue).

Definition safeParse (t : ZodType) (x : json) : SafeParseReturn :=
  match parse t [] (Some x) with
  | ([], Some data) => success data
  | (issues, _) => failure issues
  end.

End Zod.

Notation "t |> f" := (f t) (at level 45, left associativity, only parsing).

(** ** [src/schema/books.ts] *)

Module Books.

(** Extraction schema for the documents. *)
Definition DocumentExtractionSchema : Zod.ZodType :=
  Zod.object
    [ ("title",
        Zod.string_
        |> Zod.optional
        |> Zod.nullable
        |> Zod.describe "Main title of the document");
      ("authors",
        Zod.array Zod.string_
        |> Zod.optional
        |> Zod.nullable
        |> Zod.describe "List of author names");
      ("publishedYear",
        Zod.number
        |> Zod.int
        |> Zod.optional
        |> Zod.nullable
        |> Zod.describe "Year of publication");
      ("genres",
        Zod.array Zod.string_
        |> Zod.optional
        |> Zod.nullable
        |> Zod.describe "Book genres/categories");
      ("pages",
        Zod.number
        |> Zod.int
        |> Zod.positive
        |> Zod.optional
        |> Zod.nullable
        |> Zod.describe "Number of pages");
      ("language",
        Zod.string_
        |> Zod.optional
        |> Zod.nullable
        |> Zod.describe "Language of the document (e.g., English, Spanish)");
      ("publisher",
        Zod.object
          [ ("name",
              Zod.string_ |> Zod.optional |> Zod.nullable
              |> Zod.describe "Publisher company name");
            ("location",
              Zod.string_
              |> Zod.optional
              |> Zod.nullable
              |> Zod.describe "Publisher location (city, country)") ]
        |> Zod.optional
        |> Zod.nullable
        |> Zod.describe "Publisher information") ].

(** The keys the schema declares. *)
Definition declaredKeys : list string :=
  ["title"; "authors"; "publishedYear"; "genres"; "pages"; "language";
   "publisher"].

Definition publisherKeys : list string := ["name"; "location"].

(** The static type [DocumentExtraction] is a view of the parsed object:
    reading a property gives [undefined], [null] or the value.  (On what
    the schema lets through every property has the declared type; the
    view reads any other value as [undefined].) *)
Definition asString (x : option json) : optional string :=
  match x with
  | Some (JStr s) => Present s
  | Some JNull => Null
  | _ => Undefined
  end.

Definition asStrings (x : option json) : optional (list string) :=
  match x with
  | Some (JArr items) =>
      Present (flat_map (fun j => match j with JStr s => [s] | _ => [] end)
                 items)
  | Some JNull => Null
  | _ => Undefined
  end.

Definition asInteger (x : option json) : optional Z :=
  match x with
  | Some (JNum q) => Present (toInteger q)
  | Some JNull => Null
  | _ => Undefined
  end.

Definition asPublisher (x : option json) : optional Publisher :=
  match x with
  | Some (JObj props) =>
      Present {| name := asString (getProp "name" props);
                 location := asString (getProp "location" props) |}
  | Some JNull => Null
  | _ => Undefined
  end.

Definition asDocumentExtraction (data : json) : DocumentExtraction :=
  let props := match data with JObj props => props | _ => [] end in
  {| title := asString (getProp "title" props);
     authors := asStrings (getProp "authors" props);
     publishedYear := asInteger (getProp "publishedYear" props);
     genres := asStrings (getProp "genres" props);
     pages := asInteger (getProp "pages" props);
     language := asString (getProp "language" props);
     publisher := asPublisher (getProp "publisher" props) |}.

End Books.

(** ** The remote calls

    A [fetch] followed by the reading of the body settles in one of three
    ways: the promise is rejected (the transport failed, or the body could
    not be read), the response has a non-success status and the text
    [text], or it has a success status and the decoded body [body]. *)

Module Remote.

(** What a [catch] clause may receive: a Zod error (an [Error] that
    carries issues), any other [Error], or a value that is not one. *)
Inductive Thrown : Type :=
| ZodErrorThrown (issues : list Zod.ZodIssue) (message : string)
| ErrorThrown (message : string)
| OtherThrown.

Inductive Settled (A : Type) : Type :=
| Rejected (e : Thrown)
| NotOk (text : string)
| Ok (body : A).
Arguments Rejected {A} e.
Arguments NotOk {A} text.
Arguments Ok {A} body.

Record File := {
  fileName : string;
  fileSize : Z
}.

Record Chunk := { markdown : option string }.
Record ParseResponse := { chunks : option (list Chunk) }.
Record ExtractResponse := { extraction : option json }.

(** The requests of the pipeline, with the fields of their form data. *)
Inductive Request : Type :=
| PostParse (document : File) (model : string)
| PostExtract (schema : json) (markdown : string) (model : string).

(** [try { body } catch (err) { handler }]. *)
Definition tryCatch {A : Type} (body : Thrown + A) (handler : Thrown -> A)
    : A :=
  match body with
  | inl err => handler err
  | inr a => a
  end.

(** What [.then(async (response) => ...)] makes of a settled call:
    [prefix] is the text put before the upstream body. *)
Definition bodyOrThrow {A : Type} (prefix : string) (r : Settled A)
    : Thrown + A :=
  match r with
  | Rejected e => inl e
  | NotOk text => inl (ErrorThrown (prefix ++ text))
  | Ok body => inr body
  end.

End Remote.

(** ** [src/components/BookExtractor.tsx] *)

Module BookExtractor.
Import Remote.

Record Props := {
  markdownContent : string;
  schema : Zod.ZodType;
  showResult : bool
}.

(** The props with their defaults, for the markdown [content]. *)
Definition defaultProps (content : string) : Props :=
  {| markdownContent := content;
     schema := Books.DocumentExtractionSchema;
     showResult := true |}.

Record State := {
  isExtracting : bool;
  extractedBook : option json;
  extractedMarkdown : string;
  error : string
}.

Definition initialState : State :=
  {| isExtracting := false;
     extractedBook := None;
     extractedMarkdown := "";
     error := "" |}.

(** What the handler does to the world outside its state: the request it
    sends and the callbacks it calls. *)
Inductive Effect : Type :=
| Fetch (request : Request)
| OnExtractionError (message : string)
| OnExtractionSuccess (data : json).

Definition prop (type_ description : string) : json :=
  JObj [("type", JStr type_); ("description", JStr description)].

Definition arrayProp (description : string) : json :=
  JObj [("type", JStr "array");
        ("items", JObj [("type", JStr "string")]);
        ("description", JStr description)].

(** The object whose [JSON.stringify] is sent as [schema]. *)
Definition schemaJson : json :=
  JObj
    [("type", JStr "object");
     ("properties",
       JObj
         [("title", prop "string" "Main title of the document");
          ("authors", arrayProp "List of author names");
          ("publishedYear", prop "integer" "Year of publication");
          ("genres", arrayProp "Book genres/categories");
          ("pages", prop "integer" "Number of pages");
          ("language",
            prop "string" "Language of the document (e.g., English, Spanish)");
          ("publisher",
            JObj
              [("type", JStr "object");
               ("properties",
                 JObj
                   [("name", prop "string" "Publisher company name");
                    ("location",
                      prop "string" "Publisher location (city, country)")]);
               ("description", JStr "Publisher information")])])].

Definition pathText (e : Zod.PathElem) : string :=
  match e with
  | Zod.Key k => k
  | Zod.Index i => ofInt (Z.of_nat i)
  end.

(** [`${issue.path.join(".")}: ${issue.message}`]; the wording
    [message] of a violation is Zod's. *)
Definition issueText (message : Zod.ZodIssue -> string)
    (issue : Zod.ZodIssue) : string :=
  join "." (map pathText (Zod.path issue)) ++ ": " ++ message issue.

Definition validationMessage (message : Zod.ZodIssue -> string)
    (issues : list Zod.ZodIssue) : string :=
  "Schema validation failed: " ++ join ", " (map (issueText message) issues).

(** The guard [!markdownContent || markdownContent.trim().length === 0]. *)
Definition nothingToExtract (content : string) : bool :=
  negb (truthy content) || Nat.eqb (String.length (trim content)) 0.

Definition noContentMessage : string :=
  "No markdown content provided for extraction.".

(** The state updates before the request is sent. *)
Definition started (st : State) : State :=
  {| isExtracting := true;
     extractedBook := None;
     extractedMarkdown := extractedMarkdown st;
     error := "" |}.

Definition extractRequest (props : Props) : Request :=
  PostExtract schemaJson (markdownContent props) "extract-latest".

(** The rest of the [try] block, once the call has settled. *)
Definition validated (message : Zod.ZodIssue -> string) (props : Props)
    (settled : Settled ExtractResponse) : Thrown + json :=
  match bodyOrThrow "Extract request failed: " settled with
  | inl err => inl err
  | inr extractResponse =>
      match extraction extractResponse with
      | Some payload =>
          if truthyValue (Some payload)
          then
            match Zod.safeParse (schema props) payload with
            | Zod.success data => inr data
            | Zod.failure issues =>
                inl (ErrorThrown (validationMessage message issues))
            end
          else inl (ErrorThrown "ADE returned an empty extraction result.")
      | None => inl (ErrorThrown "ADE returned an empty extraction result.")
      end
  end.

(** The [catch] clause. *)
Definition errorMessageOf (message : Zod.ZodIssue -> string) (err : Thrown)
    : string :=
  match err with
  | ZodErrorThrown issues _ => validationMessage message issues
  | ErrorThrown m => m
  | OtherThrown => "An unknown error occurred during extraction."
  end.

Definition settle (message : Zod.ZodIssue -> string) (props : Props)
    (settled : Settled ExtractResponse) (st : State) : State * list Effect :=
  tryCatch
    (match validated message props settled with
     | inl err => inl err
     | inr parsedBook =>
         inr ({| isExtracting := false;
                 extractedBook := Some parsedBook;
                 extractedMarkdown := markdownContent props;
                 error := error st |},
              [OnExtractionSuccess parsedBook])
     end)
    (fun err =>
       let errorMessage := errorMessageOf message err in
       ({| isExtracting := false;
           extractedBook := extractedBook st;
           extractedMarkdown := extractedMarkdown st;
           error := errorMessage |},
        [OnExtractionError errorMessage])).

(** [handleExtract], run to its end: [settled] is how the call it may make
    settles. *)
Definition handleExtract (message : Zod.ZodIssue -> string) (props : Props)
    (settled : Settled ExtractResponse) (st : State) : State * list Effect :=
  if nothingToExtract (markdownContent props)
  then
    ({| isExtracting := isExtracting st;
        extractedBook := extractedBook st;
        extractedMarkdown := extractedMarkdown st;
        error := noContentMessage |},
     [OnExtractionError noContentMessage])
  else
    let '(st', effects) := settle message props settled (started st) in
    (st', Fetch (extractRequest props) :: effects).

(** The button that calls the handler is
    [disabled={isExtracting || !markdownContent.trim()}]. *)
Definition disabled (props : Props) (st : State) : bool :=
  isExtracting st || negb (truthy (trim (markdownContent props))).

(** A click on the button: a disabled button calls no handler. *)
Definition click (message : Zod.ZodIssue -> string) (props : Props)
    (settled : Settled ExtractResponse) (st : State) : State * list Effect :=
  if disabled props st then (st, [])
  else handleExtract message props settled st.

(** The export button: [downloadMarkdown(extractedBook, extractedMarkdown)]
    builds this file. *)
Definition exported (now : ExportMarkdown.Date) (localeNow : string)
    (st : State) : option (string * string) :=
  match extractedBook st with
  | Some book =>
      let data := Books.asDocumentExtraction book in
      Some (ExportMarkdown.generateFilename now data,
            ExportMarkdown.generateMarkdownContent localeNow data
              (Some (extractedMarkdown st)))
  | None => None
  end.

End BookExtractor.

(** ** [src/components/PdfExtractionWorkflow.tsx] *)

Module PdfExtractionWorkflow.
Import Remote.

(** The SDK client, of which the component only tests that it is there. *)
Inductive LandingAIADE : Type := AdeClient.

Inductive Status : Type := idle | parsing.

Record State := {
  selectedFile : option File;
  status : Status;
  markdown : string;
  parseError : string
}.

Definition initialState : State :=
  {| selectedFile := None; status := idle; markdown := ""; parseError := "" |}.

(** [files] is [event.target.files]. *)
Definition handleFileChange (files : option (list File)) (st : State)
    : State :=
  let file :=
    match files with
    | Some (f :: _) => Some f
    | _ => None
    end in
  {| selectedFile := file;
     status := status st;
     markdown := "";
     parseError := "" |}.

(** [chunk.markdown || ""]. *)
Definition chunkText (chunk : Chunk) : string :=
  match Remote.markdown chunk with
  | Some text => if truthy text then text else ""
  | None => ""
  end.

(** The filter [chunkMarkdown.trim().length > 0]. *)
Definition hasText (chunkMarkdown : string) : bool :=
  Nat.ltb 0 (String.length (trim chunkMarkdown)).

Definition paragraphBreak : string := nl ++ nl.

Definition parsedMarkdown (parseResponse : ParseResponse) : string :=
  match chunks parseResponse with
  | Some cs => join paragraphBreak (filter hasText (map chunkText cs))
  | None => ""
  end.

Definition notReadyMessage : string :=
  "ADE client is not ready yet. Please wait a moment and retry.".
Definition noFileMessage : string :=
  "Please choose a document (PDF or PPTX) before parsing.".
Definition noMarkdownMessage : string :=
  "Parsing completed but no markdown content was returned.".

Definition withParseError (message : string) (st : State) : State :=
  {| selectedFile := selectedFile st;
     status := status st;
     markdown := markdown st;
     parseError := message |}.

(** The state updates before the request is sent. *)
Definition started (st : State) : State :=
  {| selectedFile := selectedFile st;
     status := parsing;
     markdown := "";
     parseError := "" |}.

(** The rest of the [try] block, once the call has settled. *)
Definition normalized (settled : Settled ParseResponse) : Thrown + string :=
  match bodyOrThrow "Parse request failed: " settled with
  | inl err => inl err
  | inr parseResponse =>
      let text := parsedMarkdown parseResponse in
      if negb (truthy (trim text))
      then inl (ErrorThrown noMarkdownMessage)
      else inr text
  end.

(** The [catch] clause; a Zod error is an [Error] like any other here. *)
Definition errorMessageOf (err : Thrown) : string :=
  match err with
  | ErrorThrown m | ZodErrorThrown _ m => m
  | OtherThrown => "An unknown error occurred while parsing the document."
  end.

Definition settle (settled : Settled ParseResponse) (st : State) : State :=
  tryCatch
    (match normalized settled with
     | inl err => inl err
     | inr text =>
         inr {| selectedFile := selectedFile st;
                status := idle;
                markdown := text;
                parseError := parseError st |}
     end)
    (fun err =>
       {| selectedFile := selectedFile st;
          status := idle;
          markdown := markdown st;
          parseError := errorMessageOf err |}).

(** [handleParsePdf] up to the point where it waits for the call: the
    state it leaves for the next render, and the request it sent. *)
Definition begin (client : option LandingAIADE) (st : State)
    : State * option Request :=
  match client with
  | None => (withParseError notReadyMessage st, None)
  | Some _ =>
      match selectedFile st with
      | None => (withParseError noFileMessage st, None)
      | Some file => (started st, Some (PostParse file "dpt-2"))
      end
  end.

(** [handleParsePdf], run to its end. *)
Definition handleParsePdf (client : option LandingAIADE)
    (settled : Settled ParseResponse) (st : State) : State * option Request :=
  match begin client st with
  | (st', Some request) => (settle settled st', Some request)
  | (st', None) => (st', None)
  end.

(** *** The rendered tree

    The workflow renders a [BookExtractor] only while [markdown] is
    non-empty; when it is not rendered the child is unmounted and its
    state is gone, and when it is rendered again it starts from its
    initial state. *)
Record Tree := {
  workflow : State;
  extractor : option BookExtractor.State
}.

Definition reconcile (child : option BookExtractor.State) (st : State)
    : option BookExtractor.State :=
  if truthy (markdown st)
  then Some (match child with
             | Some e => e
             | None => BookExtractor.initialState
             end)
  else None.

(** A state update of the workflow, followed by the render. *)
Definition rerender (st : State) (t : Tree) : Tree :=
  {| workflow := st; extractor := reconcile (extractor t) st |}.

Definition initialTree : Tree := rerender initialState
  {| workflow := initialState; extractor := None |}.

Definition selectDocument (files : option (list File)) (t : Tree) : Tree :=
  rerender (handleFileChange files (workflow t)) t.

(** A parse, with the render that happens while the call is pending. *)
Definition parseDocument (client : option LandingAIADE)
    (settled : Settled ParseResponse) (t : Tree) : Tree :=
  match begin client (workflow t) with
  | (st', Some _) =>
      let pending := rerender st' t in
      rerender (settle settled st') pending
  | (st', None) => rerender st' t
  end.

(** The file input is [disabled={status !== "idle"}]. *)
Definition canSelect (t : Tree) : bool :=
  match status (workflow t) with idle => true | parsing => false end.

(** What the user sees of the pipeline's output (the workflow renders the
    child with [showResult={true}]). *)
Record Shown := {
  markdownPreview : option string;
  parseErrorBanner : option string;
  extractionResult : option json;
  extractionErrorBanner : option string
}.

Definition whenTruthy (s : string) : option string :=
  if truthy s then Some s else None.

Definition shown (t : Tree) : Shown :=
  {| markdownPreview :=
       option_map (substring 0 1200) (whenTruthy (markdown (workflow t)));
     parseErrorBanner := whenTruthy (parseError (workflow t));
     extractionResult :=
       match extractor t with
       | Some e => BookExtractor.extractedBook e
       | None => None
       end;
     extractionErrorBanner :=
       match extractor t with
       | Some e => whenTruthy (BookExtractor.error e)
       | None => None
       end |}.

(** The states of the orchestrator, read off the tree: busy while a call
    is pending, in error while an error message is up, idle otherwise. *)
Inductive Phase : Type :=
| PhaseIdle | PhaseParsing | PhaseExtracting | PhaseError.

Definition childBusy (t : Tree) : bool :=
  match extractor t with
  | Some e => BookExtractor.isExtracting e
  | None => false
  end.

Definition childError (t : Tree) : bool :=
  match extractor t with
  | Some e => truthy (BookExtractor.error e)
  | None => false
  end.

Definition phase (t : Tree) : Phase :=
  match status (workflow t) with
  | parsing => PhaseParsing
  | idle =>
      if childBusy t then PhaseExtracting
      else if truthy (parseError (workflow t)) || childError t
           then PhaseError
           else PhaseIdle
  end.

(** [handleExtract] inside the tree: the child, which is mounted, runs its
    handler on the markdown the workflow hands it. *)
Definition extractMetadata (message : Zod.ZodIssue -> string)
    (settled : Settled ExtractResponse) (t : Tree)
    : Tree * list BookExtractor.Effect :=
  match extractor t with
  | Some e =>
      let '(e', effects) :=
        BookExtractor.handleExtract message
          (BookExtractor.defaultProps (markdown (workflow t))) settled e in
      ({| workflow := workflow t; extractor := Some e' |}, effects)
  | None => (t, [])
  end.

End PdfExtractionWorkflow.

(** ** The vocabulary of the specification

    The notions the specification words its requirements in, written down
    on their own so that the code can be compared with them. *)

Module Spec.
Import Remote.

(** A text is blank when it is empty or made of white space only. *)
Definition blank (s : string) : Prop := every is_space s = true.

(** The text of a fragment, or the empty string. *)
Definition textOrEmpty (c : Chunk) : string :=
  match Remote.markdown c with
  | Some text => text
  | None => ""
  end.

(** [Survivors entries kept]: [kept] is what is left of [entries] once
    the blank ones are discarded, the others staying where they were
    relative to each other. *)
Inductive Survivors : list string -> list string -> Prop :=
| survivors_nil : Survivors [] []
| survivors_keep s entries kept :
    ~ blank s -> Survivors entries kept ->
    Survivors (s :: entries) (s :: kept)
| survivors_discard s entries kept :
    blank s -> Survivors entries kept ->
    Survivors (s :: entries) kept.

(** The ways a parse request fails: the transport fails, the status is
    not a success, or the normalized markdown is entirely blank. *)
Inductive ParseFailure : Settled ParseResponse -> Prop :=
| transport_failure e : ParseFailure (Rejected e)
| bad_status text : ParseFailure (NotOk text)
| blank_markdown r :
    blank (PdfExtractionWorkflow.parsedMarkdown r) -> ParseFailure (Ok r).

(** The message a failed parse is to surface: the upstream body when there
    is one, the text of the failure otherwise. *)
Definition failureText (settled : Settled ParseResponse) : string :=
  match settled with
  | Rejected (ErrorThrown m) | Rejected (ZodErrorThrown _ m) => m
  | Rejected OtherThrown =>
      "An unknown error occurred while parsing the document."
  | NotOk text => "Parse request failed: " ++ text
  | Ok _ => "Parsing completed but no markdown content was returned."
  end.

(** The record none of whose fields is there. *)
Definition absentRecord : DocumentExtraction :=
  {| title := Undefined;
     authors := Undefined;
     publishedYear := Undefined;
     genres := Undefined;
     pages := Undefined;
     language := Undefined;
     publisher := Undefined |}.

(** Two objects agree on the keys [ks]. *)
Definition agreeOn (ks : list string) (a b : list (string * json)) : Prop :=
  forall k, In k ks -> getProp k a = getProp k b.

(** Two publisher values that differ at most in undeclared keys. *)
Inductive SamePublisher : option json -> option json -> Prop :=
| same_value x : SamePublisher x x
| same_publisher a b :
    agreeOn Books.publisherKeys a b ->
    SamePublisher (Some (JObj a)) (Some (JObj b)).

(** Two payloads that differ at most in undeclared keys, of the payload
    itself or of its publisher. *)
Inductive SameDeclared : json -> json -> Prop :=
| same_declared a b :
    (forall k, In k Books.declaredKeys -> k <> "publisher" ->
               getProp k a = getProp k b) ->
    SamePublisher (getProp "publisher" a) (getProp "publisher" b) ->
    SameDeclared (JObj a) (JObj b).

(** The violation of a page count that is not above zero. *)
Definition pagesNotPositive : Zod.ZodIssue :=
  {| Zod.code := Zod.too_small 0 false; Zod.path := [Zod.Key "pages"] |}.

(** *** The export formatter *)

(** The characters a slug is made of: a-z, 0-9 and the hyphen. *)
Definition slugLetter (c : ascii) : bool :=
  is_lower c || is_digit c || is_hyphen c.

(** The first character of [s] is a hyphen. *)
Definition leadingHyphen (s : string) : bool :=
  match s with
  | String c _ => is_hyphen c
  | EmptyString => false
  end.

(** Two hyphens in a row somewhere in [s]. *)
Fixpoint doubledHyphen (s : string) : bool :=
  match s with
  | String c ((String c' _) as s') =>
      (is_hyphen c && is_hyphen c') || doubledHyphen s'
  | _ => false
  end.

(** What [sanitizeFilename] has computed when it comes to its final trim,
    on the class of its own regular expression: this is the code, named
    for the proofs, not the slug of the specification, which comes next. *)
Definition collapsed (t : string) : string :=
  replaceRuns is_hyphen "-"
    (replaceRuns is_space "-"
       (removeUnless ExportMarkdown.slug_char (toLowerCase t))).

(** An alphanumeric character of a lower-cased text: a letter a-z or a
    digit. *)
Definition lowerAlphanumeric (c : ascii) : bool := is_lower c || is_digit c.

(** What the specification lets through of a lower-cased title: the
    alphanumeric characters, white space and the hyphen. *)
Definition keptAsSpecified (c : ascii) : bool :=
  lowerAlphanumeric c || is_space c || is_hyphen c.

(** The slug as the specification words it, step by step: the title is
    lower-cased, the characters that are not alphanumeric, other than white
    space and hyphens, are stripped, each run of white space becomes one
    hyphen, repeated hyphens are collapsed, and the hyphens at both ends
    are trimmed. *)
Definition slugAsSpecified (t : string) : string :=
  let lowered := toLowerCase t in
  let stripped := removeUnless keptAsSpecified lowered in
  let hyphenated := replaceRuns is_space "-" stripped in
  let single := replaceRuns is_hyphen "-" hyphenated in
  dropEnd is_hyphen (dropStart is_hyphen single).

(** The file name as the specification words it: the date, a hyphen, the
    slug of the title or the fallback slug when there is no title, and
    the suffix. *)
Definition filenameAsSpecified (now : ExportMarkdown.Date)
    (data : DocumentExtraction) : string :=
  ExportMarkdown.formatDate now ++ "-" ++
  match title data with
  | Present (String c t) => slugAsSpecified (String c t)
  | _ => "untitled-document"
  end ++ ".md".

(** No title: the property is not there, is [null], or is the empty
    string. *)
Definition noTitle (x : optional string) : Prop :=
  x = Undefined \/ x = Null \/ x = Present "".

(** The slug the code puts into the file name, on [collapsed]. *)
Definition slugOf (x : optional string) : string :=
  match x with
  | Present (String c t) => collapsed (String c t)
  | _ => "untitled-document"
  end.

(** [n] decimal digits. *)
Definition digits (n : nat) (s : string) : Prop :=
  String.length s = n /\ every is_digit s = true.

(** A day of the calendar in a year of four digits. *)
Definition calendarDate (now : ExportMarkdown.Date) : Prop :=
  (1000 <= ExportMarkdown.getFullYear now <= 9999)%Z /\
  (0 <= ExportMarkdown.getMonth now <= 11)%Z /\
  (1 <= ExportMarkdown.getDate now <= 31)%Z.

(** A letter of Latin-1: A-Z, a-z, the ordinal indicators U+00AA and
    U+00BA, the micro sign U+00B5, and the letters U+00C0..U+00FF, which
    leaves out the multiplication sign U+00D7 and the division sign
    U+00F7. *)
Definition letter (c : ascii) : bool :=
  is_upper c || is_lower c ||
  Nat.eqb (code c) 170 || Nat.eqb (code c) 181 || Nat.eqb (code c) 186 ||
  (between 192 255 c &&
   negb (Nat.eqb (code c) 215) && negb (Nat.eqb (code c) 247)).

(** An alphanumeric character: a letter or a digit. *)
Definition alphanumeric (c : ascii) : bool := letter c || is_digit c.

(** A field that is not there: [undefined] or [null]. *)
Definition absent {A : Type} (x : optional A) : Prop :=
  x = Undefined \/ x = Null.

(** A record with a title [t] and authors [l] and nothing else. *)
Definition OnlyTitleAndAuthors (data : DocumentExtraction) (t : string)
    (l : list string) : Prop :=
  title data = Present t /\ t <> "" /\
  authors data = Present l /\ l <> [] /\
  absent (publishedYear data) /\ absent (genres data) /\
  absent (pages data) /\ absent (language data) /\
  absent (publisher data).

(** The fields of the metadata block, in the order of the block. *)
Inductive Field : Type :=
| Authors | Year | Pages | Language | PublisherField | Genres.

Definition fieldOrder : list Field :=
  [Authors; Year; Pages; Language; PublisherField; Genres].

Definition listed (label : string) (x : optional (list string))
    : option string :=
  match x with
  | Present (a :: l) => Some (label ++ join ", " (a :: l) ++ nl)
  | _ => None
  end.

Definition numbered (label : string) (x : optional Z) : option string :=
  match x with
  | Present n =>
      if Z.eq_dec n 0 then None else Some (label ++ ofInt n ++ nl)
  | _ => None
  end.

Definition worded (x : optional string) : option string :=
  match x with
  | Present (String c s) => Some (String c s)
  | _ => None
  end.

(** The line of a field, when the field is present. *)
Definition fieldLine (data : DocumentExtraction) (f : Field) : option string :=
  match f with
  | Authors => listed "**Authors:** " (authors data)
  | Year => numbered "**Published Year:** " (publishedYear data)
  | Pages => numbered "**Pages:** " (pages data)
  | Language =>
      option_map (fun l => "**Language:** " ++ l ++ nl)
        (worded (language data))
  | PublisherField =>
      match publisher data with
      | Present p =>
          match worded (name p), worded (location p) with
          | Some n, Some l =>
              Some ("**Publisher:** " ++ n ++ " (" ++ l ++ ")" ++ nl)
          | Some n, None => Some ("**Publisher:** " ++ n ++ nl)
          | None, Some l => Some ("**Publisher:** (" ++ l ++ ")" ++ nl)
          | None, None => None
          end
      | _ => None
      end
  | Genres => listed "**Genres:** " (genres data)
  end.

Definition present {A : Type} (x : option A) : list A :=
  match x with
  | Some a => [a]
  | None => []
  end.

(** The section of the full document text: there when a text was supplied
    that is not blank. *)
Definition documentSection (fullMarkdown : option string) : list string :=
  match fullMarkdown with
  | Some s =>
      if every is_space s then []
      else [nl ++ "---" ++ nl; "## Document Content" ++ nl; s]
  | None => []
  end.

End Spec.

(** ** Sample inputs *)

Module Sample.
Import Remote.

Definition march7 : ExportMarkdown.Date :=
  {| ExportMarkdown.getFullYear := 2024;
     ExportMarkdown.getMonth := 2;
     ExportMarkdown.getDate := 7 |}.

Definition titled (t : string) : DocumentExtraction :=
  {| title := Present t;
     authors := Undefined;
     publishedYear := Undefined;
     genres := Undefined;
     pages := Undefined;
     language := Undefined;
     publisher := Undefined |}.

Definition primer : DocumentExtraction :=
  {| title := Present "Deep Learning: A Primer!";
     authors := Present ["Ada Lovelace"; "Alan Turing"];
     publishedYear := Null;
     genres := Undefined;
     pages := Undefined;
     language := Null;
     publisher := Undefined |}.

Definition slides : File := {| fileName := "slides.pdf"; fileSize := 4096 |}.

Definition ready : PdfExtractionWorkflow.Tree :=
  PdfExtractionWorkflow.selectDocument (Some [slides])
    PdfExtractionWorkflow.initialTree.

(** A payload with a page count of zero and one undeclared key. *)
Definition zeroPages : list (string * json) :=
  [("title", JStr "Notes"); ("pages", JNum 0); ("isbn", JStr "n/a")].

(** A payload that passes, with undeclared keys. *)
Definition withExtras : json :=
  JObj [("title", JStr "Notes");
        ("isbn", JStr "n/a");
        ("publisher", JObj [("name", JStr "Acme"); ("founded", JNum 1900)])].

(** The answers of the service to a parse and to an extract request. *)
Definition parsed : ParseResponse :=
  {| chunks := Some [ {| markdown := Some "# Notes" |};
                      {| markdown := Some "  " |};
                      {| markdown := Some "By Acme." |} ] |}.

Definition extracted : ExtractResponse :=
  {| extraction := Some withExtras |}.

Definition wording (issue : Zod.ZodIssue) : string :=
  match Zod.code issue with
  | Zod.invalid_type _ _ => "Invalid input"
  | Zod.too_small _ _ => "Number must be greater than 0"
  end.

End Sample.

(** ** The workflow as the user drives it

    A click that sends a request leaves the call in flight; the call
    settles later, as an event of its own, and in between the user can use
    every control that is enabled.  The file input and the parse button
    are enabled while the status is idle, the extract button while the
    extractor is not extracting and the markdown it was handed is not
    blank.  An event at a disabled control, and the settling of a call that
    is not in flight, do nothing. *)

Module Session.
Import Remote PdfExtractionWorkflow.

(** The rendered tree with the calls in flight that can still reach it:
    the number of parse calls, and the calls of the mounted extractor, each
    with the props its handler was called with.  The call of an extractor
    that has been unmounted since is left out: when it settles, the
    setters it calls belong to a component that is gone, and set nothing. *)
Record Running := {
  tree : Tree;
  parseCalls : nat;
  extractCalls : list BookExtractor.Props
}.

Definition initial : Running :=
  {| tree := initialTree; parseCalls := 0; extractCalls := [] |}.

Inductive Event : Type :=
| SelectDocument (files : option (list File))
| ClickParse (client : option LandingAIADE)
| ParseSettles (settled : Settled ParseResponse)
| ClickExtract
| ExtractSettles (i : nat) (message : Zod.ZodIssue -> string)
    (settled : Settled ExtractResponse).

(** The calls of the extractor that are still of a mounted extractor. *)
Definition carried (t : Tree) (calls : list BookExtractor.Props)
    : list BookExtractor.Props :=
  match extractor t with
  | Some _ => calls
  | None => []
  end.

(** A state update of the workflow, followed by the render. *)
Definition render (st : State) (s : Running) : Running :=
  let t' := rerender st (tree s) in
  {| tree := t';
     parseCalls := parseCalls s;
     extractCalls := carried t' (extractCalls s) |}.

(** [handleExtract] up to the point where it waits for the call: the
    state it leaves for the next render, and the request it sent. *)
Definition beginExtract (props : BookExtractor.Props)
    (e : BookExtractor.State) : BookExtractor.State * option Request :=
  if BookExtractor.nothingToExtract (BookExtractor.markdownContent props)
  then
    ({| BookExtractor.isExtracting := BookExtractor.isExtracting e;
        BookExtractor.extractedBook := BookExtractor.extractedBook e;
        BookExtractor.extractedMarkdown := BookExtractor.extractedMarkdown e;
        BookExtractor.error := BookExtractor.noContentMessage |},
     None)
  else (BookExtractor.started e, Some (BookExtractor.extractRequest props)).

Definition withExtractor (e : BookExtractor.State) (t : Tree) : Tree :=
  {| workflow := workflow t; extractor := Some e |}.

(** The list without its entry at [i]. *)
Definition without {A : Type} (i : nat) (l : list A) : list A :=
  List.app (firstn i l) (skipn (S i) l).

Definition step (event : Event) (s : Running) : Running :=
  match event with
  | SelectDocument files =>
      if canSelect (tree s)
      then render (handleFileChange files (workflow (tree s))) s
      else s
  | ClickParse client =>
      if canSelect (tree s)
      then
        match begin client (workflow (tree s)) with
        | (st', Some _) =>
            let s' := render st' s in
            {| tree := tree s';
               parseCalls := S (parseCalls s');
               extractCalls := extractCalls s' |}
        | (st', None) => render st' s
        end
      else s
  | ParseSettles settled =>
      match parseCalls s with
      | S n =>
          let s' := render (settle settled (workflow (tree s))) s in
          {| tree := tree s';
             parseCalls := n;
             extractCalls := extractCalls s' |}
      | O => s
      end
  | ClickExtract =>
      match extractor (tree s) with
      | Some e =>
          let props :=
            BookExtractor.defaultProps (markdown (workflow (tree s))) in
          if BookExtractor.disabled props e then s
          else
            match beginExtract props e with
            | (e', Some _) =>
                {| tree := withExtractor e' (tree s);
                   parseCalls := parseCalls s;
                   extractCalls := props :: extractCalls s |}
            | (e', None) =>
                {| tree := withExtractor e' (tree s);
                   parseCalls := parseCalls s;
                   extractCalls := extractCalls s |}
            end
      | None => s
      end
  | ExtractSettles i message settled =>
      match nth_error (extractCalls s) i, extractor (tree s) with
      | Some props, Some e =>
          {| tree :=
               withExtractor
                 (fst (BookExtractor.settle message props settled e))
                 (tree s);
             parseCalls := parseCalls s;
             extractCalls := without i (extractCalls s) |}
      | _, _ => s
      end
  end.

(** What the user can bring about. *)
Inductive Reachable : Running -> Prop :=
| reach_initial : Reachable initial
| reach_step event s : Reachable s -> Reachable (step event s).

(** The state of the extractor and the calls it has in flight fit
    together, for the markdown [content] it is handed: either no call is
    in flight and it is not extracting, and a record it shows was
    extracted from that markdown and has no error beside it; or its one
    call is in flight, for that markdown, and it shows no record and no
    error. *)
Inductive ExtractorFits (content : string) (e : BookExtractor.State)
    : list BookExtractor.Props -> Prop :=
| fits_quiet :
    BookExtractor.isExtracting e = false ->
    (BookExtractor.extractedBook e <> None ->
     BookExtractor.extractedMarkdown e = content /\
     BookExtractor.error e = "") ->
    ExtractorFits content e []
| fits_extracting :
    BookExtractor.isExtracting e = true ->
    BookExtractor.extractedBook e = None ->
    BookExtractor.error e = "" ->
    ExtractorFits content e [BookExtractor.defaultProps content].

(** What holds of the tree and the calls in flight. *)
Record Consistent (s : Running) : Prop := {
  parse_in_flight :
    (parseCalls s = 0 /\ status (workflow (tree s)) = idle) \/
    (parseCalls s = 1 /\ status (workflow (tree s)) = parsing /\
     markdown (workflow (tree s)) = "");
  mounted_with_markdown :
    extractor (tree s) = None <-> markdown (workflow (tree s)) = "";
  markdown_has_text :
    markdown (workflow (tree s)) <> "" ->
    ~ Spec.blank (markdown (workflow (tree s)));
  unmounted_has_no_call :
    extractor (tree s) = None -> extractCalls s = [];
  extractor_fits :
    forall e, extractor (tree s) = Some e ->
      ExtractorFits (markdown (workflow (tree s))) e (extractCalls s)
}.

End Session.

(** ** Further notions *)

Module Notions.

(** The characters of an export file name: a-z, 0-9, the hyphen and the
    dot. *)
Definition fileNameChar (c : ascii) : bool :=
  Spec.slugLetter c || Nat.eqb (code c) 46.

(** A schema whose objects declare each key once, at every level. *)
Fixpoint distinctKeys (t : Zod.ZodType) : Prop :=
  match t with
  | Zod.ZodString | Zod.ZodNumber _ => True
  | Zod.ZodArray element => distinctKeys element
  | Zod.ZodObject shape =>
      NoDup (map fst shape) /\
      (fix fields (l : list (string * Zod.ZodType)) : Prop :=
         match l with
         | [] => True
         | (_, t') :: rest => distinctKeys t' /\ fields rest
         end) shape
  | Zod.ZodOptional inner | Zod.ZodNullable inner => distinctKeys inner
  end.

(** A field as the export formatter tests it: what is falsy ([null], the
    empty string, the empty list, zero) counts as not there. *)
Definition onlyTruthyString (x : optional string) : optional string :=
  match x with
  | Present (String c s) => Present (String c s)
  | _ => Undefined
  end.

Definition onlyNonEmpty (x : optional (list string)) : optional (list string) :=
  match x with
  | Present (a :: l) => Present (a :: l)
  | _ => Undefined
  end.

Definition onlyNonZero (x : optional Z) : optional Z :=
  match x with
  | Present n => if Z.eqb n 0 then Undefined else Present n
  | _ => Undefined
  end.

Definition onlyNamedPublisher (x : optional Publisher) : optional Publisher :=
  match x with
  | Present p =>
      match onlyTruthyString (name p), onlyTruthyString (location p) with
      | Undefined, Undefined => Undefined
      | n, l => Present {| name := n; location := l |}
      end
  | _ => Undefined
  end.

Definition truthyView (data : DocumentExtraction) : DocumentExtraction :=
  {| title := onlyTruthyString (title data);
     authors := onlyNonEmpty (authors data);
     publishedYear := onlyNonZero (publishedYear data);
     genres := onlyNonEmpty (genres data);
     pages := onlyNonZero (pages data);
     language := onlyTruthyString (language data);
     publisher := onlyNamedPublisher (publisher data) |}.

(** The type Zod reports for a value. *)
Definition typeOf (v : json) : Zod.ZodParsedType :=
  Zod.getParsedType (Some v).

Definition isString (v : json) : bool :=
  match v with JStr _ => true | _ => false end.

(** A lower-case letter a-z or a digit. *)
Definition letterOrDigit (c : ascii) : bool := is_lower c || is_digit c.

(** [Number.MAX_SAFE_INTEGER], 2^53 - 1: up to it every integer is a
    number of JavaScript and is printed with all its digits. *)
Definition maxSafeInteger : Z := 9007199254740991.

End Notions.

(** ** [src/App.tsx] *)

Module App.
Import Remote PdfExtractionWorkflow.

Definition notConfiguredMessage : string :=
  "VISION_AGENT_API_KEY is not configured. Please add it to your .env file.".

(** [!apiKey], for [import.meta.env.VITE_VISION_AGENT_API_KEY]: a string,
    or undefined. *)
Definition missing (apiKey : option string) : bool :=
  match apiKey with
  | Some key => negb (truthy key)
  | None => true
  end.

Definition error (apiKey : option string) : string :=
  if missing apiKey then notConfiguredMessage else "".

(** [construct] is [new LandingAIADE({ apikey })], which may throw. *)
Definition adeClient (construct : string -> Thrown + LandingAIADE)
    (apiKey : option string) : option LandingAIADE :=
  match apiKey with
  | Some key =>
      if negb (truthy key) then None
      else tryCatch
             (match construct key with
              | inl err => inl err
              | inr client => inr (Some client)
              end)
             (fun _ => None)
  | None => None
  end.

(** What the shell renders around the library: the error banner, the
    status banner, and the workflow with the client it is handed. *)
Record View := {
  errorBanner : option string;
  statusBanner : bool;
  workflowClient : option LandingAIADE
}.

(** [adeClient && !error]. *)
Definition ready (client : option LandingAIADE) (error : string) : bool :=
  match client with
  | Some _ => negb (truthy error)
  | None => false
  end.

Definition render (construct : string -> Thrown + LandingAIADE)
    (apiKey : option string) : View :=
  let client := adeClient construct apiKey in
  {| errorBanner := whenTruthy (error apiKey);
     statusBanner := ready client (error apiKey);
     workflowClient := if ready client (error apiKey) then client else None |}.

End App.

(** ** [vite.config.ts]: the proxy of the development server *)

Module ViteConfig.
Import Remote.

(** [loadEnv(mode, process.cwd(), "")]: the variables that are set. *)
Definition Env : Type := string -> option string.

(** [env.VISION_AGENT_API_KEY ?? env.VITE_VISION_AGENT_API_KEY ?? ""]. *)
Definition adeApiKey (env : Env) : string :=
  match env "VISION_AGENT_API_KEY" with
  | Some key => key
  | None =>
      match env "VITE_VISION_AGENT_API_KEY" with
      | Some key => key
      | None => ""
      end
  end.

Definition authHeaders (env : Env) : list (string * string) :=
  if truthy (adeApiKey env)
  then [("Authorization", "Bearer " ++ adeApiKey env)]
  else [].

(** What is left of [s] after the prefix [p], if [s] starts with it. *)
Fixpoint afterPrefix (p s : string) : option string :=
  match p, s with
  | EmptyString, _ => Some s
  | String a p', String b s' =>
      if Ascii.eqb a b then afterPrefix p' s' else None
  | String _ _, EmptyString => None
  end.

(** [path.replace(/^p/, r)] for a literal [p]. *)
Definition replacePrefix (p r path : string) : string :=
  match afterPrefix p path with
  | Some rest => r ++ rest
  | None => path
  end.

Record ProxyOptions := {
  target : string;
  changeOrigin : bool;
  secure : bool;
  rewrite : string -> string;
  headers : list (string * string)
}.

Definition proxy (env : Env) : list (string * ProxyOptions) :=
  [ ("/api/ade/parse",
     {| target := "https://api.va.landing.ai";
        changeOrigin := true;
        secure := true;
        rewrite := replacePrefix "/api/ade/parse" "/v1/ade/parse";
        headers := authHeaders env |});
    ("/api/ade/extract",
     {| target := "https://api.va.landing.ai";
        changeOrigin := true;
        secure := true;
        rewrite := replacePrefix "/api/ade/extract" "/v1/ade/extract";
        headers := authHeaders env |}) ].

(** The development server hands a request to the first rule whose key
    its URL starts with, and sends it to the target under the rewritten
    path, with the rule's headers added. *)
Record Forwarded := {
  destination : string;
  added : list (string * string)
}.

Fixpoint forward (rules : list (string * ProxyOptions)) (url : string)
    : option Forwarded :=
  match rules with
  | [] => None
  | (context, options) :: rest =>
      match afterPrefix context url with
      | Some _ =>
          Some {| destination := target options ++ rewrite options url;
                  added := headers options |}
      | None => forward rest url
      end
  end.

(** The URL each request of the pipeline is posted to (the [fetch] calls
    of the two components). *)
Definition endpoint (request : Request) : string :=
  match request with
  | PostParse _ _ => "/api/ade/parse"
  | PostExtract _ _ _ => "/api/ade/extract"
  end.

End ViteConfig.

(** ** [src/components/BookLibrary.tsx] *)

Module BookLibrary.

(** The types inferred from [BookSchema]. *)
Record Publisher := { name : string; location : string }.
Record Availability := { format : string; stock : Z }.
Record Rating := { average : Q; count : Z }.

Record Book := {
  id : string;
  title : string;
  authors : list string;
  publishedYear : Z;
  genres : list string;
  isbn : string;
  pages : Z;
  language : string;
  publisher : Publisher;
  availability : Availability;
  rating : Rating;
  pdfUrl : option string
}.

Inductive SortOption : Type := SortTitle | SortYear | SortRating | SortStock.
Inductive FilterStock : Type := AllBooks | Available | OutOfStock.

Record State := {
  searchTerm : string;
  selectedGenre : string;
  sortBy : SortOption;
  stockFilter : FilterStock
}.

Definition initialState : State :=
  {| searchTerm := "";
     selectedGenre := "all";
     sortBy := SortTitle;
     stockFilter := AllBooks |}.

(** The [onChange] handlers of the four controls. *)
Definition setSearchTerm (value : string) (st : State) : State :=
  {| searchTerm := value;
     selectedGenre := selectedGenre st;
     sortBy := sortBy st;
     stockFilter := stockFilter st |}.

Definition setSelectedGenre (value : string) (st : State) : State :=
  {| searchTerm := searchTerm st;
     selectedGenre := value;
     sortBy := sortBy st;
     stockFilter := stockFilter st |}.

Definition setSortBy (value : SortOption) (st : State) : State :=
  {| searchTerm := searchTerm st;
     selectedGenre := selectedGenre st;
     sortBy := value;
     stockFilter := stockFilter st |}.

Definition setStockFilter (value : FilterStock) (st : State) : State :=
  {| searchTerm := searchTerm st;
     selectedGenre := selectedGenre st;
     sortBy := sortBy st;
     stockFilter := value |}.

(** The [onClick] of the Reset Filters button. *)
Definition resetFilters (st : State) : State :=
  setStockFilter AllBooks (setSelectedGenre "all" (setSearchTerm "" st)).

(** [s.includes(sub)]: [sub] occurs in [s]. *)
Fixpoint includes (sub s : string) : bool :=
  String.prefix sub s ||
  match s with
  | EmptyString => false
  | String _ s' => includes sub s'
  end.

(** [Set.prototype.add]: a value that is in the set is not added again,
    a new one comes last. *)
Definition add (g : string) (set : list string) : list string :=
  if existsb (String.eqb g) set then set else List.app set [g].

(** [Array.prototype.sort]: the sort is stable, and [before a b] tells
    that the comparator does not put [a] after [b] (it returns a number
    that is not above zero).  For a comparator that is an ordering, which
    is what the standard fixes the result for, a stable sort has one
    result: each element goes before the first of the later ones that the
    comparator does not put before it. *)
Fixpoint insertSorted {A : Type} (before : A -> A -> bool) (x : A)
    (l : list A) : list A :=
  match l with
  | [] => [x]
  | y :: l' => if before x y then x :: l else y :: insertSorted before x l'
  end.

Definition sort {A : Type} (before : A -> A -> bool) (l : list A) : list A :=
  fold_right (insertSorted before) [] l.

(** Without a comparator strings are ordered by their code units. *)
Definition allGenres (books : list Book) : list string :=
  let genreSet :=
    fold_left
      (fun set book => fold_left (fun set g => add g set) (genres book) set)
      books [] in
  sort String.leb genreSet.

Definition matchesSearch (st : State) (book : Book) : bool :=
  let searchLower := toLowerCase (searchTerm st) in
  includes searchLower (toLowerCase (title book)) ||
  existsb (fun author => includes searchLower (toLowerCase author))
    (authors book) ||
  includes searchLower (toLowerCase (isbn book)).

Definition matchesGenre (st : State) (book : Book) : bool :=
  String.eqb (selectedGenre st) "all" ||
  existsb (String.eqb (selectedGenre st)) (genres book).

Definition matchesStock (st : State) (book : Book) : bool :=
  match stockFilter st with
  | AllBooks => true
  | Available => Z.ltb 0 (stock (availability book))
  | OutOfStock => Z.eqb (stock (availability book)) 0
  end.

Definition matches (st : State) (book : Book) : bool :=
  matchesSearch st book && matchesGenre st book && matchesStock st book.

(** The number the comparator returns; [localeCompare] is the collation
    of the browser. *)
Definition compareBooks (localeCompare : string -> string -> Z)
    (by_ : SortOption) (a b : Book) : Q :=
  match by_ with
  | SortTitle => inject_Z (localeCompare (title a) (title b))
  | SortYear => inject_Z (publishedYear b - publishedYear a)
  | SortRating => (average (rating b) - average (rating a))%Q
  | SortStock =>
      inject_Z (stock (availability b) - stock (availability a))
  end.

Definition filteredBooks (localeCompare : string -> string -> Z)
    (books : list Book) (st : State) : list Book :=
  let result := filter (matches st) books in
  sort (fun a b =>
          Qle_bool (compareBooks localeCompare (sortBy st) a b) 0%Q)
       result.

Record StockStatus := { label : string; class : string }.

Definition getStockStatus (stock : Z) : StockStatus :=
  if Z.eqb stock 0
  then {| label := "Out of Stock"; class := "stock-out" |}
  else if Z.leb stock 5
  then {| label := "Low Stock (" ++ ofInt stock ++ ")"; class := "stock-low" |}
  else {| label := "In Stock (" ++ ofInt stock ++ ")"; class := "stock-in" |}.

(** The three glyphs of the rating line. *)
Inductive Glyph : Type := FullStar | HalfStar | EmptyStar.

(** [glyph.repeat(count)], which throws a RangeError for a negative
    count: [None]. *)
Definition repeatGlyph (glyph : Glyph) (count : Z) : option (list Glyph) :=
  if Z.ltb count 0 then None else Some (repeat glyph (Z.to_nat count)).

(** [x % 1]: what is left of [x] without its integer part, with the sign
    of [x]. *)
Definition fraction (x : Q) : Q :=
  (x - inject_Z (Z.quot (Qnum x) (Zpos (Qden x))))%Q.

Definition getRatingStars (rating : Q) : option (list Glyph) :=
  let fullStars := Qfloor rating in
  let hasHalfStar := Qle_bool (1 # 2) (fraction rating) in
  let emptyStars :=
    (5 - fullStars - (if hasHalfStar then 1 else 0))%Z in
  match repeatGlyph FullStar fullStars, repeatGlyph EmptyStar emptyStars with
  | Some full, Some empty =>
      Some (List.app full
              (List.app (if hasHalfStar then [HalfStar] else []) empty))
  | _, _ => None
  end.

(** The listing, or the notice that no book matches. *)
Definition noResults (localeCompare : string -> string -> Z)
    (books : list Book) (st : State) : bool :=
  Nat.eqb (List.length (filteredBooks localeCompare books st)) 0.

End BookLibrary.

(** ** Notions of order for the library *)

Module Order.
Import BookLibrary.

(** The books of [l] come with their keys going down. *)
Definition Descending (key : Book -> Q) (l : list Book) : Prop :=
  StronglySorted (fun a b => (key b <= key a)%Q) l.

(** Books with equal keys are in [l] in the order they have in [l0]. *)
Definition KeepsTies (key : Book -> Q) (l0 l : list Book) : Prop :=
  forall v : Q,
    filter (fun b => Qeq_bool (key b) v) l =
    filter (fun b => Qeq_bool (key b) v) l0.

Definition yearOf (book : Book) : Q := inject_Z (publishedYear book).
Definition ratingOf (book : Book) : Q := average (rating book).
Definition stockOf (book : Book) : Q := inject_Z (stock (availability book)).

Definition isFull (glyph : Glyph) : bool :=
  match glyph with FullStar => true | _ => false end.

(** [sub] occurs in [s]. *)
Definition Occurs (sub s : string) : Prop :=
  exists before after, s = before ++ sub ++ after.

End Order.

(** ** A small collection *)

Module Shelf.
Import BookLibrary.

Definition emma : Book :=
  {| id := "emma";
     title := "Emma";
     authors := ["Jane Austen"];
     publishedYear := 1815;
     genres := ["Fiction"; "Romance"];
     isbn := "9780141439587";
     pages := 474;
     language := "en";
     publisher := {| name := "John Murray"; location := "London" |};
     availability := {| format := "paperback"; stock := 3 |};
     rating := {| average := (4 # 1)%Q; count := 120 |};
     pdfUrl := None |}.

Definition dracula : Book :=
  {| id := "dracula";
     title := "Dracula";
     authors := ["Bram Stoker"];
     publishedYear := 1897;
     genres := ["Fiction"; "Horror"];
     isbn := "9780141439846";
     pages := 418;
     language := "en";
     publisher := {| name := "Archibald Constable"; location := "" |};
     availability := {| format := "hardcover"; stock := 0 |};
     rating := {| average := (9 # 2)%Q; count := 85 |};
     pdfUrl := Some "https://www.gutenberg.org/files/345/345-pdf.pdf" |}.

Definition books : list Book := [emma; dracula].

(** A collation that orders titles by their code units. *)
Definition byCodeUnits (s t : string) : Z :=
  match String.compare s t with
  | Lt => (-1)%Z
  | Eq => 0%Z
  | Gt => 1%Z
  end.

End Shelf.

(** * Properties *)

(** ** Strings *)

Section StringFacts.

Variable cls : ascii -> bool.

Lemma dropStart_empty (s : string) :
  dropStart cls s = "" <-> every cls s = true.
Proof.
  induction s as [|c s IH]; simpl.
  - tauto.
  - destruct (cls c); simpl; [exact IH | split; discriminate].
Qed.

Lemma dropEnd_empty (s : string) :
  dropEnd cls s = "" <-> every cls s = true.
Proof.
  induction s as [|c s IH]; simpl.
  - tauto.
  - destruct (dropEnd cls s) eqn:E.
    + destruct (cls c); simpl.
      * split; intros _; [apply IH|]; reflexivity.
      * split; discriminate.
    + split; [discriminate|].
      intros H. apply andb_true_iff in H as [_ H].
      apply IH in H. discriminate.
Qed.

Lemma every_dropStart (s : string) :
  every cls (dropStart cls s) = every cls s.
Proof.
  induction s as [|c s IH]; simpl; [reflexivity|].
  destruct (cls c) eqn:E; simpl; [exact IH | now rewrite E].
Qed.

Lemma every_app (s t : string) :
  every cls (s ++ t) = every cls s && every cls t.
Proof.
  induction s as [|c s IH]; simpl; [reflexivity|].
  now rewrite IH, andb_assoc.
Qed.

End StringFacts.

Lemma string_app_assoc (a b c : string) : (a ++ b) ++ c = a ++ (b ++ c).
Proof. induction a as [|x a IH]; simpl; [reflexivity | now rewrite IH]. Qed.

Lemma trim_empty (s : string) : trim s = "" <-> Spec.blank s.
Proof.
  unfold trim, Spec.blank.
  rewrite dropEnd_empty, every_dropStart. tauto.
Qed.

Lemma blank_dec (s : string) : {Spec.blank s} + {~ Spec.blank s}.
Proof.
  unfold Spec.blank. destruct (every is_space s); [left | right]; congruence.
Qed.

(** ** The markdown normalizer *)

Section Normalizer.
Import Remote PdfExtractionWorkflow.

Lemma hasText_true (s : string) : hasText s = true <-> ~ Spec.blank s.
Proof.
  unfold hasText. rewrite Nat.ltb_lt, <- trim_empty.
  destruct (trim s); simpl; split; intros H; try lia; congruence.
Qed.

Lemma hasText_false (s : string) : hasText s = false <-> Spec.blank s.
Proof.
  destruct (hasText s) eqn:E.
  - apply hasText_true in E. split; [discriminate | contradiction].
  - split; [intros _ | reflexivity].
    destruct (blank_dec s) as [B | B]; [exact B|].
    apply hasText_true in B. congruence.
Qed.

Lemma chunkText_textOrEmpty (c : Chunk) : chunkText c = Spec.textOrEmpty c.
Proof.
  unfold chunkText, Spec.textOrEmpty.
  destruct (Remote.markdown c) as [[|a s]|]; reflexivity.
Qed.

Lemma filter_Survivors (entries : list string) :
  Spec.Survivors entries (filter hasText entries).
Proof.
  induction entries as [|s entries IH]; simpl.
  - constructor.
  - destruct (hasText s) eqn:E.
    + apply Spec.survivors_keep; [now apply hasText_true | exact IH].
    + apply Spec.survivors_discard; [now apply hasText_false | exact IH].
Qed.

Lemma Survivors_unique (entries kept kept' : list string) :
  Spec.Survivors entries kept -> Spec.Survivors entries kept' -> kept = kept'.
Proof.
  intros H. revert kept'.
  induction H as [|s entries kept Hs _ IH|s entries kept Hs _ IH];
    intros kept' H'; inversion H'; subst;
    try contradiction; try reflexivity; try (f_equal; now apply IH).
Qed.

Lemma Survivors_In (entries kept : list string) :
  Spec.Survivors entries kept ->
  forall s, In s kept <-> In s entries /\ ~ Spec.blank s.
Proof.
  induction 1 as [|s0 entries kept Hs _ IH|s0 entries kept Hs _ IH];
    intros s; simpl.
  - tauto.
  - rewrite IH. split.
    + intros [-> | [Hi Hb]]; tauto.
    + intros [[-> | Hi] Hb]; tauto.
  - rewrite IH. split.
    + tauto.
    + intros [[-> | Hi] Hb]; [contradiction | tauto].
Qed.

Lemma Survivors_none (entries : list string) :
  Forall Spec.blank entries <-> Spec.Survivors entries [].
Proof.
  split.
  - induction 1; constructor; assumption.
  - remember [] as kept eqn:E. induction 1; try discriminate; auto.
Qed.

(** The joined text is blank only when nothing survived. *)
Lemma every_join_survivors (sep : string) (kept : list string) :
  Forall (fun s => ~ Spec.blank s) kept ->
  Spec.blank (join sep kept) -> kept = [].
Proof.
  intros H B. destruct H as [|s kept Hs _]; [reflexivity|].
  exfalso. apply Hs. unfold Spec.blank, join in *. simpl in B.
  destruct kept; [exact B|].
  rewrite every_app in B. now apply andb_true_iff in B as [B _].
Qed.

End Normalizer.

Section NormalizerClaims.
Import Remote PdfExtractionWorkflow.

(** C3.  For every ordered sequence of fragments [cs], each with or without
    markdown text, the normalizer takes the text of each fragment (the empty
    string when it has none), discards the entries that are empty or white
    space only, and joins the survivors, in their original order, with a
    double line break; with no survivor the result is the empty string. *)
Theorem normalizer_joins_surviving_fragments (cs : list Chunk) :
  let entries := map Spec.textOrEmpty cs in
  let result := parsedMarkdown {| chunks := Some cs |} in
  exists kept : list string,
    Spec.Survivors entries kept /\
    (forall s, In s kept <-> In s entries /\ ~ Spec.blank s) /\
    result = join (nl ++ nl) kept /\
    (kept = [] -> result = "").
Proof.
  intros entries result.
  exists (filter hasText entries).
  assert (S : Spec.Survivors entries (filter hasText entries))
    by apply filter_Survivors.
  assert (R : result = join (nl ++ nl) (filter hasText entries)).
  { unfold result, parsedMarkdown, entries; simpl.
    f_equal. f_equal. apply map_ext, chunkText_textOrEmpty. }
  split; [exact S|].
  split; [intros s; now apply Survivors_In|].
  split; [exact R|].
  intros E. rewrite R, E. reflexivity.
Qed.

Example normalizer_mixed_fragments :
  parsedMarkdown
    {| chunks := Some [ {| Remote.markdown := Some "# Title" |};
                        {| Remote.markdown := Some "   " |};
                        {| Remote.markdown := None |};
                        {| Remote.markdown := Some "" |};
                        {| Remote.markdown := Some "Body" |} ] |}
  = "# Title" ++ nl ++ nl ++ "Body".
Proof. reflexivity. Qed.

End NormalizerClaims.

(** ** The parse stage *)

Section ParseClaims.
Import Remote PdfExtractionWorkflow.

Lemma normalized_failure (settled : Settled ParseResponse) :
  Spec.ParseFailure settled ->
  exists err,
    normalized settled = inl err /\
    errorMessageOf err = Spec.failureText settled.
Proof.
  intros [e | text | r B].
  - exists e. split; [reflexivity|]. now destruct e.
  - eexists. split; reflexivity.
  - exists (ErrorThrown noMarkdownMessage). split; [|reflexivity].
    unfold normalized; simpl.
    apply trim_empty in B. now rewrite B.
Qed.

Lemma blank_fragments_blank_markdown (cs : list Chunk) :
  Forall (fun c => Spec.blank (Spec.textOrEmpty c)) cs ->
  parsedMarkdown {| chunks := Some cs |} = "".
Proof.
  intros H. unfold parsedMarkdown; simpl.
  replace (filter hasText (map chunkText cs)) with (@nil string);
    [reflexivity|].
  induction H as [|c cs Hc _ IH]; simpl; [reflexivity|].
  rewrite chunkText_textOrEmpty.
  apply hasText_false in Hc. now rewrite Hc.
Qed.

(** What a failed parse leaves behind. *)
Lemma parseDocument_failure (client : LandingAIADE) (file : File)
    (settled : Settled ParseResponse) (t : Tree) :
  selectedFile (workflow t) = Some file ->
  Spec.ParseFailure settled ->
  parseDocument (Some client) settled t =
    {| workflow := {| selectedFile := Some file;
                      status := idle;
                      markdown := "";
                      parseError := Spec.failureText settled |};
       extractor := None |}.
Proof.
  intros F H. destruct (normalized_failure settled H) as (err & N & M).
  unfold parseDocument, begin, settle. rewrite F, N. simpl.
  unfold rerender, reconcile; simpl. now rewrite M, F.
Qed.

(** A failed parse, in general.  While the call is pending the phase is
    parsing; afterwards the status is idle again, no markdown is kept, and
    the error message is the one of the failure, which for a non-success
    status carries the upstream response body.  The phase is then the error
    phase whenever that message is not empty, which it is for a non-success
    status and for blank markdown.  A response without fragments, or whose
    fragments are all blank, is a parse failure. *)
Lemma failed_parse_goes_from_parsing_to_error (client : LandingAIADE)
    (file : File) (settled : Settled ParseResponse) (t : Tree) :
  selectedFile (workflow t) = Some file ->
  Spec.ParseFailure settled ->
  let pending := rerender (fst (begin (Some client) (workflow t))) t in
  let t' := parseDocument (Some client) settled t in
  phase pending = PhaseParsing /\
  status (workflow t') = idle /\
  markdown (workflow t') = "" /\
  extractor t' = None /\
  parseError (workflow t') = Spec.failureText settled /\
  (Spec.failureText settled <> "" -> phase t' = PhaseError) /\
  (forall text, settled = NotOk text ->
     parseError (workflow t') = "Parse request failed: " ++ text /\
     phase t' = PhaseError) /\
  (forall r, settled = Ok r ->
     parseError (workflow t') = noMarkdownMessage /\ phase t' = PhaseError) /\
  Spec.ParseFailure (Ok {| chunks := None |}) /\
  (forall cs, Forall (fun c => Spec.blank (Spec.textOrEmpty c)) cs ->
     Spec.ParseFailure (Ok {| chunks := Some cs |})).
Proof.
  intros F H pending t'.
  assert (E : t' = _) by exact (parseDocument_failure client file settled t F H).
  assert (P : Spec.failureText settled <> "" -> phase t' = PhaseError).
  { intros N. rewrite E. unfold phase, childBusy, childError; simpl.
    destruct (Spec.failureText settled); [congruence | reflexivity]. }
  split.
  { unfold pending, begin. rewrite F. reflexivity. }
  split; [now rewrite E|].
  split; [now rewrite E|].
  split; [now rewrite E|].
  split; [now rewrite E|].
  split; [exact P|].
  split.
  { intros text ->. split; [now rewrite E|]. apply P. discriminate. }
  split.
  { intros r ->. split; [now rewrite E|]. apply P. discriminate. }
  split.
  { apply Spec.blank_markdown. reflexivity. }
  intros cs B. apply Spec.blank_markdown.
  now rewrite blank_fragments_blank_markdown.
Qed.


End ParseClaims.

(** ** The schema language *)

Section ZodFacts.
Import Zod.

(** Induction on a schema, with the fields of an object at hand. *)
Lemma ZodType_fields_ind (P : ZodType -> Prop) :
  P ZodString ->
  (forall checks, P (ZodNumber checks)) ->
  (forall element, P element -> P (ZodArray element)) ->
  (forall shape, Forall (fun field => P (snd field)) shape ->
                 P (ZodObject shape)) ->
  (forall inner, P inner -> P (ZodOptional inner)) ->
  (forall inner, P inner -> P (ZodNullable inner)) ->
  forall t, P t.
Proof.
  intros Hs Hn Ha Ho Hopt Hnul.
  fix IH 1. intros [ | checks | element | shape | inner | inner ].
  - exact Hs.
  - apply Hn.
  - apply Ha, IH.
  - apply Ho. induction shape as [|[k t] shape IHs]; constructor.
    + apply IH.
    + exact IHs.
  - apply Hopt, IH.
  - apply Hnul, IH.
Qed.

Lemma under_app (at_ more : list PathElem) (issue : ZodIssue) :
  under (at_ ++ more) issue -> under at_ issue.
Proof.
  intros [rest E]. exists (more ++ rest)%list. now rewrite E, app_assoc.
Qed.

Lemma under_refl (at_ : list PathElem) (c : ZodIssueCode) :
  under at_ {| code := c; path := at_ |}.
Proof. exists []. simpl. now rewrite app_nil_r. Qed.

Lemma runCheck_path (at_ : list PathElem) (q : Q) (c : NumberCheck)
    (issue : ZodIssue) :
  In issue (runCheck at_ q c) -> path issue = at_.
Proof.
  destruct c as [|value inclusive]; simpl.
  - destruct (isInteger q); simpl; [tauto|]. now intros [<- | []].
  - destruct (if inclusive then _ else _); simpl; [|tauto].
    now intros [<- | []].
Qed.

Lemma parseItems_issues parseItem (at_ : list PathElem) (items : list json) :
  (forall at' x issue, In issue (fst (parseItem at' x)) -> under at' issue) ->
  forall i issue,
    In issue (fst (parseItems parseItem at_ i items)) -> under at_ issue.
Proof.
  intros Hp. induction items as [|x items IH]; intros i issue; simpl.
  - tauto.
  - destruct (parseItem (at_ ++ [Index i])%list (Some x)) as [issues out] eqn:E.
    destruct (parseItems parseItem at_ (S i) items) as [issues' outs] eqn:E'.
    simpl. rewrite in_app_iff. intros [H | H].
    + apply under_app with (more := [Index i]).
      apply (Hp _ (Some x)). now rewrite E.
    + apply (IH (S i)). now rewrite E'.
Qed.

(** The issues of an object are those of its declared fields, field by
    field. *)
Lemma parseShape_issues parseField (at_ : list PathElem)
    (props : list (string * json)) (shape : list (string * ZodType)) :
  fst (parseShape parseField at_ props shape) =
  flat_map (fun field =>
              fst (parseField (snd field) (at_ ++ [Key (fst field)])%list
                     (getProp (fst field) props)))
           shape.
Proof.
  induction shape as [|[k t] shape IH]; simpl; [reflexivity|].
  destruct (parseField t (at_ ++ [Key k])%list (getProp k props)) as [issues out].
  destruct (parseShape parseField at_ props shape) as [issues' outs].
  simpl in *. now rewrite IH.
Qed.

(** Only declared keys are set in the result. *)
Lemma parseShape_keys parseField (at_ : list PathElem)
    (props : list (string * json)) (shape : list (string * ZodType)) :
  incl (keys (snd (parseShape parseField at_ props shape))) (map fst shape).
Proof.
  induction shape as [|[k t] shape IH]; simpl; [apply incl_refl|].
  destruct (parseField t (at_ ++ [Key k])%list (getProp k props)) as [issues out].
  destruct (parseShape parseField at_ props shape) as [issues' outs].
  simpl in *. destruct out as [y|]; simpl.
  - now apply incl_cons; [left | apply incl_tl].
  - now apply incl_tl.
Qed.

(** An object is read through its declared keys only. *)
Lemma parseShape_ext parseField (at_ : list PathElem)
    (a b : list (string * json)) (shape : list (string * ZodType)) :
  (forall k t, In (k, t) shape ->
     parseField t (at_ ++ [Key k])%list (getProp k a) =
     parseField t (at_ ++ [Key k])%list (getProp k b)) ->
  parseShape parseField at_ a shape = parseShape parseField at_ b shape.
Proof.
  induction shape as [|[k t] shape IH]; intros H; simpl; [reflexivity|].
  rewrite (H k t) by now left.
  rewrite IH; [reflexivity|]. intros k' t' Hin. apply H. now right.
Qed.

(** Every issue lies under the path the value was parsed at. *)
Lemma parse_issues_under (t : ZodType) :
  forall at_ x issue, In issue (fst (parse t at_ x)) -> under at_ issue.
Proof.
  induction t as [ | checks | element IH | shape IH | inner IH | inner IH ]
    using ZodType_fields_ind; intros at_ x issue; simpl.
  - destruct x as [[]|]; simpl; try tauto; intros [<- | []]; apply under_refl.
  - destruct x as [[]|]; simpl;
      try (intros [<- | []]; apply under_refl).
    rewrite in_flat_map. intros (c & _ & H).
    apply runCheck_path in H. exists []. now rewrite app_nil_r.
  - destruct x as [[]|]; simpl;
      try (intros [<- | []]; apply under_refl).
    destruct (parseItems (parse element) at_ 0 items) as [issues outs] eqn:E.
    simpl. intros H. apply (parseItems_issues (parse element) at_ items IH 0).
    now rewrite E.
  - destruct x as [[]|]; simpl;
      try (intros [<- | []]; apply under_refl).
    destruct (parseShape parse at_ props shape) as [issues outs] eqn:E.
    simpl. intros H.
    assert (H' : In issue (fst (parseShape parse at_ props shape)))
      by now rewrite E.
    rewrite parseShape_issues, in_flat_map in H'.
    destruct H' as ([k t] & Hin & Hi). simpl in Hi.
    rewrite Forall_forall in IH. apply (IH _ Hin) in Hi.
    now apply under_app in Hi.
  - destruct x as [x|]; simpl; [apply IH | tauto].
  - destruct x as [[]|]; simpl; try apply IH. tauto.
Qed.

Lemma safeParse_failure (t : ZodType) (x : json) :
  fst (parse t [] (Some x)) <> [] ->
  safeParse t x = failure (fst (parse t [] (Some x))).
Proof.
  unfold safeParse. destruct (parse t [] (Some x)) as [[|issue issues] out];
    simpl; [congruence | reflexivity].
Qed.

Lemma safeParse_success (t : ZodType) (x data : json) :
  safeParse t x = success data ->
  parse t [] (Some x) = ([], Some data).
Proof.
  unfold safeParse. destruct (parse t [] (Some x)) as [[|issue issues] [out|]];
    congruence.
Qed.

End ZodFacts.

(** ** The extraction schema *)

Section SchemaFacts.
Import Zod Books.

Lemma parse_object (shape : list (string * ZodType)) (at_ : list PathElem)
    (props : list (string * json)) :
  parse (ZodObject shape) at_ (Some (JObj props)) =
  (fst (parseShape parse at_ props shape),
   Some (JObj (snd (parseShape parse at_ props shape)))).
Proof. simpl. now destruct (parseShape parse at_ props shape). Qed.

Lemma schema_is_object :
  DocumentExtractionSchema = ZodObject (shapeOf DocumentExtractionSchema).
Proof. reflexivity. Qed.

Lemma schema_keys : map fst (shapeOf DocumentExtractionSchema) = declaredKeys.
Proof. reflexivity. Qed.

(** Every declared field is optional and nullable. *)
Lemma schema_fields_optional (k : string) (t : ZodType) :
  In (k, t) (shapeOf DocumentExtractionSchema) ->
  exists inner, t = ZodNullable (ZodOptional inner).
Proof.
  simpl. intros H.
  repeat (destruct H as [H | H]; [inversion H; eexists; reflexivity|]).
  destruct H.
Qed.

Lemma parse_absent (inner : ZodType) (at_ : list PathElem) :
  parse (ZodNullable (ZodOptional inner)) at_ None = ([], None).
Proof. reflexivity. Qed.

Lemma parseShape_nothing parseField (at_ : list PathElem)
    (props : list (string * json)) (shape : list (string * ZodType)) :
  (forall k t, In (k, t) shape ->
     parseField t (at_ ++ [Key k])%list (getProp k props) = ([], None)) ->
  parseShape parseField at_ props shape = ([], []).
Proof.
  induction shape as [|[k t] shape IH]; intros H; simpl; [reflexivity|].
  rewrite (H k t) by now left.
  rewrite IH; [reflexivity|]. intros k' t' Hin. apply H. now right.
Qed.

(** A key set in the result was declared, and holds what its field's schema
    handed on. *)
Lemma parseShape_getProp parseField (at_ : list PathElem)
    (props : list (string * json)) (shape : list (string * ZodType))
    (k : string) (y : json) :
  getProp k (snd (parseShape parseField at_ props shape)) = Some y ->
  exists t, In (k, t) shape /\
            snd (parseField t (at_ ++ [Key k])%list (getProp k props)) = Some y.
Proof.
  induction shape as [|[k' t'] shape IH]; simpl; [discriminate|].
  destruct (parseField t' (at_ ++ [Key k'])%list (getProp k' props))
    as [issues out] eqn:E.
  destruct (parseShape parseField at_ props shape) as [issues' outs].
  simpl in *. intros H.
  assert (Tail : getProp k outs = Some y ->
                 exists t, (((k', t') = (k, t)) \/ In (k, t) shape) /\
                   snd (parseField t (at_ ++ [Key k])%list (getProp k props))
                   = Some y).
  { intros G. destruct (IH G) as (t & Hin & Ht). exists t. tauto. }
  destruct out as [y'|]; [|now apply Tail].
  simpl in H. destruct (String.eqb k' k) eqn:K; [|now apply Tail].
  apply String.eqb_eq in K. subst k'. inversion H; subst y'.
  exists t'. split; [now left|]. now rewrite E.
Qed.

(** What the publisher's schema hands on, when it is an object, has the
    publisher's declared keys only. *)
Lemma publisher_keys (t : ZodType) (at_ : list PathElem) (x : option json)
    (pub : list (string * json)) :
  In ("publisher", t) (shapeOf DocumentExtractionSchema) ->
  snd (parse t at_ x) = Some (JObj pub) ->
  incl (keys pub) publisherKeys.
Proof.
  simpl. intros H.
  repeat (destruct H as [H | H]; [try discriminate H|]); [|destruct H].
  inversion H; subst t; clear H.
  destruct x as [[ | b | q | s | items | props]|]; try discriminate.
  change (parse _ at_ (Some (JObj props)))
    with (parse (ZodObject
                   [("name", ZodNullable (ZodOptional ZodString));
                    ("location", ZodNullable (ZodOptional ZodString))])
            at_ (Some (JObj props))).
  rewrite parse_object. cbn [snd]. intros E.
  apply (f_equal (fun o => match o with Some (JObj p) => p | _ => [] end)) in E.
  cbn beta iota in E. rewrite <- E.
  apply (parseShape_keys parse at_ props).
Qed.

End SchemaFacts.

Section SchemaClaims.
Import Zod Books Remote BookExtractor.

Lemma schema_issues (props : list (string * json)) (issue : ZodIssue) :
  In issue (fst (parse DocumentExtractionSchema [] (Some (JObj props)))) <->
  exists k t,
    In (k, t) (shapeOf DocumentExtractionSchema) /\
    In issue (fst (parse t [Key k] (getProp k props))).
Proof.
  rewrite schema_is_object, parse_object. cbn [fst].
  rewrite parseShape_issues, in_flat_map. split.
  - intros ([k t] & Hin & Hi). now exists k, t.
  - intros (k & t & Hin & Hi). now exists (k, t).
Qed.

Lemma under_key (k k' : string) (more : list PathElem) (issue : ZodIssue) :
  under [Key k] issue -> under (Key k' :: more) issue -> k = k'.
Proof. intros [rest E] [rest' E']. rewrite E in E'. now inversion E'. Qed.

Lemma declared_field (k : string) (t : ZodType) :
  In (k, t) (shapeOf DocumentExtractionSchema) -> In k declaredKeys.
Proof.
  intros H. rewrite <- schema_keys. now apply (in_map fst) in H.
Qed.

Lemma absent_field_no_issue (shape : list (string * ZodType))
    (at_ : list PathElem) (props : list (string * json)) (k : string)
    (issue : ZodIssue) :
  (forall k' t, In (k', t) shape ->
                exists inner, t = ZodNullable (ZodOptional inner)) ->
  getProp k props = None ->
  In issue (fst (parseShape parse at_ props shape)) ->
  ~ under (at_ ++ [Key k]) issue.
Proof.
  intros Hopt Hk Hi U.
  rewrite parseShape_issues, in_flat_map in Hi.
  destruct Hi as ([k' t] & Hin & Hi). cbn [fst snd] in Hi.
  assert (U' := parse_issues_under _ _ _ _ Hi).
  assert (k' = k).
  { destruct U as [rest E], U' as [rest' E'].
    rewrite E, <- !app_assoc in E'. apply app_inv_head in E'.
    now inversion E'. }
  subst k'. destruct (Hopt _ _ Hin) as [inner ->].
  rewrite Hk in Hi. exact Hi.
Qed.

(** C6.  A payload that is an object with none of the declared fields
    passes validation, and the record it yields has every field (title,
    authors, publishedYear, genres, pages, language, publisher) absent.
    More generally a declared field that is not there never accounts for an
    issue, be it a field of the payload or of its publisher. *)
Theorem payload_without_fields_validates (props : list (string * json)) :
  (forall k, In k declaredKeys -> getProp k props = None) ->
  safeParse DocumentExtractionSchema (JObj props) = success (JObj []) /\
  asDocumentExtraction (JObj []) = Spec.absentRecord /\
  (forall (payload : list (string * json)) k issue,
     In k declaredKeys -> getProp k payload = None ->
     In issue (fst (parse DocumentExtractionSchema [] (Some (JObj payload)))) ->
     ~ under [Key k] issue) /\
  (forall (payload pub : list (string * json)) k issue,
     getProp "publisher" payload = Some (JObj pub) ->
     In k publisherKeys -> getProp k pub = None ->
     In issue (fst (parse DocumentExtractionSchema [] (Some (JObj payload)))) ->
     ~ under [Key "publisher"; Key k] issue).
Proof.
  intros H. split; [|split; [reflexivity|split]].
  - unfold safeParse. rewrite schema_is_object, parse_object.
    rewrite parseShape_nothing; [reflexivity|].
    intros k t Hin. destruct (schema_fields_optional k t Hin) as [inner ->].
    rewrite (H k) by exact (declared_field k _ Hin). reflexivity.
  - intros payload k issue _ Hk Hi.
    rewrite schema_is_object, parse_object in Hi. cbn [fst] in Hi.
    exact (absent_field_no_issue _ [] payload k issue
             schema_fields_optional Hk Hi).
  - intros payload pub k issue Hp _ Hk Hi U.
    apply schema_issues in Hi. destruct Hi as (k' & t & Hin & Hi).
    assert (U' := parse_issues_under _ _ _ _ Hi).
    assert (k' = "publisher") by exact (under_key _ _ _ _ U' U).
    subst k'. rewrite Hp in Hi.
    simpl in Hin.
    repeat (destruct Hin as [Hin | Hin]; [try discriminate Hin|]);
      [|destruct Hin].
    inversion Hin; subst t; clear Hin.
    change (parse _ [Key "publisher"] (Some (JObj pub)))
      with (parse (ZodObject
                     [("name", ZodNullable (ZodOptional ZodString));
                      ("location", ZodNullable (ZodOptional ZodString))])
              [Key "publisher"] (Some (JObj pub))) in Hi.
    rewrite parse_object in Hi. cbn [fst] in Hi.
    refine (absent_field_no_issue _ [Key "publisher"] pub k issue _ Hk Hi U).
    intros k' t Hin.
    repeat (destruct Hin as [Hin | Hin];
            [inversion Hin; eexists; reflexivity|]).
    destruct Hin.
Qed.

End SchemaClaims.

Section StrippingClaims.
Import Zod Books.

Lemma publisher_same (t : ZodType) (at_ : list PathElem)
    (x y : option json) :
  In ("publisher", t) (shapeOf DocumentExtractionSchema) ->
  Spec.SamePublisher x y ->
  parse t at_ x = parse t at_ y.
Proof.
  intros Hin [z | a b Hab]; [reflexivity|].
  simpl in Hin.
  repeat (destruct Hin as [Hin | Hin]; [try discriminate Hin|]);
    [|destruct Hin].
  inversion Hin; subst t; clear Hin.
  change (parse ?t at_ (Some (JObj ?p)))
    with (parse (ZodObject
                   [("name", ZodNullable (ZodOptional ZodString));
                    ("location", ZodNullable (ZodOptional ZodString))])
            at_ (Some (JObj p))).
  rewrite !parse_object.
  rewrite (parseShape_ext parse at_ a b); [reflexivity|].
  intros k t Hin. rewrite (Hab k); [reflexivity|].
  apply (in_map fst) in Hin. exact Hin.
Qed.

Lemma parse_same_declared (x y : json) :
  Spec.SameDeclared x y ->
  parse DocumentExtractionSchema [] (Some x) =
  parse DocumentExtractionSchema [] (Some y).
Proof.
  intros [a b Hab Hpub].
  rewrite schema_is_object, !parse_object.
  rewrite (parseShape_ext parse [] a b); [reflexivity|].
  intros k t Hin.
  destruct (string_dec k "publisher") as [-> | Hk].
  - now apply publisher_same.
  - rewrite (Hab k); [reflexivity | | exact Hk].
    now apply (in_map fst) in Hin.
Qed.

(** C10.  When a payload passes validation, the result is an object that
    holds declared keys only (title, authors, publishedYear, genres, pages,
    language, publisher), and its publisher, when it is an object, holds
    only [name] and [location].  Undeclared keys of the payload or of its
    publisher are dropped without an issue: any payload that differs from
    this one in undeclared keys only passes as well, with the same result. *)
Theorem validated_record_has_declared_keys_only (payload data : json) :
  safeParse DocumentExtractionSchema payload = success data ->
  exists props,
    data = JObj props /\
    incl (keys props) declaredKeys /\
    (forall pub, getProp "publisher" props = Some (JObj pub) ->
                 incl (keys pub) publisherKeys) /\
    (forall payload', Spec.SameDeclared payload payload' ->
       safeParse DocumentExtractionSchema payload' = success data) /\
    (forall orig extra v,
       payload = JObj orig -> ~ In extra declaredKeys ->
       safeParse DocumentExtractionSchema (JObj ((extra, v) :: orig))
       = success data).
Proof.
  intros H.
  assert (Same : forall payload', Spec.SameDeclared payload payload' ->
            safeParse DocumentExtractionSchema payload' = success data).
  { intros payload' S. unfold safeParse in *.
    now rewrite <- (parse_same_declared _ _ S). }
  apply safeParse_success in H.
  destruct payload as [ | b | q | s | items | orig]; try discriminate H.
  rewrite schema_is_object, parse_object in H.
  exists (snd (parseShape parse [] orig (shapeOf DocumentExtractionSchema))).
  split; [congruence|].
  split; [rewrite <- schema_keys; apply parseShape_keys|].
  split.
  { intros pub G.
    apply parseShape_getProp in G. destruct G as (t & Hin & Ht).
    exact (publisher_keys t _ _ pub Hin Ht). }
  split; [exact Same|].
  intros orig' extra v E Hextra. inversion E; subst orig'; clear E.
  apply Same. constructor.
  - intros k Hk _. simpl.
    destruct (String.eqb extra k) eqn:K; [|reflexivity].
    apply String.eqb_eq in K. now subst.
  - simpl.
    destruct (String.eqb extra "publisher") eqn:K; [|constructor].
    apply String.eqb_eq in K. subst extra.
    exfalso. apply Hextra. simpl. tauto.
Qed.

End StrippingClaims.

(** ** The extract stage *)

Section ExtractClaims.
Import Zod Books Remote BookExtractor.

Lemma blank_nothingToExtract (content : string) :
  Spec.blank content -> nothingToExtract content = true.
Proof.
  intros B. apply trim_empty in B. unfold nothingToExtract.
  rewrite B. apply orb_true_r.
Qed.

Lemma pages_issue (props : list (string * json)) (q : Q) :
  getProp "pages" props = Some (JNum q) ->
  (q <= 0)%Q ->
  In Spec.pagesNotPositive
     (fst (parse DocumentExtractionSchema [] (Some (JObj props)))).
Proof.
  intros Hp Hq. apply schema_issues.
  exists "pages", (ZodNullable (ZodOptional
                     (ZodNumber [check_int; check_min 0 false]))).
  split; [simpl; tauto|].
  rewrite Hp. simpl. apply in_or_app. right.
  assert (Qle_bool q (inject_Z 0) = true) as -> by now apply Qle_bool_iff.
  now left.
Qed.

(** What a payload that fails validation leaves behind. *)
Lemma handleExtract_invalid (message : ZodIssue -> string) (content : string)
    (payload : list (string * json)) (issues : list ZodIssue) (st : State) :
  nothingToExtract content = false ->
  safeParse DocumentExtractionSchema (JObj payload) = failure issues ->
  handleExtract message (defaultProps content)
    (Ok {| extraction := Some (JObj payload) |}) st =
  ({| isExtracting := false;
      extractedBook := None;
      extractedMarkdown := extractedMarkdown st;
      error := validationMessage message issues |},
   [Fetch (extractRequest (defaultProps content));
    OnExtractionError (validationMessage message issues)]).
Proof.
  intros G F. unfold handleExtract, settle, validated.
  cbn [markdownContent defaultProps schema bodyOrThrow extraction truthyValue].
  now rewrite G, F.
Qed.

(** C5.  A payload whose page count is zero or negative fails validation;
    among the issues is the one of the [pages] field, under the path
    [pages]; and the handler puts all issues into one message, each as
    its field path, a colon, and the violation. *)
Theorem nonpositive_page_count_fails_validation
    (message : ZodIssue -> string) (props : list (string * json)) (q : Q) :
  getProp "pages" props = Some (JNum q) ->
  (q <= 0)%Q ->
  exists issues,
    safeParse DocumentExtractionSchema (JObj props) = failure issues /\
    In Spec.pagesNotPositive issues /\
    path Spec.pagesNotPositive = [Key "pages"] /\
    In ("pages: " ++ message Spec.pagesNotPositive)
       (map (issueText message) issues) /\
    forall content st,
      nothingToExtract content = false ->
      let text :=
        "Schema validation failed: " ++
        join ", "
          (map (fun issue =>
                  join "." (map pathText (path issue)) ++ ": " ++ message issue)
               issues) in
      handleExtract message (defaultProps content)
        (Ok {| extraction := Some (JObj props) |}) st =
      ({| isExtracting := false;
          extractedBook := None;
          extractedMarkdown := extractedMarkdown st;
          error := text |},
       [Fetch (extractRequest (defaultProps content));
        OnExtractionError text]).
Proof.
  intros Hp Hq.
  assert (Hin := pages_issue props q Hp Hq).
  exists (fst (parse DocumentExtractionSchema [] (Some (JObj props)))).
  assert (F : safeParse DocumentExtractionSchema (JObj props) =
              failure (fst (parse DocumentExtractionSchema []
                              (Some (JObj props))))).
  { apply safeParse_failure. intros E. now rewrite E in Hin. }
  split; [exact F|].
  split; [exact Hin|].
  split; [reflexivity|].
  split.
  { change ("pages: " ++ message Spec.pagesNotPositive)
      with (issueText message Spec.pagesNotPositive).
    now apply in_map. }
  intros content st G text.
  now rewrite (handleExtract_invalid message content props _ st G F).
Qed.

(** C4.  An extract request made while the markdown is empty or white
    space only fails at once with the input error
    [No markdown content provided for extraction.], which is stored and
    handed to the error callback; no request is sent, whatever the network
    would answer; and the state of the orchestrator stays as it was: no
    call is in flight that was not (the extracting flag keeps its value,
    and so does the status of the workflow), and the extraction record and
    the markdown it came from are kept.  The message is all that is stored,
    as for the guards of the parse request.  In the rendered component the
    button is disabled under the very condition of the guard, so there a
    click does not reach the handler and changes nothing at all. *)
Theorem blank_markdown_extract_is_refused (message : ZodIssue -> string)
    (props : Props) (settled : Settled ExtractResponse) (st : State) :
  Spec.blank (markdownContent props) ->
  handleExtract message props settled st =
    ({| isExtracting := isExtracting st;
        extractedBook := extractedBook st;
        extractedMarkdown := extractedMarkdown st;
        error := "No markdown content provided for extraction." |},
     [OnExtractionError "No markdown content provided for extraction."]) /\
  (forall request,
     ~ In (Fetch request) (snd (handleExtract message props settled st))) /\
  isExtracting (fst (handleExtract message props settled st))
  = isExtracting st /\
  extractedBook (fst (handleExtract message props settled st))
  = extractedBook st /\
  extractedMarkdown (fst (handleExtract message props settled st))
  = extractedMarkdown st /\
  disabled props st = true /\
  click message props settled st = (st, []) /\
  (forall t,
     Spec.blank (PdfExtractionWorkflow.markdown
                   (PdfExtractionWorkflow.workflow t)) ->
     let t' := fst (PdfExtractionWorkflow.extractMetadata message settled t) in
     PdfExtractionWorkflow.workflow t' = PdfExtractionWorkflow.workflow t /\
     PdfExtractionWorkflow.childBusy t' = PdfExtractionWorkflow.childBusy t /\
     forall request,
       ~ In (Fetch request)
            (snd (PdfExtractionWorkflow.extractMetadata message settled t))).
Proof.
  intros B.
  assert (D : disabled props st = true).
  { unfold disabled. apply trim_empty in B. rewrite B. apply orb_true_r. }
  unfold click. rewrite D. unfold handleExtract.
  rewrite (blank_nothingToExtract _ B). cbn [fst snd isExtracting
    extractedBook extractedMarkdown].
  split; [reflexivity|].
  split; [intros request [H | []]; discriminate H|].
  do 5 (split; [reflexivity|]).
  intros t Bt. unfold PdfExtractionWorkflow.extractMetadata,
    PdfExtractionWorkflow.childBusy.
  destruct (PdfExtractionWorkflow.extractor t) as [e|] eqn:X.
  - unfold handleExtract. cbn [markdownContent defaultProps].
    rewrite (blank_nothingToExtract _ Bt). cbn [fst snd
      PdfExtractionWorkflow.workflow PdfExtractionWorkflow.extractor
      isExtracting].
    split; [reflexivity|]. split; [reflexivity|].
    intros request [H | []]. discriminate H.
  - cbn [fst snd]. rewrite X. split; [reflexivity|]. split; [reflexivity|].
    intros request [].
Qed.

End ExtractClaims.

(** ** Selecting a document *)

Section SelectionClaims.
Import Remote PdfExtractionWorkflow.

(** C8.  In every state of the pipeline, selecting a document clears the
    normalized markdown and the parse error and unmounts the extractor,
    whose extraction record, extracted markdown and error go with it: none
    of the pipeline's earlier output is shown any more.  The status is left
    as it is, and it is idle whenever the file input can be used, so the
    orchestrator is then idle. *)
Theorem selecting_a_document_discards_pipeline_output
    (files : option (list File)) (t : Tree) :
  let t' := selectDocument files t in
  markdown (workflow t') = "" /\
  parseError (workflow t') = "" /\
  extractor t' = None /\
  shown t' = {| markdownPreview := None;
                parseErrorBanner := None;
                extractionResult := None;
                extractionErrorBanner := None |} /\
  selectedFile (workflow t') =
    match files with Some (f :: _) => Some f | _ => None end /\
  status (workflow t') = status (workflow t) /\
  (canSelect t = true -> phase t' = PhaseIdle).
Proof.
  intros t'. repeat (split; [reflexivity|]).
  unfold canSelect, phase, t'; simpl.
  destruct (status (workflow t)); [reflexivity | discriminate].
Qed.

(** The document parsed next starts from a fresh extractor. *)
Lemma parse_after_selection_mounts_fresh_extractor
    (client : LandingAIADE) (files : option (list File))
    (r : ParseResponse) (t : Tree) :
  let t' := parseDocument (Some client) (Ok r) (selectDocument files t) in
  extractor t' = None \/ extractor t' = Some BookExtractor.initialState.
Proof.
  unfold parseDocument, selectDocument, begin, rerender, reconcile; simpl.
  destruct files as [[|f fs]|]; simpl; auto.
  destruct (truthy _); auto.
Qed.

End SelectionClaims.

(** ** The export formatter *)

Section SlugFacts.
Import ExportMarkdown.

Lemma every_impl (f g : ascii -> bool) (s : string) :
  (forall c, f c = true -> g c = true) ->
  every f s = true -> every g s = true.
Proof.
  intros H. induction s as [|c s IH]; simpl; [reflexivity|].
  rewrite !andb_true_iff. intros [Hc Hs]. split; [now apply H | now apply IH].
Qed.

Lemma dropStart_id (cls : ascii -> bool) (s : string) :
  every (fun c => negb (cls c)) s = true -> dropStart cls s = s.
Proof.
  destruct s as [|c s]; simpl; [reflexivity|].
  now destruct (cls c).
Qed.

Lemma dropEnd_id (cls : ascii -> bool) (s : string) :
  every (fun c => negb (cls c)) s = true -> dropEnd cls s = s.
Proof.
  induction s as [|c s IH]; simpl; [reflexivity|].
  rewrite andb_true_iff. intros [Hc Hs]. rewrite (IH Hs).
  destruct s; [|reflexivity]. now destruct (cls c).
Qed.

Lemma removeUnless_every (keep : ascii -> bool) (s : string) :
  every keep (removeUnless keep s) = true.
Proof.
  induction s as [|c s IH]; simpl; [reflexivity|].
  destruct (keep c) eqn:E; simpl; [now rewrite E|exact IH].
Qed.

(** What is left after a replacement is what was outside the class, or
    comes from the replacement text. *)
Lemma replaceRunsFrom_every (P cls : ascii -> bool) (r : string) (s : string) :
  every P r = true ->
  every (fun c => cls c || P c) s = true ->
  forall inRun, every P (replaceRunsFrom inRun cls r s) = true.
Proof.
  intros Hr. induction s as [|c s IH]; simpl; [reflexivity|].
  rewrite andb_true_iff. intros [Hc Hs] inRun.
  destruct (cls c); simpl in *.
  - destruct inRun; [now apply IH|].
    rewrite every_app, Hr. now apply IH.
  - rewrite Hc. now apply IH.
Qed.

Lemma slugLetter_not_space (c : ascii) :
  Spec.slugLetter c = true -> negb (is_space c) = true.
Proof.
  destruct c as [[] [] [] [] [] [] [] []]; vm_compute; congruence.
Qed.

Lemma slug_char_cases (c : ascii) :
  slug_char c = true -> is_space c || Spec.slugLetter c = true.
Proof.
  unfold slug_char, Spec.slugLetter.
  destruct (is_lower c), (is_digit c), (is_space c), (is_hyphen c);
    simpl; congruence.
Qed.

Lemma collapsed_letters (t : string) :
  every Spec.slugLetter (Spec.collapsed t) = true.
Proof.
  unfold Spec.collapsed, replaceRuns.
  apply replaceRunsFrom_every; [reflexivity|].
  apply every_impl with (f := Spec.slugLetter);
    [intros c ->; apply orb_true_r|].
  apply replaceRunsFrom_every; [reflexivity|].
  apply every_impl with (f := slug_char); [exact slug_char_cases|].
  apply removeUnless_every.
Qed.

(** Inside a run nothing is put out, so what follows a run does not start
    with a hyphen, and no two hyphens end up side by side. *)
Lemma collapse_hyphens (s : string) :
  forall inRun,
    Spec.doubledHyphen (replaceRunsFrom inRun is_hyphen "-" s) = false /\
    (inRun = true ->
     Spec.leadingHyphen (replaceRunsFrom inRun is_hyphen "-" s) = false).
Proof.
  induction s as [|c s IH]; intros inRun; simpl; [split; reflexivity|].
  destruct (is_hyphen c) eqn:Hc.
  - destruct inRun; [apply IH|].
    split; [|discriminate].
    destruct (IH true) as [D L]. specialize (L eq_refl).
    simpl. destruct (replaceRunsFrom true is_hyphen "-" s) as [|c' s'];
      [reflexivity|].
    simpl in L. rewrite L. simpl. exact D.
  - destruct (IH false) as [D _]. split.
    + simpl. rewrite Hc. simpl.
      destruct (replaceRunsFrom false is_hyphen "-" s); [reflexivity|exact D].
    + intros _. simpl. exact Hc.
Qed.

Lemma collapsed_single_hyphens (t : string) :
  Spec.doubledHyphen (Spec.collapsed t) = false.
Proof. apply collapse_hyphens. Qed.

(** The final [trim] of [sanitizeFilename] finds no white space to take
    off. *)
Lemma sanitizeFilename_collapsed (t : string) :
  sanitizeFilename t = Spec.collapsed t.
Proof.
  unfold sanitizeFilename. fold (Spec.collapsed t). unfold trim.
  assert (H : every (fun c => negb (is_space c)) (Spec.collapsed t) = true).
  { apply every_impl with (f := Spec.slugLetter);
      [exact slugLetter_not_space | apply collapsed_letters]. }
  now rewrite (dropStart_id _ _ H), (dropEnd_id _ _ H).
Qed.

End SlugFacts.

Section DateFacts.
Import ExportMarkdown.

Lemma range_check (P : Z -> bool) (lo hi : Z) :
  forallb (fun i => P (lo + Z.of_nat i)%Z) (seq 0 (Z.to_nat (hi - lo + 1)))
  = true ->
  forall z, (lo <= z <= hi)%Z -> P z = true.
Proof.
  intros H z Hz. rewrite forallb_forall in H.
  specialize (H (Z.to_nat (z - lo))).
  replace (lo + Z.of_nat (Z.to_nat (z - lo)))%Z with z in H by lia.
  apply H. apply in_seq. lia.
Qed.

Lemma digits_check (n : nat) (s : string) :
  Nat.eqb (String.length s) n && every is_digit s = true -> Spec.digits n s.
Proof.
  rewrite andb_true_iff, Nat.eqb_eq. intros [L D]. now split.
Qed.

Lemma year_digits (y : Z) :
  (1000 <= y <= 9999)%Z -> Spec.digits 4 (ofInt y).
Proof.
  intros H. apply digits_check.
  apply (range_check
           (fun z => Nat.eqb (String.length (ofInt z)) 4
                     && every is_digit (ofInt z)) 1000 9999);
    [vm_compute; reflexivity | lia].
Qed.

Lemma month_digits (m : Z) :
  (0 <= m <= 11)%Z -> Spec.digits 2 (padStart 2 "0" (ofInt (m + 1))).
Proof.
  intros H. apply digits_check.
  apply (range_check
           (fun z => Nat.eqb (String.length (padStart 2 "0" (ofInt (z + 1)))) 2
                     && every is_digit (padStart 2 "0" (ofInt (z + 1)))) 0 11);
    [vm_compute; reflexivity | lia].
Qed.

Lemma day_digits (d : Z) :
  (1 <= d <= 31)%Z -> Spec.digits 2 (padStart 2 "0" (ofInt d)).
Proof.
  intros H. apply digits_check.
  apply (range_check
           (fun z => Nat.eqb (String.length (padStart 2 "0" (ofInt z))) 2
                     && every is_digit (padStart 2 "0" (ofInt z))) 1 31);
    [vm_compute; reflexivity | lia].
Qed.

End DateFacts.

Section FilenameClaims.
Import ExportMarkdown.

Lemma generateFilename_slugOf (now : Date) (data : DocumentExtraction) :
  generateFilename now data =
  formatDate now ++ "-" ++ Spec.slugOf (title data) ++ ".md".
Proof.
  unfold generateFilename, Spec.slugOf, truthyString.
  destruct (title data) as [| |[|c t]]; simpl; try reflexivity.
  now rewrite sanitizeFilename_collapsed.
Qed.

(** The file name as the code builds it.  For every record and every
    current date the file name is the date, a hyphen, the slug and [.md].
    The date is the year, the month and the day with hyphens between them,
    which for a calendar day in a year of four digits reads YYYY-MM-DD.
    The slug is [untitled-document] when there is no title (none, [null] or
    the empty string); otherwise it is the title lower-cased, without the
    characters other than a-z, 0-9, white space and hyphen, with every run
    of white space turned into one hyphen and repeated hyphens collapsed.
    It is made of a-z, 0-9 and single hyphens only. *)
Lemma filename_is_date_hyphen_slug (now : Date) (data : DocumentExtraction) :
  generateFilename now data =
    formatDate now ++ "-" ++ Spec.slugOf (title data) ++ ".md" /\
  (Spec.noTitle (title data) ->
     Spec.slugOf (title data) = "untitled-document") /\
  (forall t, title data = Present t -> t <> "" ->
     Spec.slugOf (title data) = Spec.collapsed t) /\
  every Spec.slugLetter (Spec.slugOf (title data)) = true /\
  Spec.doubledHyphen (Spec.slugOf (title data)) = false /\
  (exists yyyy mm dd,
     formatDate now = yyyy ++ "-" ++ mm ++ "-" ++ dd /\
     (Spec.calendarDate now ->
      Spec.digits 4 yyyy /\ Spec.digits 2 mm /\ Spec.digits 2 dd)) /\
  generateFilename Sample.march7 (Sample.titled "Deep Learning: A Primer!")
  = "2024-03-07-deep-learning-a-primer.md".
Proof.
  split; [apply generateFilename_slugOf|].
  split; [now intros [-> | [-> | ->]]|].
  split; [intros t -> Ht; now destruct t|].
  split.
  { destruct (title data) as [| |[|c t]]; try reflexivity.
    apply collapsed_letters. }
  split.
  { destruct (title data) as [| |[|c t]]; try reflexivity.
    apply collapsed_single_hyphens. }
  split; [|reflexivity].
  exists (ofInt (getFullYear now)),
         (padStart 2 "0" (ofInt (getMonth now + 1))),
         (padStart 2 "0" (ofInt (getDate now))).
  split; [reflexivity|].
  intros (Hy & Hm & Hd).
  split; [now apply year_digits|].
  split; [now apply month_digits | now apply day_digits].
Qed.

(** The class of the regular expression is the one of the specification. *)
Lemma slug_char_keptAsSpecified (c : ascii) :
  slug_char c = Spec.keptAsSpecified c.
Proof. reflexivity. Qed.

Lemma removeUnless_ext (f g : ascii -> bool) (s : string) :
  (forall c, f c = g c) -> removeUnless f s = removeUnless g s.
Proof.
  intros H. induction s as [|c s IH]; simpl; [reflexivity|].
  now rewrite H, IH.
Qed.

(** The slug of the specification is the slug of the code with the hyphens
    at its ends taken off. *)
Lemma slugAsSpecified_trims (t : string) :
  Spec.slugAsSpecified t =
  dropEnd is_hyphen (dropStart is_hyphen (sanitizeFilename t)).
Proof.
  rewrite sanitizeFilename_collapsed.
  unfold Spec.slugAsSpecified, Spec.collapsed.
  exact (f_equal
           (fun s => dropEnd is_hyphen
                       (dropStart is_hyphen
                          (replaceRuns is_hyphen "-"
                             (replaceRuns is_space "-" s))))
           (eq_sym (removeUnless_ext slug_char Spec.keptAsSpecified
                      (toLowerCase t) slug_char_keptAsSpecified))).
Qed.

(** C2.  The file name is the date, a hyphen, the slug of the title or the
    fallback slug, and [.md], and the slug is made as the claim says but
    for its last step: the hyphens at the ends are not trimmed.
    [sanitizeFilename] does end with a trim, but it is the trim of white
    space, called when every run of white space has already become a
    hyphen, so it never takes anything off.  The title made of a space and
    the letter a on 2024-03-07 is named [2024-03-07--a.md] where the claim
    has [2024-03-07-a.md].  Everywhere the slug of the claim is the slug of
    the code without the hyphens at its ends, so the two file names agree
    whenever the slug of the code neither starts nor ends with a hyphen, as
    for the title [Deep Learning: A Primer!]. *)
Theorem filename_keeps_hyphens_at_the_ends :
  generateFilename Sample.march7 (Sample.titled " a") = "2024-03-07--a.md" /\
  Spec.filenameAsSpecified Sample.march7 (Sample.titled " a")
  = "2024-03-07-a.md" /\
  generateFilename Sample.march7 (Sample.titled " a") <>
  Spec.filenameAsSpecified Sample.march7 (Sample.titled " a") /\
  (forall t,
     sanitizeFilename t =
     replaceRuns is_hyphen "-"
       (replaceRuns is_space "-"
          (removeUnless slug_char (toLowerCase t)))) /\
  (forall t,
     Spec.slugAsSpecified t =
     dropEnd is_hyphen (dropStart is_hyphen (sanitizeFilename t))) /\
  (forall now data,
     (forall t, title data = Present t ->
        Spec.slugAsSpecified t = sanitizeFilename t) ->
     generateFilename now data = Spec.filenameAsSpecified now data) /\
  generateFilename Sample.march7 (Sample.titled "Deep Learning: A Primer!")
  = "2024-03-07-deep-learning-a-primer.md" /\
  Spec.filenameAsSpecified Sample.march7
    (Sample.titled "Deep Learning: A Primer!")
  = "2024-03-07-deep-learning-a-primer.md".
Proof.
  split; [reflexivity|]. split; [reflexivity|]. split; [discriminate|].
  split; [exact sanitizeFilename_collapsed|].
  split; [exact slugAsSpecified_trims|].
  split; [|split; reflexivity].
  intros now data H. unfold generateFilename, Spec.filenameAsSpecified,
    truthyString.
  destruct (title data) as [| |[|c t]]; try reflexivity.
  cbn [truthy]. now rewrite (H _ eq_refl).
Qed.

End FilenameClaims.

Section FallbackClaims.
Import ExportMarkdown.

Lemma every_toLowerCase (f : ascii -> bool) (s : string) :
  every f (toLowerCase s) = every (fun c => f (lower_char c)) s.
Proof. induction s as [|c s IH]; simpl; [reflexivity | now rewrite IH]. Qed.

Lemma removeUnless_only (keep Q : ascii -> bool) (s : string) :
  every (fun c => negb (keep c) || Q c) s = true ->
  every Q (removeUnless keep s) = true.
Proof.
  induction s as [|c s IH]; simpl; [reflexivity|].
  rewrite andb_true_iff. intros [Hc Hs].
  destruct (keep c); simpl in *; [rewrite Hc|]; now apply IH.
Qed.

(** Of what is neither a letter a-z nor a digit, only white space and
    hyphens get past the stripping. *)
Lemma stripped_unless_space_or_hyphen (c : ascii) :
  negb (Spec.lowerAlphanumeric c) = true ->
  negb (slug_char c) || (is_space c || is_hyphen c) = true.
Proof.
  unfold slug_char, Spec.lowerAlphanumeric.
  destruct (is_lower c), (is_digit c), (is_space c), (is_hyphen c);
    simpl; congruence.
Qed.

(** Lower-casing makes no letter a-z and no digit out of a character that
    is neither a letter nor a digit. *)
Lemma lowered_symbol (c : ascii) :
  negb (Spec.alphanumeric c) = true ->
  negb (Spec.lowerAlphanumeric (lower_char c)) = true.
Proof.
  destruct c as [[] [] [] [] [] [] [] []]; vm_compute; congruence.
Qed.

Lemma all_hyphens_collapse (s : string) :
  every is_hyphen s = true ->
  replaceRunsFrom true is_hyphen "-" s = "" /\
  (replaceRunsFrom false is_hyphen "-" s = "" \/
   replaceRunsFrom false is_hyphen "-" s = "-").
Proof.
  induction s as [|c s IH]; simpl; [auto|].
  rewrite andb_true_iff. intros [Hc Hs]. rewrite Hc.
  destruct (IH Hs) as [-> _]. auto.
Qed.

(** A title that, lower-cased, has no letter a-z and no digit leaves
    nothing, or one hyphen. *)
Lemma sanitizeFilename_without_alphanumerics (t : string) :
  every (fun c => negb (Spec.lowerAlphanumeric c)) (toLowerCase t) = true ->
  sanitizeFilename t = "" \/ sanitizeFilename t = "-".
Proof.
  intros H. rewrite sanitizeFilename_collapsed.
  unfold Spec.collapsed, replaceRuns.
  apply all_hyphens_collapse.
  apply replaceRunsFrom_every; [reflexivity|].
  apply removeUnless_only.
  revert H. apply every_impl. exact stripped_unless_space_or_hyphen.
Qed.

(** A title without a letter or a digit has none once lower-cased. *)
Lemma symbols_stay_symbols (t : string) :
  every (fun c => negb (Spec.alphanumeric c)) t = true ->
  every (fun c => negb (Spec.lowerAlphanumeric c)) (toLowerCase t) = true.
Proof.
  rewrite every_toLowerCase. apply every_impl. exact lowered_symbol.
Qed.

Lemma append_inv_head (s a b : string) : s ++ a = s ++ b -> a = b.
Proof.
  induction s as [|c s IH]; simpl; [trivial|].
  intros H. apply IH. now inversion H.
Qed.

(** C9.  The fallback slug is used when the title is not there, is [null]
    or is the empty string, and only then: any other title goes through
    [sanitizeFilename].  A non-empty title that has no alphanumeric
    character gives a slug that is empty or a single hyphen, and so a file
    name such as the date followed by [-.md], not the fallback; [???] is
    one.  The test the code makes is on the lower-cased title, which is to
    have no letter a-z and no digit; a title without any letter, accented
    ones included, and without a digit passes it. *)
Theorem fallback_slug_only_without_title (now : Date)
    (data : DocumentExtraction) :
  (Spec.noTitle (title data) ->
     generateFilename now data = formatDate now ++ "-untitled-document.md") /\
  (forall t, title data = Present t -> t <> "" ->
     generateFilename now data =
       formatDate now ++ "-" ++ sanitizeFilename t ++ ".md" /\
     (every (fun c => negb (Spec.lowerAlphanumeric c)) (toLowerCase t) = true ->
        (sanitizeFilename t = "" \/ sanitizeFilename t = "-") /\
        generateFilename now data <>
          formatDate now ++ "-untitled-document.md") /\
     (every (fun c => negb (Spec.alphanumeric c)) t = true ->
        every (fun c => negb (Spec.lowerAlphanumeric c)) (toLowerCase t)
        = true)) /\
  generateFilename now (Sample.titled "???") = formatDate now ++ "-.md".
Proof.
  split; [now intros [E | [E | E]]; unfold generateFilename; rewrite E|].
  split; [|reflexivity].
  intros t E Ht.
  assert (G : generateFilename now data =
              formatDate now ++ "-" ++ sanitizeFilename t ++ ".md").
  { unfold generateFilename. rewrite E. now destruct t. }
  split; [exact G|]. split; [|apply symbols_stay_symbols].
  intros A. pose proof (sanitizeFilename_without_alphanumerics t A) as S.
  split; [exact S|].
  rewrite G. intros F. apply append_inv_head in F.
  destruct S as [S | S]; rewrite S in F; discriminate F.
Qed.

End FallbackClaims.

Section ArtifactClaims.
Import ExportMarkdown.

Lemma pushIf_worded (x : optional string) (line : string -> string) :
  pushIf (truthyString x) line = Spec.present (option_map line (Spec.worded x)).
Proof. now destruct x as [| |[|c s]]. Qed.

Lemma pushIf_listed (label : string) (x : optional (list string)) :
  pushIf (nonEmptyList x) (fun l => label ++ join ", " l ++ nl)
  = Spec.present (Spec.listed label x).
Proof. now destruct x as [| |[|a l]]. Qed.

Lemma pushIf_numbered (label : string) (x : optional Z) :
  pushIf (truthyNumber x) (fun n => label ++ ofInt n ++ nl)
  = Spec.present (Spec.numbered label x).
Proof.
  destruct x as [| |n]; try reflexivity. simpl.
  destruct (Z.eqb_spec n 0) as [E | E], (Z.eq_dec n 0); try reflexivity;
    contradiction.
Qed.

Lemma publisherSection_line (data : DocumentExtraction) :
  publisherSection (publisher data)
  = Spec.present (Spec.fieldLine data Spec.PublisherField).
Proof.
  simpl. destruct (publisher data) as [| |p]; try reflexivity.
  unfold publisherSection, publisherParts.
  destruct (name p) as [| |[|c s]], (location p) as [| |[|c' s']];
    try reflexivity;
    simpl; repeat (rewrite string_app_assoc; simpl); reflexivity.
Qed.

Lemma nonBlank_documentSection (fullMarkdown : option string) :
  match nonBlank fullMarkdown with
  | Some full => [separator; "## Document Content" ++ nl; full]
  | None => []
  end = Spec.documentSection fullMarkdown.
Proof.
  destruct fullMarkdown as [s|]; [|reflexivity]. simpl.
  destruct (every is_space s) eqn:E.
  - apply trim_empty in E. rewrite E. simpl. now rewrite andb_false_r.
  - assert (T : trim s <> "") by (intros T; apply trim_empty in T; congruence).
    destruct s as [|c s]; [discriminate E|].
    destruct (trim (String c s)); [contradiction | reflexivity].
Qed.

(** The sections of the artifact: the heading, the metadata block with the
    line of each present field in the fixed order, the separator with the
    time stamp, and the document text. *)
Lemma markdownSections_in_order (localeNow : string)
    (data : DocumentExtraction) (fullMarkdown : option string) :
  markdownSections localeNow data fullMarkdown =
  List.concat
    [ Spec.present (option_map (fun t => "# " ++ t ++ nl)
                      (Spec.worded (title data)));
      ["## Metadata" ++ nl];
      flat_map (fun f => Spec.present (Spec.fieldLine data f)) Spec.fieldOrder;
      [ nl ++ "---" ++ nl;
        "*Extracted on: " ++ localeNow ++ "*" ++ nl;
        "*Extraction method: ADE PDF Parse & Extract*" ++ nl ];
      Spec.documentSection fullMarkdown ].
Proof.
  unfold markdownSections.
  rewrite pushIf_worded, !pushIf_listed, !pushIf_numbered, pushIf_worded,
    publisherSection_line, nonBlank_documentSection.
  unfold separator.
  cbn [List.concat flat_map Spec.fieldOrder Spec.fieldLine].
  rewrite !app_nil_r, <- !app_assoc. reflexivity.
Qed.

(** C7.  The artifact of a record that has a title and authors and nothing
    else is made of the title heading, the metadata heading, the authors
    line, the separator, the time stamp line and the line of the extraction
    method, followed by the document text section when a text that is not
    blank was supplied, and only then; there is no publisher line and no
    genres line.  For every record the lines of the present fields come in
    the order authors, year, pages, language, publisher, genres. *)
Theorem artifact_of_title_and_authors (localeNow : string)
    (data : DocumentExtraction) (fullMarkdown : option string)
    (t : string) (l : list string) :
  Spec.OnlyTitleAndAuthors data t l ->
  let sections :=
    List.app
      [ "# " ++ t ++ nl;
        "## Metadata" ++ nl;
        "**Authors:** " ++ join ", " l ++ nl;
        nl ++ "---" ++ nl;
        "*Extracted on: " ++ localeNow ++ "*" ++ nl;
        "*Extraction method: ADE PDF Parse & Extract*" ++ nl ]
      (Spec.documentSection fullMarkdown) in
  markdownSections localeNow data fullMarkdown = sections /\
  generateMarkdownContent localeNow data fullMarkdown = join nl sections /\
  Spec.fieldLine data Spec.PublisherField = None /\
  Spec.fieldLine data Spec.Genres = None /\
  (Spec.documentSection fullMarkdown <> [] <->
   exists full, fullMarkdown = Some full /\ ~ Spec.blank full) /\
  (forall data' fullMarkdown',
     markdownSections localeNow data' fullMarkdown' =
     List.concat
       [ Spec.present (option_map (fun t => "# " ++ t ++ nl)
                         (Spec.worded (title data')));
         ["## Metadata" ++ nl];
         flat_map (fun f => Spec.present (Spec.fieldLine data' f))
           Spec.fieldOrder;
         [ nl ++ "---" ++ nl;
           "*Extracted on: " ++ localeNow ++ "*" ++ nl;
           "*Extraction method: ADE PDF Parse & Extract*" ++ nl ];
         Spec.documentSection fullMarkdown' ]).
Proof.
  intros (Ht & Hne & Ha & Hl & Hy & Hg & Hp & Hlang & Hpub) sections.
  assert (S : markdownSections localeNow data fullMarkdown = sections).
  { rewrite markdownSections_in_order.
    cbn [flat_map Spec.fieldOrder Spec.fieldLine].
    rewrite Ht, Ha.
    destruct Hy as [-> | ->], Hg as [-> | ->], Hp as [-> | ->],
      Hlang as [-> | ->], Hpub as [-> | ->];
      destruct t as [|c t]; try contradiction;
      destruct l as [|a l]; try contradiction; unfold sections;
        cbn [List.concat]; rewrite !app_nil_r; reflexivity. }
  split; [exact S|].
  split; [unfold generateMarkdownContent; now rewrite S|].
  split; [simpl; now destruct Hpub as [-> | ->]|].
  split; [simpl; now destruct Hg as [-> | ->]|].
  split; [|intros; apply markdownSections_in_order].
  unfold Spec.documentSection, Spec.blank.
  destruct fullMarkdown as [s|].
  - destruct (every is_space s) eqn:E; split.
    + intros H. now contradiction H.
    + intros (full & F & B). inversion F; subst. congruence.
    + intros _. exists s. split; [reflexivity | congruence].
    + discriminate.
  - split; [intros H; now contradiction H|].
    intros (full & F & _). discriminate F.
Qed.

End ArtifactClaims.

(** ** The theorems at sample inputs *)

Section Witnesses.
Import Remote.

(** One run of the pipeline: select, parse, extract, export. *)
Example pipeline_run :
  let t1 := PdfExtractionWorkflow.parseDocument
              (Some PdfExtractionWorkflow.AdeClient) (Ok Sample.parsed)
              Sample.ready in
  let t2 := fst (PdfExtractionWorkflow.extractMetadata Sample.wording
                   (Ok Sample.extracted) t1) in
  PdfExtractionWorkflow.markdown (PdfExtractionWorkflow.workflow t1)
  = "# Notes" ++ nl ++ nl ++ "By Acme." /\
  PdfExtractionWorkflow.phase t2 = PdfExtractionWorkflow.PhaseIdle /\
  PdfExtractionWorkflow.extractionResult (PdfExtractionWorkflow.shown t2)
  = Some (JObj [("title", JStr "Notes");
                ("publisher", JObj [("name", JStr "Acme")])]) /\
  option_map fst
    (match PdfExtractionWorkflow.extractor t2 with
     | Some e => BookExtractor.exported Sample.march7 "3/7/2024" e
     | None => None
     end)
  = Some "2024-03-07-notes.md".
Proof. repeat split. Qed.

(** A parse that the service answers with a non-success status. *)
Lemma failed_parse_witness :
  let t := PdfExtractionWorkflow.parseDocument
             (Some PdfExtractionWorkflow.AdeClient) (NotOk "Unauthorized")
             Sample.ready in
  PdfExtractionWorkflow.selectedFile
    (PdfExtractionWorkflow.workflow Sample.ready) = Some Sample.slides /\
  Spec.ParseFailure (NotOk "Unauthorized") /\
  PdfExtractionWorkflow.parseError (PdfExtractionWorkflow.workflow t)
  = "Parse request failed: Unauthorized" /\
  PdfExtractionWorkflow.phase t = PdfExtractionWorkflow.PhaseError.
Proof.
  intros t.
  pose proof (failed_parse_goes_from_parsing_to_error
                PdfExtractionWorkflow.AdeClient Sample.slides
                (NotOk "Unauthorized") Sample.ready eq_refl
                (Spec.bad_status "Unauthorized")) as H.
  destruct H as (_ & _ & _ & _ & _ & _ & H & _).
  split; [reflexivity|]. split; [apply Spec.bad_status|].
  exact (H "Unauthorized" eq_refl).
Defined.

(** An extract request on markdown made of spaces. *)
Lemma blank_markdown_extract_witness :
  Spec.blank "   " /\
  BookExtractor.handleExtract Sample.wording (BookExtractor.defaultProps "   ")
    (Rejected OtherThrown) BookExtractor.initialState
  = ({| BookExtractor.isExtracting := false;
        BookExtractor.extractedBook := None;
        BookExtractor.extractedMarkdown := "";
        BookExtractor.error := "No markdown content provided for extraction." |},
     [BookExtractor.OnExtractionError
        "No markdown content provided for extraction."]).
Proof.
  split; [reflexivity|].
  exact (proj1 (blank_markdown_extract_is_refused Sample.wording
                  (BookExtractor.defaultProps "   ") (Rejected OtherThrown)
                  BookExtractor.initialState eq_refl)).
Defined.

(** A payload with a page count of zero. *)
Lemma nonpositive_page_count_witness :
  getProp "pages" Sample.zeroPages = Some (JNum 0) /\
  (0 <= 0)%Q /\
  exists issues,
    Zod.safeParse Books.DocumentExtractionSchema (JObj Sample.zeroPages)
    = Zod.failure issues /\
    In Spec.pagesNotPositive issues.
Proof.
  assert (Q0 : (0 <= 0)%Q) by apply Qle_refl.
  split; [reflexivity|]. split; [exact Q0|].
  destruct (nonpositive_page_count_fails_validation Sample.wording
              Sample.zeroPages 0%Q eq_refl Q0) as (issues & F & I & _).
  now exists issues.
Defined.

(** A payload that only has an undeclared key. *)
Lemma payload_without_fields_witness :
  (forall k, In k Books.declaredKeys ->
             getProp k [("isbn", JStr "n/a")] = None) /\
  Zod.safeParse Books.DocumentExtractionSchema (JObj [("isbn", JStr "n/a")])
  = Zod.success (JObj []).
Proof.
  assert (H : forall k, In k Books.declaredKeys ->
                        getProp k [("isbn", JStr "n/a")] = None).
  { intros k Hk. simpl in Hk.
    repeat (destruct Hk as [<- | Hk]; [reflexivity|]). destruct Hk. }
  split; [exact H|].
  exact (proj1 (payload_without_fields_validates _ H)).
Defined.

(** A record with a title and two authors. *)
Lemma artifact_of_title_and_authors_witness :
  Spec.OnlyTitleAndAuthors Sample.primer "Deep Learning: A Primer!"
    ["Ada Lovelace"; "Alan Turing"] /\
  ExportMarkdown.markdownSections "3/7/2024, 10:15:00 AM" Sample.primer None
  = [ "# Deep Learning: A Primer!" ++ nl;
      "## Metadata" ++ nl;
      "**Authors:** Ada Lovelace, Alan Turing" ++ nl;
      nl ++ "---" ++ nl;
      "*Extracted on: 3/7/2024, 10:15:00 AM*" ++ nl;
      "*Extraction method: ADE PDF Parse & Extract*" ++ nl ].
Proof.
  assert (H : Spec.OnlyTitleAndAuthors Sample.primer
                "Deep Learning: A Primer!" ["Ada Lovelace"; "Alan Turing"]).
  { unfold Spec.OnlyTitleAndAuthors, Spec.absent; simpl.
    repeat split; try discriminate; auto. }
  split; [exact H|].
  exact (proj1 (artifact_of_title_and_authors "3/7/2024, 10:15:00 AM"
                  Sample.primer None _ _ H)).
Defined.

(** A payload with undeclared keys, in itself and in its publisher. *)
Lemma validated_record_witness :
  let data := JObj [("title", JStr "Notes");
                    ("publisher", JObj [("name", JStr "Acme")])] in
  Zod.safeParse Books.DocumentExtractionSchema Sample.withExtras
  = Zod.success data /\
  exists props, data = JObj props /\ incl (keys props) Books.declaredKeys.
Proof.
  intros data.
  assert (H : Zod.safeParse Books.DocumentExtractionSchema Sample.withExtras
              = Zod.success data) by reflexivity.
  split; [exact H|].
  destruct (validated_record_has_declared_keys_only _ _ H)
    as (props & E & I & _).
  now exists props.
Defined.

End Witnesses.

(** * Further properties of the pipeline *)

(** ** The parse handler *)

Section ParseBehaviour.
Import Remote PdfExtractionWorkflow.

(** X1.  A parse request goes out exactly when there is a client and a selected
    document, and it carries that document and the model [dpt-2];
    otherwise the handler only sets the error message that names what is
    missing, the client first. *)
Theorem parse_request_needs_client_and_document
    (client : option LandingAIADE) (settled : Settled ParseResponse)
    (st : State) :
  (forall request,
     snd (handleParsePdf client settled st) = Some request <->
     exists c file,
       client = Some c /\ selectedFile st = Some file /\
       request = PostParse file "dpt-2") /\
  (client = None ->
     handleParsePdf client settled st =
     ({| selectedFile := selectedFile st;
         status := status st;
         markdown := markdown st;
         parseError :=
           "ADE client is not ready yet. Please wait a moment and retry." |},
      None)) /\
  (client <> None -> selectedFile st = None ->
     handleParsePdf client settled st =
     ({| selectedFile := None;
         status := status st;
         markdown := markdown st;
         parseError :=
           "Please choose a document (PDF or PPTX) before parsing." |},
      None)).
Proof.
  unfold handleParsePdf, begin, withParseError.
  destruct client as [c|]; [destruct (selectedFile st) as [file|] eqn:F|];
    simpl.
  - split; [|split; [discriminate | discriminate]].
    intros request. split.
    + intros H. inversion H. now exists c, file.
    + now intros (c' & file' & _ & Hf & ->); inversion Hf.
  - split; [|split; [discriminate | reflexivity]].
    intros request. split; [discriminate|].
    intros (c' & file' & _ & Hf & _). discriminate Hf.
  - split; [|split; [reflexivity | intros H; now contradiction H]].
    intros request. split; [discriminate|].
    intros (c' & file' & Hc & _). discriminate Hc.
Qed.

Lemma nonblank_fragment_nonblank_markdown (r : ParseResponse) :
  (exists cs c, chunks r = Some cs /\ In c cs /\
                ~ Spec.blank (Spec.textOrEmpty c)) ->
  ~ Spec.blank (parsedMarkdown r).
Proof.
  intros (cs & c & Hcs & Hin & Hc) B.
  unfold parsedMarkdown in B. rewrite Hcs in B.
  apply every_join_survivors in B.
  - assert (Hk : In (chunkText c) (filter hasText (map chunkText cs))).
    { apply filter_In. split; [now apply in_map|].
      rewrite chunkText_textOrEmpty. now apply hasText_true. }
    rewrite B in Hk. destruct Hk.
  - apply Forall_forall. intros s Hs. apply filter_In in Hs.
    now apply hasText_true.
Qed.

Lemma normalized_text (r : ParseResponse) :
  ~ Spec.blank (parsedMarkdown r) ->
  normalized (Ok r) = inr (parsedMarkdown r) /\
  truthy (parsedMarkdown r) = true.
Proof.
  intros B. unfold normalized; simpl.
  assert (T : trim (parsedMarkdown r) <> "")
    by (intros T; now apply trim_empty in T).
  split.
  - destruct (trim (parsedMarkdown r)); [contradiction | reflexivity].
  - destruct (parsedMarkdown r); [now contradiction B | reflexivity].
Qed.

(** X2.  A parse whose answer has a fragment with text ends with the normalized
    markdown on display: the status is idle, there is no error, the
    markdown is not blank, and an extractor in its initial state is
    mounted for it. *)
Theorem parse_with_text_shows_markdown (client : LandingAIADE) (file : File)
    (r : ParseResponse) (t : Tree) :
  selectedFile (workflow t) = Some file ->
  (exists cs c, chunks r = Some cs /\ In c cs /\
                ~ Spec.blank (Spec.textOrEmpty c)) ->
  let t' := parseDocument (Some client) (Ok r) t in
  workflow t' = {| selectedFile := Some file;
                   status := idle;
                   markdown := parsedMarkdown r;
                   parseError := "" |} /\
  ~ Spec.blank (parsedMarkdown r) /\
  extractor t' = Some BookExtractor.initialState /\
  phase t' = PhaseIdle.
Proof.
  intros F H t'.
  assert (B := nonblank_fragment_nonblank_markdown r H).
  destruct (normalized_text r B) as [N T].
  assert (E : t' = {| workflow := {| selectedFile := Some file;
                                     status := idle;
                                     markdown := parsedMarkdown r;
                                     parseError := "" |};
                      extractor := Some BookExtractor.initialState |}).
  { unfold t', parseDocument, begin, settle. rewrite F, N. simpl.
    unfold rerender, reconcile; simpl. now rewrite T, F. }
  rewrite E. repeat split; assumption.
Qed.

End ParseBehaviour.

(** ** The extract handler *)

Section ExtractBehaviour.
Import Zod Books Remote BookExtractor.

Lemma handleExtract_runs (message : ZodIssue -> string) (props : Props)
    (settled : Settled ExtractResponse) (st : State) :
  nothingToExtract (markdownContent props) = false ->
  handleExtract message props settled st =
  match validated message props settled with
  | inr data =>
      ({| isExtracting := false;
          extractedBook := Some data;
          extractedMarkdown := markdownContent props;
          error := "" |},
       [Fetch (extractRequest props); OnExtractionSuccess data])
  | inl err =>
      ({| isExtracting := false;
          extractedBook := None;
          extractedMarkdown := extractedMarkdown st;
          error := errorMessageOf message err |},
       [Fetch (extractRequest props);
        OnExtractionError (errorMessageOf message err)])
  end.
Proof.
  intros G. unfold handleExtract, settle. rewrite G.
  now destruct (validated message props settled).
Qed.

(** What passes the [try] block passed validation. *)
Lemma validated_data (message : ZodIssue -> string) (props : Props)
    (settled : Settled ExtractResponse) (data : json) :
  validated message props settled = inr data ->
  exists payload,
    settled = Ok {| extraction := Some payload |} /\
    safeParse (schema props) payload = success data.
Proof.
  unfold validated, bodyOrThrow.
  destruct settled as [e | text | [[payload|]]];
    cbn [extraction]; try discriminate.
  destruct (truthyValue (Some payload)); [|discriminate].
  destruct (safeParse (schema props) payload) eqn:S; [|discriminate].
  intros H. inversion H; subst. now exists payload.
Qed.

(** X3.  Every extraction that is attempted sends one request and ends in one
    of two ways.  Either a record is stored, which then is the validated
    payload of a successful answer, the error is cleared, the markdown the
    record came from is kept beside it and the success callback is called;
    or no record is left, not even an earlier one, the error message is set
    and the error callback is called.  In both the extracting flag is down
    again. *)
Theorem extraction_ends_with_record_or_error (message : ZodIssue -> string)
    (props : Props) (settled : Settled ExtractResponse) (st : State) :
  nothingToExtract (markdownContent props) = false ->
  let st' := fst (handleExtract message props settled st) in
  let effects := snd (handleExtract message props settled st) in
  isExtracting st' = false /\
  ((exists payload data,
      settled = Ok {| extraction := Some payload |} /\
      safeParse (schema props) payload = success data /\
      extractedBook st' = Some data /\
      extractedMarkdown st' = markdownContent props /\
      error st' = "" /\
      effects = [Fetch (extractRequest props); OnExtractionSuccess data])
   \/
   (exists text,
      extractedBook st' = None /\
      extractedMarkdown st' = extractedMarkdown st /\
      error st' = text /\
      effects = [Fetch (extractRequest props); OnExtractionError text])).
Proof.
  intros G st' effects. unfold st', effects.
  rewrite (handleExtract_runs message props settled st G).
  destruct (validated message props settled) as [err | data] eqn:V; simpl.
  - split; [reflexivity|]. right. now eexists.
  - split; [reflexivity|]. left.
    destruct (validated_data _ _ _ _ V) as (payload & -> & S).
    now exists payload, data.
Qed.

(** X4.  The messages of a failed extraction: a non-success status surfaces the
    upstream body; an answer whose [extraction] is missing, [null],
    [false], zero or the empty string is reported as an empty result,
    whatever the schema; a rejected call surfaces the message of its error,
    or a fixed text when what was thrown is no [Error]. *)
Theorem extraction_failure_messages (message : ZodIssue -> string)
    (props : Props) (st : State) :
  nothingToExtract (markdownContent props) = false ->
  let errorAfter settled :=
    error (fst (handleExtract message props settled st)) in
  (forall text,
     errorAfter (NotOk text) = "Extract request failed: " ++ text) /\
  (forall x, truthyValue x = false ->
     errorAfter (Ok {| extraction := x |})
     = "ADE returned an empty extraction result.") /\
  (forall m, errorAfter (Rejected (ErrorThrown m)) = m) /\
  errorAfter (Rejected OtherThrown)
  = "An unknown error occurred during extraction.".
Proof.
  intros G errorAfter. unfold errorAfter.
  repeat split; intros;
    rewrite (handleExtract_runs message props _ st G); try reflexivity.
  unfold validated, bodyOrThrow; cbn [extraction].
  destruct x as [payload|]; [|reflexivity].
  now rewrite H.
Qed.

End ExtractBehaviour.

(** ** The workflow between events *)

Section SessionBehaviour.
Import Remote PdfExtractionWorkflow Session.

(** The handler of the extractor is what it does before the call followed
    by what it does when the call has settled. *)
Lemma handleExtract_begin_settle (message : Zod.ZodIssue -> string)
    (props : BookExtractor.Props) (settled : Settled ExtractResponse)
    (e : BookExtractor.State) :
  BookExtractor.handleExtract message props settled e =
  match beginExtract props e with
  | (e', Some request) =>
      let '(e'', effects) :=
        BookExtractor.settle message props settled e' in
      (e'', BookExtractor.Fetch request :: effects)
  | (e', None) =>
      (e', [BookExtractor.OnExtractionError BookExtractor.noContentMessage])
  end.
Proof.
  unfold BookExtractor.handleExtract, beginExtract.
  now destruct (BookExtractor.nothingToExtract _).
Qed.

Lemma truthy_nonempty (s : string) : truthy s = true <-> s <> "".
Proof. destruct s; simpl; split; congruence. Qed.

Lemma normalized_inr (settled : Settled ParseResponse) (text : string) :
  normalized settled = inr text -> ~ Spec.blank text /\ truthy text = true.
Proof.
  unfold normalized, bodyOrThrow.
  destruct settled as [e | body | r]; try discriminate.
  destruct (truthy (trim (parsedMarkdown r))) eqn:T; simpl; [|discriminate].
  intros H. inversion H; subst text; clear H.
  assert (B : ~ Spec.blank (parsedMarkdown r)).
  { intros B. apply trim_empty in B. rewrite B in T. discriminate T. }
  split; [exact B|].
  destruct (parsedMarkdown r); [now contradiction B | reflexivity].
Qed.

(** An enabled extract button has something to extract. *)
Lemma enabled_content (props : BookExtractor.Props)
    (e : BookExtractor.State) :
  BookExtractor.disabled props e = false ->
  BookExtractor.isExtracting e = false /\
  BookExtractor.nothingToExtract (BookExtractor.markdownContent props)
  = false.
Proof.
  unfold BookExtractor.disabled, BookExtractor.nothingToExtract.
  rewrite orb_false_iff, negb_false_iff. intros [X T].
  split; [exact X|].
  destruct (BookExtractor.markdownContent props) as [|c s];
    [discriminate T|]. simpl.
  destruct (trim (String c s)); [discriminate T | reflexivity].
Qed.

Lemma consistent_initial : Consistent initial.
Proof.
  split; simpl; try tauto; try discriminate.
Qed.

(** After a render without markdown no extractor is mounted. *)
Lemma consistent_cleared (st : State) (s : Running) (n : nat) :
  markdown st = "" ->
  (n = 0 /\ status st = idle) \/ (n = 1 /\ status st = parsing) ->
  Consistent {| tree := rerender st (tree s);
                parseCalls := n;
                extractCalls :=
                  carried (rerender st (tree s)) (extractCalls s) |}.
Proof.
  intros M P. unfold carried, rerender, reconcile. rewrite M. simpl.
  split; simpl; try tauto; try discriminate.
Qed.

(** A render that leaves status and markdown as they are keeps the
    extractor and its calls. *)
Lemma consistent_same_markdown (st : State) (s : Running) :
  Consistent s ->
  status st = status (workflow (tree s)) ->
  markdown st = markdown (workflow (tree s)) ->
  Consistent (render st s).
Proof.
  intros C S M.
  assert (E : reconcile (extractor (tree s)) st = extractor (tree s)).
  { unfold reconcile. rewrite M.
    destruct (markdown (workflow (tree s))) as [|c m] eqn:Md; simpl.
    - symmetry. now apply (mounted_with_markdown s C).
    - destruct (extractor (tree s)) as [e|] eqn:X; [reflexivity|].
      apply (mounted_with_markdown s C) in X. congruence. }
  assert (K : carried (rerender st (tree s)) (extractCalls s)
              = extractCalls s).
  { unfold carried, rerender. cbn [extractor]. rewrite E.
    destruct (extractor (tree s)) eqn:X; [reflexivity|].
    symmetry. now apply (unmounted_has_no_call s C). }
  unfold render. cbv zeta. rewrite K. unfold rerender. rewrite E.
  split; cbn [tree parseCalls extractCalls workflow extractor];
    rewrite ?S, ?M.
  - apply (parse_in_flight s C).
  - apply (mounted_with_markdown s C).
  - apply (markdown_has_text s C).
  - apply (unmounted_has_no_call s C).
  - apply (extractor_fits s C).
Qed.

(** While the status is idle no parse call is in flight. *)
Lemma idle_without_parse_call (s : Running) :
  Consistent s -> canSelect (tree s) = true ->
  parseCalls s = 0 /\ status (workflow (tree s)) = idle.
Proof.
  intros C I. unfold canSelect in I.
  destruct (parse_in_flight s C) as [P | (_ & P & _)]; [exact P|].
  rewrite P in I. discriminate I.
Qed.

Lemma consistent_select (files : option (list File)) (s : Running) :
  Consistent s -> Consistent (step (SelectDocument files) s).
Proof.
  intros C. simpl. destruct (canSelect (tree s)) eqn:I; [|exact C].
  destruct (idle_without_parse_call s C I) as [N S].
  unfold render. cbv zeta. rewrite N.
  apply consistent_cleared; [reflexivity|]. left. split; [reflexivity|].
  exact S.
Qed.

Lemma consistent_click_parse (client : option LandingAIADE) (s : Running) :
  Consistent s -> Consistent (step (ClickParse client) s).
Proof.
  intros C. simpl. destruct (canSelect (tree s)) eqn:I; [|exact C].
  destruct (idle_without_parse_call s C I) as [N S].
  unfold begin.
  destruct client as [c|];
    [destruct (selectedFile (workflow (tree s))) as [file|] eqn:F|].
  - unfold render. cbv zeta. cbn [tree parseCalls extractCalls]. rewrite N.
    apply consistent_cleared; [reflexivity|]. right. now split.
  - now apply consistent_same_markdown.
  - now apply consistent_same_markdown.
Qed.

Lemma consistent_parse_settles (settled : Settled ParseResponse)
    (s : Running) :
  Consistent s -> Consistent (step (ParseSettles settled) s).
Proof.
  intros C. simpl. destruct (parseCalls s) as [|n] eqn:N; [exact C|].
  destruct (parse_in_flight s C) as [[Z _] | (O & S & M)]; [congruence|].
  assert (n = 0) by congruence. subst n.
  assert (X : extractor (tree s) = None)
    by now apply (mounted_with_markdown s C).
  assert (K : extractCalls s = []) by now apply (unmounted_has_no_call s C).
  unfold render. cbv zeta. cbn [tree parseCalls extractCalls].
  unfold settle.
  destruct (normalized settled) as [err | text] eqn:Nm; simpl tryCatch.
  - apply consistent_cleared; [exact M|]. left. now split.
  - destruct (normalized_inr _ _ Nm) as [B T].
    unfold carried, rerender, reconcile.
    cbn [workflow extractor markdown]. rewrite T, X, K.
    split; cbn [tree parseCalls extractCalls workflow extractor markdown
                status].
    + left. now split.
    + split; [discriminate|]. intros E. rewrite E in T. discriminate T.
    + now intros _.
    + discriminate.
    + intros e H. inversion H; subst e.
      apply fits_quiet; [reflexivity|]. intros Y. now contradiction Y.
Qed.

Lemma consistent_click_extract (s : Running) :
  Consistent s -> Consistent (step ClickExtract s).
Proof.
  intros C. simpl. destruct (extractor (tree s)) as [e|] eqn:X; [|exact C].
  destruct (BookExtractor.disabled _ e) eqn:D; [exact C|].
  destruct (enabled_content _ _ D) as [Q G].
  unfold beginExtract. rewrite G.
  pose proof (extractor_fits s C e X) as Fit.
  destruct Fit as [_ _ | Busy _ _]; [|congruence].
  assert (Mounted : markdown (workflow (tree s)) <> "").
  { intros M. apply (mounted_with_markdown s C) in M. congruence. }
  split; cbn [tree parseCalls extractCalls withExtractor workflow extractor].
  - apply (parse_in_flight s C).
  - split; [discriminate | intros M; now contradiction Mounted].
  - apply (markdown_has_text s C).
  - discriminate.
  - intros e' H. inversion H; subst e'. now apply fits_extracting.
Qed.

Lemma consistent_extract_settles (i : nat)
    (message : Zod.ZodIssue -> string) (settled : Settled ExtractResponse)
    (s : Running) :
  Consistent s -> Consistent (step (ExtractSettles i message settled) s).
Proof.
  intros C. simpl.
  destruct (nth_error (extractCalls s) i) as [props|] eqn:Nth; [|exact C].
  destruct (extractor (tree s)) as [e|] eqn:X; [|exact C].
  pose proof (extractor_fits s C e X) as Fit.
  assert (Mounted : markdown (workflow (tree s)) <> "").
  { intros M. apply (mounted_with_markdown s C) in M. congruence. }
  destruct Fit as [_ _ | Busy Book Err].
  - destruct i; discriminate Nth.
  - destruct i as [|i]; [|destruct i; discriminate Nth].
    simpl in Nth. inversion Nth; subst props. clear Nth.
    unfold without. cbn [firstn skipn List.app].
    unfold BookExtractor.settle.
    destruct (BookExtractor.validated message _ settled) as [err | data];
      cbn [tryCatch fst];
      split;
        cbn [tree parseCalls extractCalls withExtractor workflow extractor];
        try apply (parse_in_flight s C);
        try apply (markdown_has_text s C);
        try discriminate;
        try (split; [discriminate | intros M; now contradiction Mounted]);
        intros e' H; inversion H; subst e'; apply fits_quiet;
          cbn [BookExtractor.isExtracting BookExtractor.extractedBook
               BookExtractor.extractedMarkdown BookExtractor.error
               BookExtractor.markdownContent BookExtractor.defaultProps];
          try reflexivity.
    + intros Y. rewrite Book in Y. now contradiction Y.
    + intros _. split; [reflexivity | exact Err].
Qed.

Lemma consistent_step (event : Event) (s : Running) :
  Consistent s -> Consistent (step event s).
Proof.
  destruct event.
  - apply consistent_select.
  - apply consistent_click_parse.
  - apply consistent_parse_settles.
  - apply consistent_click_extract.
  - apply consistent_extract_settles.
Qed.

(** X5.  Whatever the user does, with calls that settle when and how they
    will, the tree and the calls in flight fit together.  A parse call is
    in flight exactly while the status is parsing, and then there is no
    markdown; the extractor is mounted exactly while there is markdown,
    which is never blank; the extractor is extracting exactly while its one
    call is in flight, which was sent for the markdown on display, and it
    then shows no record and no error; a record on display was extracted
    from the markdown on display and has no error beside it.  So at most
    one call that can reach the tree is in flight, the phase tells which,
    and the extract handler, where it runs, always has something to
    extract. *)
Theorem reachable_sessions_are_consistent (s : Running) :
  Reachable s ->
  Consistent s /\
  parseCalls s + List.length (extractCalls s) <= 1 /\
  (phase (tree s) = PhaseParsing <-> parseCalls s = 1) /\
  (phase (tree s) = PhaseExtracting <-> List.length (extractCalls s) = 1) /\
  (forall e, extractor (tree s) = Some e ->
     BookExtractor.nothingToExtract (markdown (workflow (tree s))) = false).
Proof.
  intros H.
  assert (C : Consistent s).
  { induction H as [|event s _ IH];
      [apply consistent_initial | now apply consistent_step]. }
  split; [exact C|].
  assert (Calls : extractor (tree s) = None /\ extractCalls s = [] \/
                  exists e, extractor (tree s) = Some e /\
                    ExtractorFits (markdown (workflow (tree s))) e
                      (extractCalls s)).
  { destruct (extractor (tree s)) as [e|] eqn:X.
    - right. exists e. split; [reflexivity|].
      now apply (extractor_fits s C).
    - left. split; [reflexivity|]. now apply (unmounted_has_no_call s C). }
  split; [|split; [|split]].
  - destruct (parse_in_flight s C) as [[N S] | (N & S & M)]; rewrite N.
    + destruct Calls as [[_ K] | (e & _ & [? ? | ? ? ?])];
        rewrite ?K; simpl; lia.
    + apply (mounted_with_markdown s C) in M.
      rewrite (unmounted_has_no_call s C M). simpl. lia.
  - unfold phase.
    destruct (parse_in_flight s C) as [[N S] | (N & S & M)]; rewrite N, S.
    + split; [|discriminate].
      destruct (childBusy (tree s));
        [|destruct (_ || _)]; discriminate.
    + tauto.
  - unfold phase, childBusy.
    destruct (parse_in_flight s C) as [[N S] | (N & S & M)]; rewrite S.
    + destruct Calls as [[X K] | (e & X & [Q ? | Q ? ?])]; rewrite X.
      * rewrite K. simpl. destruct (_ || _); split; discriminate.
      * rewrite Q. simpl. destruct (_ || _); split; discriminate.
      * rewrite Q. simpl. tauto.
    + apply (mounted_with_markdown s C) in M.
      rewrite (unmounted_has_no_call s C M). simpl. split; discriminate.
  - intros e X. unfold BookExtractor.nothingToExtract.
    assert (M : markdown (workflow (tree s)) <> "").
    { intros M. apply (mounted_with_markdown s C) in M. congruence. }
    assert (B := markdown_has_text s C M).
    destruct (markdown (workflow (tree s))) as [|c m];
      [now contradiction M|]. simpl.
    destruct (trim (String c m)) eqn:T; [|reflexivity].
    apply trim_empty in T. contradiction.
Qed.

End SessionBehaviour.

(** ** The markdown preview *)

Section PreviewBehaviour.
Import PdfExtractionWorkflow.

Lemma substring_prefix (n : nat) (s : string) :
  String.length (substring 0 n s) = Nat.min n (String.length s) /\
  exists rest, s = substring 0 n s ++ rest.
Proof.
  revert s. induction n as [|n IH]; intros s.
  - destruct s; simpl; (split; [reflexivity | eexists; reflexivity]).
  - destruct s as [|c s]; simpl.
    + split; [reflexivity | now exists ""].
    + destruct (IH s) as [L [rest E]]. split; [now rewrite L|].
      exists rest. now rewrite <- E.
Qed.

(** X6.  The preview is shown only when there is markdown, and it is its first
    1200 characters: a prefix of it, never empty, as long as the markdown
    when that is shorter. *)
Theorem preview_is_the_head_of_the_markdown (t : Tree) (preview : string) :
  markdownPreview (shown t) = Some preview ->
  markdown (workflow t) <> "" /\
  preview <> "" /\
  String.length preview = Nat.min 1200 (String.length (markdown (workflow t))) /\
  exists rest, markdown (workflow t) = preview ++ rest.
Proof.
  intros H.
  assert (P : markdown (workflow t) <> "" /\
              preview = substring 0 1200 (markdown (workflow t))).
  { unfold shown, whenTruthy in H. cbn [markdownPreview] in H.
    destruct (markdown (workflow t)) as [|c s]; [discriminate H|].
    cbn [truthy option_map] in H. split; [discriminate | congruence]. }
  destruct P as [M ->].
  destruct (substring_prefix 1200 (markdown (workflow t))) as [L E].
  split; [exact M|]. split; [|split; [exact L | exact E]].
  intros Z. rewrite Z in L.
  destruct (markdown (workflow t)); [now contradiction M|].
  simpl String.length in L. lia.
Qed.

End PreviewBehaviour.

(** ** The file name *)

Section FileNameBehaviour.
Import ExportMarkdown.

Lemma lower_slugLetter (c : ascii) :
  Spec.slugLetter c = true -> lower_char c = c.
Proof.
  destruct c as [[] [] [] [] [] [] [] []]; vm_compute; congruence.
Qed.

Lemma slugLetter_slug_char (c : ascii) :
  Spec.slugLetter c = true -> slug_char c = true.
Proof.
  unfold slug_char, Spec.slugLetter.
  destruct (is_lower c), (is_digit c), (is_space c), (is_hyphen c);
    simpl; congruence.
Qed.

Lemma hyphen_char (c : ascii) : is_hyphen c = true -> c = "-"%char.
Proof.
  destruct c as [[] [] [] [] [] [] [] []]; vm_compute; congruence.
Qed.

Lemma toLowerCase_id (s : string) :
  every Spec.slugLetter s = true -> toLowerCase s = s.
Proof.
  induction s as [|c s IH]; simpl; [reflexivity|].
  rewrite andb_true_iff. intros [Hc Hs].
  now rewrite (lower_slugLetter c Hc), (IH Hs).
Qed.

Lemma removeUnless_id (keep : ascii -> bool) (s : string) :
  every keep s = true -> removeUnless keep s = s.
Proof.
  induction s as [|c s IH]; simpl; [reflexivity|].
  rewrite andb_true_iff. intros [Hc Hs]. now rewrite Hc, (IH Hs).
Qed.

Lemma replaceRunsFrom_none (cls : ascii -> bool) (r s : string) :
  every (fun c => negb (cls c)) s = true ->
  forall inRun, replaceRunsFrom inRun cls r s = s.
Proof.
  induction s as [|c s IH]; simpl; [reflexivity|].
  rewrite andb_true_iff, negb_true_iff. intros [Hc Hs] inRun.
  now rewrite Hc, (IH Hs).
Qed.

(** Where no two hyphens are side by side, collapsing changes nothing. *)
Lemma collapse_id (s : string) :
  Spec.doubledHyphen s = false ->
  replaceRunsFrom false is_hyphen "-" s = s /\
  (Spec.leadingHyphen s = false -> replaceRunsFrom true is_hyphen "-" s = s).
Proof.
  induction s as [|c s IH]; [now split|].
  intros D.
  assert (D' : Spec.doubledHyphen s = false).
  { simpl in D. destruct s; [reflexivity|].
    now apply orb_false_iff in D as [_ D]. }
  destruct (IH D') as [IHf IHt]. simpl replaceRunsFrom.
  destruct (is_hyphen c) eqn:Hc.
  - split; [|simpl; congruence].
    rewrite (hyphen_char c Hc). simpl. f_equal. apply IHt.
    simpl in D. destruct s as [|c' s]; [reflexivity|].
    apply orb_false_iff in D as [D _]. rewrite Hc in D. exact D.
  - split; [now rewrite IHf | intros _; now rewrite IHf].
Qed.

(** X7.  Sanitizing a slug gives the slug back. *)
Theorem sanitizeFilename_idempotent (t : string) :
  sanitizeFilename (sanitizeFilename t) = sanitizeFilename t.
Proof.
  rewrite !sanitizeFilename_collapsed.
  assert (L := collapsed_letters t).
  assert (D := collapsed_single_hyphens t).
  set (s := Spec.collapsed t) in *.
  unfold Spec.collapsed at 1, replaceRuns.
  rewrite (toLowerCase_id s L).
  rewrite (removeUnless_id slug_char s)
    by (revert L; apply every_impl; exact slugLetter_slug_char).
  rewrite (replaceRunsFrom_none is_space "-" s)
    by (revert L; apply every_impl; exact slugLetter_not_space).
  apply (collapse_id s D).
Qed.

End FileNameBehaviour.

Section SlugBehaviour.
Import ExportMarkdown.

Lemma length_app (s t : string) :
  String.length (s ++ t) = String.length s + String.length t.
Proof. induction s as [|c s IH]; simpl; [reflexivity | now rewrite IH]. Qed.

Lemma length_toLowerCase (s : string) :
  String.length (toLowerCase s) = String.length s.
Proof. induction s as [|c s IH]; simpl; [reflexivity | now rewrite IH]. Qed.

Lemma length_removeUnless (keep : ascii -> bool) (s : string) :
  String.length (removeUnless keep s) <= String.length s.
Proof.
  induction s as [|c s IH]; simpl; [lia|]. destruct (keep c); simpl; lia.
Qed.

Lemma length_replaceRunsFrom (cls : ascii -> bool) (r s : string) :
  String.length r <= 1 ->
  forall inRun,
    String.length (replaceRunsFrom inRun cls r s) <= String.length s.
Proof.
  intros Hr. induction s as [|c s IH]; intros inRun; simpl; [lia|].
  destruct (cls c); [destruct inRun|]; simpl; rewrite ?length_app.
  - specialize (IH true). lia.
  - specialize (IH true). lia.
  - specialize (IH false). lia.
Qed.

Lemma removeUnless_app (keep : ascii -> bool) (s t : string) :
  removeUnless keep (s ++ t) = removeUnless keep s ++ removeUnless keep t.
Proof.
  induction s as [|c s IH]; simpl; [reflexivity|].
  destruct (keep c); simpl; now rewrite IH.
Qed.

Lemma removeUnless_nothing (keep : ascii -> bool) (s : string) :
  every (fun c => negb (keep c)) s = true -> removeUnless keep s = "".
Proof.
  induction s as [|c s IH]; simpl; [reflexivity|].
  rewrite andb_true_iff, negb_true_iff. intros [Hc Hs]. now rewrite Hc, IH.
Qed.

(** Replacing runs of a class by a text leaves what is outside both as it
    is. *)
Lemma removeUnless_replaceRunsFrom (keep cls : ascii -> bool) (r s : string) :
  (forall c, cls c = true -> keep c = false) ->
  every (fun c => negb (keep c)) r = true ->
  forall inRun,
    removeUnless keep (replaceRunsFrom inRun cls r s) = removeUnless keep s.
Proof.
  intros Hcls Hr. induction s as [|c s IH]; intros inRun; simpl; [reflexivity|].
  destruct (cls c) eqn:C.
  - rewrite (Hcls c C). destruct inRun; [apply IH|].
    rewrite removeUnless_app, (removeUnless_nothing keep r Hr). apply IH.
  - simpl. destruct (keep c); now rewrite IH.
Qed.

Lemma removeUnless_twice (keep keep' : ascii -> bool) (s : string) :
  (forall c, keep c = true -> keep' c = true) ->
  removeUnless keep (removeUnless keep' s) = removeUnless keep s.
Proof.
  intros H. induction s as [|c s IH]; simpl; [reflexivity|].
  destruct (keep' c) eqn:K'; simpl.
  - destruct (keep c); now rewrite IH.
  - destruct (keep c) eqn:K; [|exact IH].
    apply H in K. congruence.
Qed.

Lemma letterOrDigit_facts (c : ascii) :
  (Notions.letterOrDigit c = true -> slug_char c = true) /\
  (is_space c = true -> Notions.letterOrDigit c = false) /\
  (is_hyphen c = true -> Notions.letterOrDigit c = false).
Proof.
  destruct c as [[] [] [] [] [] [] [] []]; vm_compute; repeat split; congruence.
Qed.

(** X8.  The letters a-z and the digits of a slug are those of the lower-cased
    title, all of them and in the order of the title, and a slug is never
    longer than the title. *)
Theorem slug_keeps_letters_and_digits (t : string) :
  removeUnless Notions.letterOrDigit (sanitizeFilename t)
  = removeUnless Notions.letterOrDigit (toLowerCase t) /\
  String.length (sanitizeFilename t) <= String.length t.
Proof.
  rewrite sanitizeFilename_collapsed.
  split.
  - unfold Spec.collapsed, replaceRuns.
    rewrite removeUnless_replaceRunsFrom;
      [|intros c; apply letterOrDigit_facts | reflexivity].
    rewrite removeUnless_replaceRunsFrom;
      [|intros c; apply letterOrDigit_facts | reflexivity].
    apply removeUnless_twice. intros c. apply letterOrDigit_facts.
  - unfold Spec.collapsed, replaceRuns.
    pose proof (length_replaceRunsFrom is_hyphen "-"
                  (replaceRunsFrom false is_space "-"
                     (removeUnless slug_char (toLowerCase t)))
                  (le_n 1) false) as H1.
    pose proof (length_replaceRunsFrom is_space "-"
                  (removeUnless slug_char (toLowerCase t)) (le_n 1) false)
      as H2.
    pose proof (length_removeUnless slug_char (toLowerCase t)) as H3.
    rewrite length_toLowerCase in H3. lia.
Qed.

End SlugBehaviour.

Section FileNameAlphabet.
Import ExportMarkdown.

Lemma uint_digits (d : Decimal.uint) :
  every is_digit (NilEmpty.string_of_uint d) = true.
Proof. induction d; simpl; try reflexivity; exact IHd. Qed.

(** A decimal numeral is made of digits, after a hyphen when negative. *)
Lemma ofInt_alphabet (n : Z) : every Notions.fileNameChar (ofInt n) = true.
Proof.
  assert (U : forall d, every Notions.fileNameChar (NilZero.string_of_uint d)
                        = true).
  { intros d. unfold NilZero.string_of_uint.
    assert (H : every Notions.fileNameChar (NilEmpty.string_of_uint d) = true).
    { generalize (uint_digits d). apply every_impl.
      intros c Hc. unfold Notions.fileNameChar, Spec.slugLetter.
      rewrite Hc. now rewrite orb_true_r. }
    now destruct d. }
  unfold ofInt. destruct (Z.to_int n) as [d | d]; simpl; [apply U|].
  apply U.
Qed.

Lemma padStart_alphabet (n : nat) (s : string) :
  every Notions.fileNameChar s = true ->
  every Notions.fileNameChar (padStart n "0" s) = true.
Proof.
  intros H. unfold padStart. rewrite every_app, H, andb_true_r.
  induction (n - String.length s) as [|k IH]; simpl; [reflexivity | exact IH].
Qed.

(** X9.  Whatever the record and the date, the export file name is made of the
    letters a-z, digits, hyphens and dots only (no space, no slash, no
    upper-case letter), and it ends in [.md]. *)
Theorem filename_alphabet (now : Date) (data : DocumentExtraction) :
  every Notions.fileNameChar (generateFilename now data) = true /\
  exists stem, generateFilename now data = stem ++ ".md".
Proof.
  split.
  - rewrite generateFilename_slugOf. unfold formatDate.
    rewrite !every_app, ofInt_alphabet, !padStart_alphabet
      by apply ofInt_alphabet.
    assert (S : every Notions.fileNameChar (Spec.slugOf (title data)) = true).
    { apply every_impl with (f := Spec.slugLetter).
      - intros c Hc. unfold Notions.fileNameChar. now rewrite Hc.
      - destruct (title data) as [| |[|c t]]; try reflexivity.
        apply collapsed_letters. }
    now rewrite S.
  - rewrite generateFilename_slugOf.
    exists (formatDate now ++ "-" ++ Spec.slugOf (title data)).
    now rewrite !string_app_assoc.
Qed.

End FileNameAlphabet.

(** ** The artifact *)

Section ArtifactBehaviour.
Import ExportMarkdown.

Lemma truthyString_view (x : optional string) :
  truthyString (Notions.onlyTruthyString x) = truthyString x.
Proof. now destruct x as [| |[|c s]]. Qed.

Lemma nonEmptyList_view (x : optional (list string)) :
  nonEmptyList (Notions.onlyNonEmpty x) = nonEmptyList x.
Proof. now destruct x as [| |[|a l]]. Qed.

Lemma truthyNumber_view (x : optional Z) :
  truthyNumber (Notions.onlyNonZero x) = truthyNumber x.
Proof.
  destruct x as [| |n]; try reflexivity. simpl.
  destruct (Z.eqb n 0) eqn:E; simpl; [reflexivity | now rewrite E].
Qed.

Lemma publisherSection_view (x : optional Publisher) :
  publisherSection (Notions.onlyNamedPublisher x) = publisherSection x.
Proof.
  destruct x as [| |p]; try reflexivity.
  unfold Notions.onlyNamedPublisher, publisherSection, publisherParts.
  now destruct (name p) as [| |[|c s]], (location p) as [| |[|c' s']].
Qed.

(** X10.  The formatter reads a record through its truthy fields only: a field
    that is [null], an empty string, an empty list, zero, or a publisher
    without name and location, is exported exactly as if it were not
    there, in the artifact and in the file name. *)
Theorem export_reads_truthy_fields_only (now : Date) (localeNow : string)
    (data : DocumentExtraction) (fullMarkdown : option string) :
  generateMarkdownContent localeNow (Notions.truthyView data) fullMarkdown
  = generateMarkdownContent localeNow data fullMarkdown /\
  generateFilename now (Notions.truthyView data) = generateFilename now data.
Proof.
  unfold generateMarkdownContent, markdownSections, generateFilename.
  cbn [Notions.truthyView title authors publishedYear genres pages language
       publisher].
  now rewrite !truthyString_view, !nonEmptyList_view, !truthyNumber_view,
    publisherSection_view.
Qed.

Lemma join_app (sep : string) (l1 l2 : list string) :
  l1 <> [] -> l2 <> [] ->
  join sep (l1 ++ l2) = join sep l1 ++ sep ++ join sep l2.
Proof.
  intros H1 H2. induction l1 as [|a l1 IH]; [now contradiction H1|].
  destruct l1 as [|b l1].
  - simpl. destruct l2; [now contradiction H2 | reflexivity].
  - change (join sep ((a :: b :: l1) ++ l2))
      with (a ++ sep ++ join sep ((b :: l1) ++ l2)).
    rewrite IH by discriminate.
    change (join sep (a :: b :: l1)) with (a ++ sep ++ join sep (b :: l1)).
    now rewrite !string_app_assoc.
Qed.

Lemma assoc_document (before sep separator heading full : string) :
  before ++ sep ++ join sep [separator; heading ++ sep; full]
  = (before ++ sep ++ separator ++ sep) ++ heading ++ sep ++ sep ++ full.
Proof.
  cbn [join String.concat]. now rewrite !string_app_assoc.
Qed.

Lemma assoc_last (before sep line : string) :
  before ++ sep ++ join sep [line ++ sep] = (before ++ sep) ++ line ++ sep.
Proof.
  cbn [join String.concat]. now rewrite !string_app_assoc.
Qed.

Lemma artifact_suffix (localeNow : string)
    (data : DocumentExtraction) (fullMarkdown : option string) :
  (forall full, fullMarkdown = Some full -> ~ Spec.blank full ->
     exists before,
       generateMarkdownContent localeNow data fullMarkdown
       = before ++ "## Document Content" ++ nl ++ nl ++ full) /\
  ((fullMarkdown = None \/
    exists full, fullMarkdown = Some full /\ Spec.blank full) ->
     exists before,
       generateMarkdownContent localeNow data fullMarkdown
       = before ++ "*Extraction method: ADE PDF Parse & Extract*" ++ nl).
Proof.
  unfold generateMarkdownContent.
  rewrite markdownSections_in_order.
  set (head := Spec.present _).
  set (block := flat_map _ _).
  cbn [List.concat]. rewrite app_nil_r.
  split.
  - intros full -> B.
    assert (E : every is_space full = false)
      by (destruct (every is_space full) eqn:E; [now contradiction B|easy]).
    unfold Spec.documentSection. rewrite E.
    rewrite !app_assoc.
    rewrite join_app;
      [|intros N; symmetry in N; now apply app_cons_not_nil in N|discriminate].
    eexists. apply assoc_document.
  - intros H.
    assert (D : Spec.documentSection fullMarkdown = []).
    { destruct H as [-> | (full & -> & B)]; [reflexivity|].
      unfold Spec.documentSection, Spec.blank in *. now rewrite B. }
    rewrite D, app_nil_r.
    change [nl ++ "---" ++ nl; "*Extracted on: " ++ localeNow ++ "*" ++ nl;
            "*Extraction method: ADE PDF Parse & Extract*" ++ nl]
      with (List.app
              [nl ++ "---" ++ nl; "*Extracted on: " ++ localeNow ++ "*" ++ nl]
              ["*Extraction method: ADE PDF Parse & Extract*" ++ nl]).
    rewrite !app_assoc.
    rewrite join_app;
      [|intros N; symmetry in N; now apply app_cons_not_nil in N|discriminate].
    eexists. apply assoc_last.
Qed.

(** X11.  The artifact ends with what was last pushed: the document text, as it
    was handed over, under its heading when that text is not blank, and the
    line of the extraction method otherwise. *)
Theorem artifact_ends_with_the_document (localeNow : string)
    (data : DocumentExtraction) (fullMarkdown : option string) :
  (forall full, fullMarkdown = Some full -> ~ Spec.blank full ->
     exists before,
       generateMarkdownContent localeNow data fullMarkdown
       = before ++ "## Document Content" ++ nl ++ nl ++ full) /\
  ((fullMarkdown = None \/
    exists full, fullMarkdown = Some full /\ Spec.blank full) ->
     exists before,
       generateMarkdownContent localeNow data fullMarkdown
       = before ++ "*Extraction method: ADE PDF Parse & Extract*" ++ nl).
Proof. apply artifact_suffix. Qed.

End ArtifactBehaviour.

Section ExportBehaviour.
Import Zod Books Remote BookExtractor.

Lemma something_to_extract (content : string) :
  nothingToExtract content = false -> ~ Spec.blank content.
Proof.
  unfold nothingToExtract. rewrite orb_false_iff. intros [_ L] B.
  apply trim_empty in B. rewrite B in L. discriminate L.
Qed.

Lemma validated_payload_is_object (payload data : json) :
  safeParse DocumentExtractionSchema payload = success data ->
  exists props, payload = JObj props.
Proof.
  intros H. apply safeParse_success in H.
  destruct payload as [ | b | q | s | items | props]; try discriminate H.
  now exists props.
Qed.

(** X12.  After an extraction that succeeded, the export button hands out a file
    named after the validated record, whose text ends with the heading of
    the document content followed by the very markdown the record was
    extracted from. *)
Theorem export_holds_the_extracted_markdown
    (message : ZodIssue -> string) (content : string) (payload data : json)
    (st : State) (now : ExportMarkdown.Date) (localeNow : string) :
  nothingToExtract content = false ->
  safeParse DocumentExtractionSchema payload = success data ->
  let st' := fst (handleExtract message (defaultProps content)
                    (Ok {| extraction := Some payload |}) st) in
  exists before,
    exported now localeNow st' =
    Some (ExportMarkdown.generateFilename now (asDocumentExtraction data),
          before ++ "## Document Content" ++ nl ++ nl ++ content).
Proof.
  intros G S st'.
  destruct (validated_payload_is_object _ _ S) as [props ->].
  assert (E : st' = {| isExtracting := false;
                       extractedBook := Some data;
                       extractedMarkdown := content;
                       error := "" |}).
  { unfold st'.
    rewrite (handleExtract_runs message (defaultProps content) _ st G).
    unfold validated, bodyOrThrow.
    cbn [extraction truthyValue schema defaultProps]. rewrite S.
    reflexivity. }
  rewrite E. unfold exported. cbn [extractedBook extractedMarkdown].
  destruct (proj1 (artifact_suffix localeNow (asDocumentExtraction data)
                     (Some content)) content eq_refl
              (something_to_extract content G)) as [before B].
  exists before. rewrite B. reflexivity.
Qed.

End ExportBehaviour.

(** ** Validating twice *)

Section ValidationRoundTrip.
Import Zod Books.

Lemma distinct_fields (shape : list (string * ZodType)) :
  Notions.distinctKeys (ZodObject shape) ->
  NoDup (map fst shape) /\
  Forall (fun field => Notions.distinctKeys (snd field)) shape.
Proof.
  simpl. intros [N F]. split; [exact N|]. clear N.
  induction shape as [|[k t] shape IH]; constructor.
  - apply F.
  - apply IH, F.
Qed.

Lemma getProp_app (k : string) (pre l : list (string * json)) :
  getProp k pre = None -> getProp k (pre ++ l) = getProp k l.
Proof.
  induction pre as [|[k' v] pre IH]; simpl; [reflexivity|].
  destruct (String.eqb k' k); [discriminate | exact IH].
Qed.

Lemma getProp_not_key (k : string) (l : list (string * json)) :
  ~ In k (keys l) -> getProp k l = None.
Proof.
  induction l as [|[k' v] l IH]; simpl; [reflexivity|].
  intros H. destruct (String.eqb_spec k' k) as [E | E]; [tauto|].
  apply IH. tauto.
Qed.

Lemma getProp_snoc_other (k k' : string) (v : json)
    (pre : list (string * json)) :
  k' <> k -> getProp k pre = None -> getProp k (pre ++ [(k', v)]) = None.
Proof.
  intros Hne Hp. rewrite (getProp_app _ _ _ Hp). simpl.
  now destruct (String.eqb_spec k' k).
Qed.

Lemma runChecks_again (at_ at' : list PathElem) (q : Q)
    (checks : list NumberCheck) :
  flat_map (runCheck at_ q) checks = [] ->
  flat_map (runCheck at' q) checks = [].
Proof.
  induction checks as [|c checks IH]; simpl; [reflexivity|].
  intros H. apply app_eq_nil in H as [Hc Hs]. rewrite (IH Hs), app_nil_r.
  destruct c as [|value inclusive]; simpl in *.
  - now destruct (isInteger q).
  - now destruct (if inclusive then _ else _).
Qed.

Lemma parseItems_again (parseItem : list PathElem -> option json -> ParseReturn) :
  (forall at_ x out, parseItem at_ x = ([], out) ->
     forall at', parseItem at' out = ([], out)) ->
  forall items at_ i outs,
    parseItems parseItem at_ i items = ([], outs) ->
    forall at' i', parseItems parseItem at' i' outs = ([], outs).
Proof.
  intros Hp. induction items as [|x items IH]; intros at_ i outs; simpl.
  - intros H. now inversion H.
  - destruct (parseItem (at_ ++ [Index i])%list (Some x)) as [issues out] eqn:E.
    destruct (parseItems parseItem at_ (S i) items) as [issues' outs'] eqn:E'.
    intros H. inversion H as [[Hi Ho]]; clear H.
    apply app_eq_nil in Hi as [-> ->].
    destruct out as [y|]; intros at' i'.
    + simpl. rewrite (Hp _ _ _ E). now rewrite (IH _ _ _ E').
    + now apply (IH _ _ _ E').
Qed.

Lemma parseShape_again (shape : list (string * ZodType)) :
  NoDup (map fst shape) ->
  Forall (fun field =>
            forall at_ x out, parse (snd field) at_ x = ([], out) ->
              forall at', parse (snd field) at' out = ([], out)) shape ->
  forall at_ props outs,
    parseShape parse at_ props shape = ([], outs) ->
    forall at' pre,
      (forall k, In k (map fst shape) -> getProp k pre = None) ->
      parseShape parse at' (pre ++ outs) shape = ([], outs).
Proof.
  induction shape as [|[k t] shape IH]; intros N F at_ props outs; simpl.
  - intros H. now inversion H.
  - inversion N as [|? ? Nk N']; subst. inversion F as [|? ? Ft F']; subst.
    simpl in Ft.
    destruct (parse t (at_ ++ [Key k])%list (getProp k props))
      as [issues out] eqn:E.
    destruct (parseShape parse at_ props shape) as [issues' outs'] eqn:E'.
    intros H. inversion H as [[Hi Ho]]; clear H.
    apply app_eq_nil in Hi as [-> ->].
    intros at' pre Hpre.
    assert (Keys : incl (keys outs') (map fst shape)).
    { pose proof (parseShape_keys parse at_ props shape) as K.
      now rewrite E' in K. }
    assert (G : getProp k (pre ++ match out with
                                  | Some y => (k, y) :: outs'
                                  | None => outs'
                                  end)%list = out).
    { rewrite getProp_app by (apply Hpre; now left).
      destruct out as [y|]; simpl.
      - now rewrite String.eqb_refl.
      - apply getProp_not_key. intros Hin. apply Nk. now apply Keys. }
    rewrite G, (Ft _ _ _ E).
    destruct out as [y|].
    + replace (pre ++ (k, y) :: outs')%list
        with ((pre ++ [(k, y)]) ++ outs')%list
        by (now rewrite <- app_assoc).
      rewrite (IH N' F' _ _ _ E'); [reflexivity|].
      intros k' Hk'. apply getProp_snoc_other.
      * intros <-. contradiction.
      * apply Hpre. now right.
    + rewrite (IH N' F' _ _ _ E'); [reflexivity|].
      intros k' Hk'. apply Hpre. now right.
Qed.

(** What a schema hands on without an issue, it accepts again, and hands
    on unchanged. *)
Lemma parse_again (t : ZodType) :
  Notions.distinctKeys t ->
  forall at_ x out, parse t at_ x = ([], out) ->
    forall at', parse t at' out = ([], out).
Proof.
  induction t as [ | checks | element IH | shape IH | inner IH | inner IH ]
    using ZodType_fields_ind; intros D at_ x out H at'.
  - destruct x as [[]|]; simpl in H; try discriminate H.
    now inversion H.
  - destruct x as [[]|]; simpl in H; try discriminate H.
    inversion H as [[Hc Ho]]. simpl.
    now rewrite Hc, (runChecks_again at_ at' _ _ Hc).
  - destruct x as [[]|]; simpl in H; try discriminate H.
    destruct (parseItems (parse element) at_ 0 items) as [issues outs] eqn:E.
    inversion H; subst. simpl.
    now rewrite (parseItems_again (parse element) (IH D) _ _ _ _ E).
  - destruct x as [[]|]; simpl in H; try discriminate H.
    destruct (parseShape parse at_ props shape) as [issues outs] eqn:E.
    inversion H; subst. simpl.
    destruct (distinct_fields shape D) as [N F].
    assert (F' : Forall (fun field =>
                  forall at_ x out, parse (snd field) at_ x = ([], out) ->
                    forall at', parse (snd field) at' out = ([], out)) shape).
    { rewrite Forall_forall in *. intros field Hin. apply IH; [exact Hin|].
      now apply F. }
    pose proof (parseShape_again shape N F' _ _ _ E at' [] (fun _ _ => eq_refl))
      as P.
    simpl in P. now rewrite P.
  - destruct x as [v|]; simpl in H.
    + destruct out as [o|]; simpl; [now apply (IH D _ _ _ H) | reflexivity].
    + now inversion H.
  - simpl in D.
    assert (H' : out = Some JNull \/ parse inner at_ x = ([], out)).
    { destruct x as [[]|]; simpl in H; try (now right).
      left. now inversion H. }
    destruct H' as [-> | H']; [reflexivity|].
    specialize (IH D _ _ _ H' at').
    destruct out as [[]|]; simpl; try exact IH. reflexivity.
Qed.

Lemma schema_distinctKeys : Notions.distinctKeys DocumentExtractionSchema.
Proof.
  simpl. repeat split; repeat constructor; simpl; intuition discriminate.
Qed.

(** X13.  A payload that passed validation passes it again when handed back, and
    comes out the same: the record the component stores is a fixed point of
    the schema. *)
Theorem validated_record_validates_again (payload data : json) :
  safeParse DocumentExtractionSchema payload = success data ->
  safeParse DocumentExtractionSchema data = success data.
Proof.
  intros H. apply safeParse_success in H.
  unfold safeParse.
  now rewrite (parse_again _ schema_distinctKeys _ _ _ H []).
Qed.

End ValidationRoundTrip.

(** ** The issues of the schema *)

Section IssueBehaviour.
Import Zod Books BookExtractor.

Lemma schema_field_unique (k : string) (t t' : ZodType) :
  In (k, t) (shapeOf DocumentExtractionSchema) ->
  In (k, t') (shapeOf DocumentExtractionSchema) -> t = t'.
Proof.
  simpl. intros H H'.
  repeat (destruct H as [H | H];
          [inversion H; subst; clear H;
           repeat (destruct H' as [H' | H'];
                   [first [discriminate H' | now inversion H']|]);
           contradiction|]).
  contradiction.
Qed.

(** The issues under the key of a declared field are those of that field. *)
Lemma field_issues (k : string) (t : ZodType) (props : list (string * json))
    (issue : ZodIssue) :
  In (k, t) (shapeOf DocumentExtractionSchema) ->
  (In issue (fst (parse DocumentExtractionSchema [] (Some (JObj props)))) /\
   under [Key k] issue) <->
  In issue (fst (parse t [Key k] (getProp k props))).
Proof.
  intros Hin. rewrite schema_issues. split.
  - intros [(k' & t' & Hin' & Hi) U].
    assert (U' := parse_issues_under _ _ _ _ Hi).
    assert (k' = k) by exact (under_key _ _ _ _ U' U). subst k'.
    now rewrite (schema_field_unique k t t' Hin Hin').
  - intros Hi. split; [now exists k, t|].
    exact (parse_issues_under _ _ _ _ Hi).
Qed.

Lemma Qle_bool_false (q : Q) : Qle_bool q 0 = false <-> (0 < q)%Q.
Proof.
  rewrite <- Bool.not_true_iff_false, Qle_bool_iff. split.
  - apply Qnot_le_lt.
  - apply Qlt_not_le.
Qed.

(** X14.  The two number fields.  A page count has an issue exactly when it is
    not a whole number or not above zero; a year has one exactly when it is
    not a whole number, so the year zero and years before it pass. *)
Theorem page_count_and_year_checks (props : list (string * json)) (q : Q) :
  let issues := fst (parse DocumentExtractionSchema [] (Some (JObj props))) in
  (getProp "pages" props = Some (JNum q) ->
     ((exists issue, In issue issues /\ under [Key "pages"] issue) <->
      (isInteger q = false \/ (q <= 0)%Q))) /\
  (getProp "publishedYear" props = Some (JNum q) ->
     ((exists issue, In issue issues /\ under [Key "publishedYear"] issue) <->
      isInteger q = false)).
Proof.
  intros issues. unfold issues. split; intros G.
  - assert (F : forall issue,
              (In issue (fst (parse DocumentExtractionSchema []
                                (Some (JObj props)))) /\
               under [Key "pages"] issue) <->
              In issue (runCheck [Key "pages"] q check_int ++
                        runCheck [Key "pages"] q (check_min 0 false))).
    { intros issue.
      rewrite (field_issues "pages"
                 (ZodNullable (ZodOptional
                    (ZodNumber [check_int; check_min 0 false]))))
        by (simpl; tauto).
      rewrite G. simpl. now rewrite app_nil_r. }
    split.
    + intros [issue Hi]. apply F in Hi. simpl in Hi.
      destruct (isInteger q); [right | now left].
      destruct (Qle_bool q (inject_Z 0)) eqn:L; [now apply Qle_bool_iff|].
      destruct Hi.
    + intros H. simpl in F.
      destruct (isInteger q) eqn:I.
      * destruct H as [H | H]; [discriminate H|].
        apply Qle_bool_iff in H.
        change (inject_Z 0) with 0%Q in F. rewrite H in F.
        eexists. apply F. now left.
      * eexists. apply F. now left.
  - assert (F : forall issue,
              (In issue (fst (parse DocumentExtractionSchema []
                                (Some (JObj props)))) /\
               under [Key "publishedYear"] issue) <->
              In issue (runCheck [Key "publishedYear"] q check_int)).
    { intros issue.
      rewrite (field_issues "publishedYear"
                 (ZodNullable (ZodOptional (ZodNumber [check_int]))))
        by (simpl; tauto).
      rewrite G. simpl. now rewrite app_nil_r. }
    simpl in F. split.
    + intros [issue Hi]. apply F in Hi.
      destruct (isInteger q); [destruct Hi | reflexivity].
    + intros I. rewrite I in F. eexists. apply F. now left.
Qed.

Lemma parseItems_item parseItem (at_ : list PathElem) (issue : ZodIssue) :
  forall items j i v,
    nth_error items i = Some v ->
    In issue (fst (parseItem (at_ ++ [Index (j + i)])%list (Some v))) ->
    In issue (fst (parseItems parseItem at_ j items)).
Proof.
  induction items as [|x items IH]; intros j i v Hn Hi.
  - now destruct i.
  - simpl.
    destruct (parseItem (at_ ++ [Index j])%list (Some x)) as [issues out] eqn:E.
    destruct (parseItems parseItem at_ (S j) items) as [issues' outs] eqn:E'.
    simpl. apply in_or_app. destruct i as [|i]; simpl in Hn.
    + left. inversion Hn; subst x. rewrite Nat.add_0_r in Hi.
      now rewrite E in Hi.
    + right. specialize (IH (S j) i v Hn).
      rewrite E' in IH. apply IH.
      now replace (S j + i) with (j + S i) by lia.
Qed.

(** X15.  An author or a genre that is not a string is reported under the key of
    its list and its index, so the handler's message names it as
    [authors.2] or [genres.0]. *)
Theorem bad_list_item_is_located (message : ZodIssue -> string)
    (props : list (string * json)) (k : string) (items : list json)
    (i : nat) (v : json) :
  k = "authors" \/ k = "genres" ->
  getProp k props = Some (JArr items) ->
  nth_error items i = Some v ->
  Notions.isString v = false ->
  let issue := {| code := invalid_type t_string (Notions.typeOf v);
                  path := [Key k; Index i] |} in
  In issue (fst (parse DocumentExtractionSchema [] (Some (JObj props)))) /\
  issueText message issue
  = k ++ "." ++ ofInt (Z.of_nat i) ++ ": " ++ message issue.
Proof.
  intros Hk G Hn Hs issue. split;
    [|unfold issueText, issue; cbn [path map pathText join String.concat];
      now rewrite !string_app_assoc].
  apply (field_issues k (ZodNullable (ZodOptional (ZodArray ZodString)))).
  { destruct Hk as [-> | ->]; simpl; tauto. }
  rewrite G.
  change (parse _ [Key k] (Some (JArr items)))
    with (let '(issues, outs) := parseItems (parse ZodString) [Key k] 0 items in
          (issues, Some (JArr outs))).
  destruct (parseItems (parse ZodString) [Key k] 0 items) as [issues outs] eqn:E.
  cbn [fst].
  replace issues with (fst (parseItems (parse ZodString) [Key k] 0 items))
    by now rewrite E.
  apply (parseItems_item (parse ZodString) [Key k] issue items 0 i v Hn).
  destruct v; try discriminate Hs; simpl; now left.
Qed.

(** X16.  Every issue of an object payload lies under a declared key, so the
    message of the handler never names a key the schema does not declare;
    a payload that is no object has one issue, at the root. *)
Theorem issues_name_declared_keys (payload : json) (issue : ZodIssue) :
  In issue (fst (parse DocumentExtractionSchema [] (Some payload))) ->
  (forall props, payload = JObj props ->
     exists k rest, path issue = Key k :: rest /\ In k declaredKeys) /\
  ((forall props, payload <> JObj props) ->
     issue = {| code := invalid_type t_object (Notions.typeOf payload);
                path := [] |}).
Proof.
  intros H. split.
  - intros props ->. apply schema_issues in H.
    destruct H as (k & t & Hin & Hi).
    destruct (parse_issues_under _ _ _ _ Hi) as [rest E].
    exists k, rest. split; [exact E | exact (declared_field k t Hin)].
  - intros N. destruct payload; simpl in H;
      try (destruct H as [<- | []]; reflexivity).
    now contradiction (N props).
Qed.

End IssueBehaviour.

Section ValidatedPages.
Import Zod Books ExportMarkdown.

Lemma whole_positive (q : Q) :
  isInteger q = true -> (0 < q)%Q -> (0 < toInteger q)%Z.
Proof.
  unfold isInteger, toInteger, Qlt. destruct q as [a b]; simpl.
  rewrite Z.eqb_eq, Z.mul_1_r. intros M P.
  pose proof (Z.div_mod a (Zpos b) ltac:(lia)) as D. rewrite M in D.
  pose proof (Pos2Z.is_pos b). nia.
Qed.

(** X17.  A page count that made it into a validated record is a whole
    number above zero; when it is a safe integer (at most 2^53 - 1), so
    that it is printed with all its digits, the artifact has the line of
    the page count with its decimal numeral. *)
Theorem validated_page_count_is_exported (payload data : json) (n : Z)
    (localeNow : string) (fullMarkdown : option string) :
  safeParse DocumentExtractionSchema payload = success data ->
  pages (asDocumentExtraction data) = Present n ->
  (n <= Notions.maxSafeInteger)%Z ->
  (0 < n)%Z /\
  In ("**Pages:** " ++ ofInt n ++ nl)
     (markdownSections localeNow (asDocumentExtraction data) fullMarkdown).
Proof.
  intros S P _.
  destruct (validated_payload_is_object _ _ S) as [props ->].
  apply safeParse_success in S.
  rewrite schema_is_object, parse_object in S.
  remember (parseShape parse [] props (shapeOf DocumentExtractionSchema))
    as result eqn:R.
  assert (Hi : fst result = []) by congruence.
  assert (Hd : data = JObj (snd result)) by congruence.
  clear S. subst data.
  assert (Pos : (0 < n)%Z).
  { cbn [asDocumentExtraction pages] in P.
    destruct (getProp "pages" (snd result)) as [[ | | q | | | ]|] eqn:G;
      try discriminate P.
    assert (n = toInteger q) by (cbn [asInteger] in P; congruence).
    subst n. clear P. rewrite R in G, Hi.
    apply parseShape_getProp in G. destruct G as (t & Hin & Ht).
    assert (In ("pages",
                ZodNullable (ZodOptional
                  (ZodNumber [check_int; check_min 0 false])))
               (shapeOf DocumentExtractionSchema)) as Hin' by (simpl; tauto).
    rewrite <- (schema_field_unique _ _ _ Hin' Hin) in Ht.
    assert (Hnone : fst (parse (ZodNullable (ZodOptional
                             (ZodNumber [check_int; check_min 0 false])))
                           ([] ++ [Key "pages"]) (getProp "pages" props)) = []).
    { destruct (fst (parse _ _ (getProp "pages" props))) as [|issue l] eqn:F;
        [reflexivity|].
      assert (In issue (fst (parseShape parse [] props
                               (shapeOf DocumentExtractionSchema)))) as Habs.
      { rewrite parseShape_issues, in_flat_map.
        eexists. split; [exact Hin'|]. cbn [fst snd]. rewrite F. now left. }
      rewrite Hi in Habs. destruct Habs. }
    destruct (getProp "pages" props) as [[ | | q' | | | ]|];
      try discriminate Ht.
    simpl in Ht, Hnone. inversion Ht; subst q'.
    apply app_eq_nil in Hnone as [I L].
    rewrite app_nil_r in L.
    apply whole_positive.
    - now destruct (isInteger q).
    - apply Qle_bool_false. change 0%Q with (inject_Z 0).
      now destruct (Qle_bool q (inject_Z 0)). }
  split; [exact Pos|].
  rewrite markdownSections_in_order. apply in_concat.
  eexists. split; [right; right; left; reflexivity|].
  apply in_flat_map. exists Spec.Pages. split; [simpl; tauto|].
  cbn [Spec.fieldLine]. rewrite P. cbn [Spec.numbered].
  destruct (Z.eq_dec n 0); [lia | now left].
Qed.

End ValidatedPages.

(** ** The library: sorting *)

Section SortFacts.
Context {A : Type} (before : A -> A -> bool).

Lemma insertSorted_perm (x : A) (l : list A) :
  Permutation (BookLibrary.insertSorted before x l) (x :: l).
Proof.
  induction l as [|y l IH]; simpl.
  - apply Permutation_refl.
  - destruct (before x y).
    + apply Permutation_refl.
    + eapply Permutation_trans; [apply perm_skip, IH | apply perm_swap].
Qed.

Lemma sort_perm (l : list A) : Permutation (BookLibrary.sort before l) l.
Proof.
  induction l as [|x l IH]; simpl.
  - apply perm_nil.
  - eapply Permutation_trans; [apply insertSorted_perm | now apply perm_skip].
Qed.

Lemma insertSorted_sorted (x : A) (l : list A) :
  (forall a b, before a b = false -> before b a = true) ->
  Sorted (fun a b => before a b = true) l ->
  Sorted (fun a b => before a b = true) (BookLibrary.insertSorted before x l).
Proof.
  intros total S.
  induction S as [|y l S IH H]; simpl.
  - constructor; constructor.
  - destruct (before x y) eqn:B.
    + constructor; [now constructor | now constructor].
    + constructor; [exact IH|].
      destruct H as [|z l' H]; simpl.
      * constructor. now apply total.
      * destruct (before x z); constructor; auto.
Qed.

Lemma sort_sorted (l : list A) :
  (forall a b, before a b = false -> before b a = true) ->
  Sorted (fun a b => before a b = true) (BookLibrary.sort before l).
Proof.
  intros total. induction l as [|x l IH]; simpl.
  - constructor.
  - now apply insertSorted_sorted.
Qed.

Lemma insertSorted_filter (p : A -> bool) (x : A) (l : list A) :
  (forall y, p x = true -> before x y = false -> p y = false) ->
  filter p (BookLibrary.insertSorted before x l) =
  if p x then x :: filter p l else filter p l.
Proof.
  intros H. induction l as [|y l IH]; simpl.
  - reflexivity.
  - destruct (before x y) eqn:B; simpl.
    + reflexivity.
    + rewrite IH. destruct (p x) eqn:P.
      * now rewrite (H y eq_refl B).
      * reflexivity.
Qed.

Lemma sort_filter (p : A -> bool) (l : list A) :
  (forall x y, p x = true -> before x y = false -> p y = false) ->
  filter p (BookLibrary.sort before l) = filter p l.
Proof.
  intros H. induction l as [|x l IH]; simpl.
  - reflexivity.
  - rewrite insertSorted_filter by (apply H). now rewrite IH.
Qed.

Lemma Sorted_weaken (R R' : A -> A -> Prop) (l : list A) :
  (forall a b, R a b -> R' a b) -> Sorted R l -> Sorted R' l.
Proof.
  intros H S. induction S as [|a l S IH Hd]; constructor; auto.
  destruct Hd; constructor; auto.
Qed.

End SortFacts.

Section LibraryListing.
Import BookLibrary Order.
Variable localeCompare : string -> string -> Z.

Lemma filteredBooks_perm (books : list Book) (st : State) :
  Permutation (filteredBooks localeCompare books st)
              (filter (matches st) books).
Proof. apply sort_perm. Qed.

(** X18.  The listing holds the books that pass the three filters, each as
    often as the collection has it, and no other. *)
Theorem listing_is_the_matching_books (books : list Book) (st : State) :
  Permutation (filteredBooks localeCompare books st)
              (filter (matches st) books) /\
  (forall book,
     In book (filteredBooks localeCompare books st) <->
     In book books /\
     matchesSearch st book = true /\
     matchesGenre st book = true /\
     matchesStock st book = true) /\
  List.length (filteredBooks localeCompare books st) <= List.length books.
Proof.
  pose proof (filteredBooks_perm books st) as P.
  split; [exact P|]. split.
  - intros book. split.
    + intros I. apply (Permutation_in _ P) in I.
      apply filter_In in I. destruct I as [I M]. unfold matches in M.
      apply andb_true_iff in M. destruct M as [M S].
      apply andb_true_iff in M. tauto.
    + intros (I & M1 & M2 & M3).
      apply (Permutation_in _ (Permutation_sym P)).
      apply filter_In. split; [exact I|].
      unfold matches. now rewrite M1, M2, M3.
  - rewrite (Permutation_length P). apply filter_length_le.
Qed.

Lemma descending_order (key : Book -> Q) (by_ : SortOption) (l : list Book) :
  (forall a b, (compareBooks localeCompare by_ a b == key b - key a)%Q) ->
  Descending key
    (sort (fun a b => Qle_bool (compareBooks localeCompare by_ a b) 0%Q) l) /\
  KeepsTies key l
    (sort (fun a b => Qle_bool (compareBooks localeCompare by_ a b) 0%Q) l).
Proof.
  intros K.
  assert (B : forall a b,
             Qle_bool (compareBooks localeCompare by_ a b) 0%Q = true <->
             (key b <= key a)%Q).
  { intros a b. rewrite Qle_bool_iff, K. split; intros H.
    - apply Qle_minus_iff in H. 
      setoid_replace (key a) with (key b + (0 + - (key b - key a)))%Q by ring.
      rewrite <- (Qplus_0_r (key b)) at 1.
      apply Qplus_le_r. exact H.
    - apply Qle_minus_iff.
      setoid_replace (0 + - (key b - key a))%Q with (key a + - key b)%Q by ring.
      now apply Qle_minus_iff in H. }
  split.
  - unfold Descending. apply Sorted_StronglySorted.
    + intros a b c H1 H2. eapply Qle_trans; eassumption.
    + eapply Sorted_weaken; [|apply sort_sorted].
      * intros a b H. now apply B.
      * intros a b H. apply B.
        destruct (Qlt_le_dec (key b) (key a)) as [L|L]; [|exact L].
        apply Qlt_le_weak in L. apply B in L. congruence.
  - intros v. apply sort_filter. intros x y P N.
    apply Qeq_bool_iff in P.
    destruct (Qeq_bool (key y) v) eqn:E; [|reflexivity].
    apply Qeq_bool_iff in E.
    assert (L : (key y <= key x)%Q) by (rewrite P, E; apply Qle_refl).
    apply B in L. congruence.
Qed.

End LibraryListing.

Section LibraryOrder.
Import BookLibrary Order.
Variable localeCompare : string -> string -> Z.

(** X19.  By year, by rating and by stock the listing goes from the highest
    key to the lowest, and books with the same key keep the order they
    have in the collection; by title each book is followed by one that
    the collation does not put before it. *)
Theorem listing_order (books : list Book) (st : State) :
  let listed := filteredBooks localeCompare books st in
  let matching := filter (matches st) books in
  (sortBy st = SortYear ->
   Descending yearOf listed /\ KeepsTies yearOf matching listed) /\
  (sortBy st = SortRating ->
   Descending ratingOf listed /\ KeepsTies ratingOf matching listed) /\
  (sortBy st = SortStock ->
   Descending stockOf listed /\ KeepsTies stockOf matching listed) /\
  (sortBy st = SortTitle ->
   (forall s t, (0 < localeCompare s t)%Z -> (localeCompare t s <= 0)%Z) ->
   Sorted (fun a b => (localeCompare (title a) (title b) <= 0)%Z) listed).
Proof.
  intros listed matching. unfold listed, matching, filteredBooks.
  split; [|split; [|split]]; intros E; rewrite E.
  - apply descending_order. intros a b. unfold yearOf. simpl.
    unfold Z.sub. rewrite inject_Z_plus, inject_Z_opp. reflexivity.
  - apply descending_order. intros a b. reflexivity.
  - apply descending_order. intros a b. unfold stockOf. simpl.
    unfold Z.sub. rewrite inject_Z_plus, inject_Z_opp. reflexivity.
  - intros total.
    assert (B : forall a b,
               Qle_bool (compareBooks localeCompare SortTitle a b) 0%Q = true
               <-> (localeCompare (title a) (title b) <= 0)%Z).
    { intros a b. rewrite Qle_bool_iff. simpl.
      change 0%Q with (inject_Z 0). now rewrite <- Zle_Qle. }
    eapply Sorted_weaken; [|apply sort_sorted].
    + intros a b H. now apply B.
    + intros a b H. apply B.
      destruct (Z_lt_le_dec 0 (localeCompare (title a) (title b)))
        as [L|L].
      * now apply total.
      * apply B in L. rewrite L in H. discriminate H.
Qed.

End LibraryOrder.

(** ** The library: search, genres and stock *)

Section IncludesFacts.
Import BookLibrary Order.

Lemma prefix_app (sub s : string) :
  String.prefix sub s = true <-> exists after, s = sub ++ after.
Proof.
  revert s. induction sub as [|a sub IH]; intros s; simpl.
  - split; [intros _; now exists s | intros _; now destruct s].
  - destruct s as [|b s].
    + split; [discriminate | intros [after H]; discriminate H].
    + simpl. destruct (ascii_dec a b) as [->|N].
      * rewrite IH. split; intros [after H]; exists after.
        -- now rewrite H.
        -- simpl in H. now inversion H.
      * split; [discriminate|].
        intros [after H]. simpl in H. inversion H. congruence.
Qed.

Lemma includes_occurs (sub s : string) :
  includes sub s = true <-> Occurs sub s.
Proof.
  induction s as [|c s IH]; cbn [includes].
  - rewrite orb_false_r, prefix_app. split.
    + intros [after H]. exists "", after. exact H.
    + intros ([|b before] & after & H).
      * now exists after.
      * discriminate H.
  - rewrite orb_true_iff, prefix_app, IH. split.
    + intros [[after H]|(before & after & H)].
      * exists "", after. exact H.
      * exists (String c before), after. simpl. now rewrite H.
    + intros ([|b before] & after & H).
      * left. now exists after.
      * right. exists before, after. simpl in H. now inversion H.
Qed.

(** What occurs in a text that occurs in [s] occurs in [s]. *)
Lemma includes_trans (sub mid s : string) :
  includes sub mid = true -> includes mid s = true -> includes sub s = true.
Proof.
  rewrite !includes_occurs. intros (b1 & a1 & H1) (b2 & a2 & H2).
  exists (b2 ++ b1), (a1 ++ a2).
  rewrite H2, H1, !string_app_assoc. reflexivity.
Qed.

Lemma includes_empty (s : string) : includes "" s = true.
Proof. apply includes_occurs. now exists "", s. Qed.

Lemma existsb_impl {A : Type} (f g : A -> bool) (l : list A) :
  (forall x, f x = true -> g x = true) ->
  existsb f l = true -> existsb g l = true.
Proof.
  intros H E. apply existsb_exists in E. destruct E as (x & I & F).
  apply existsb_exists. exists x. auto.
Qed.

Lemma matchesSearch_part (term longer : string) (st : State) (book : Book) :
  includes (toLowerCase term) (toLowerCase longer) = true ->
  matchesSearch (setSearchTerm longer st) book = true ->
  matchesSearch (setSearchTerm term st) book = true.
Proof.
  intros L. unfold matchesSearch. cbn [searchTerm setSearchTerm].
  rewrite !orb_true_iff.
  intros [[H|H]|H].
  - left. left. exact (includes_trans _ _ _ L H).
  - left. right. revert H. apply existsb_impl.
    intros x. apply includes_trans, L.
  - right. exact (includes_trans _ _ _ L H).
Qed.

Lemma matchesSearch_empty (st : State) (book : Book) :
  searchTerm st = "" -> matchesSearch st book = true.
Proof.
  intros E. unfold matchesSearch. rewrite E. simpl toLowerCase.
  now rewrite includes_empty.
Qed.

Lemma filter_all {A : Type} (p : A -> bool) (l : list A) :
  (forall x, In x l -> p x = true) -> filter p l = l.
Proof.
  induction l as [|x l IH]; intros H; simpl.
  - reflexivity.
  - rewrite (H x (or_introl eq_refl)). f_equal. apply IH.
    intros y I. apply H. now right.
Qed.

End IncludesFacts.

Section LibraryFilters.
Import BookLibrary Order.
Variable localeCompare : string -> string -> Z.

(** X20.  A search term whose lower-cased form holds the lower-cased form
    of another term finds no book that the other term does not find.  The
    test is on the lower-cased terms, as the filter compares them: what is
    typed before or after a term narrows the listing as long as the term,
    lower-cased, still stands in what the longer one is lower-cased to. *)
Theorem longer_search_term_narrows (term longer : string)
    (books : list Book) (st : State) (book : Book) :
  includes (toLowerCase term) (toLowerCase longer) = true ->
  In book (filteredBooks localeCompare books (setSearchTerm longer st)) ->
  In book (filteredBooks localeCompare books (setSearchTerm term st)).
Proof.
  intros L I.
  apply (Permutation_in _ (filteredBooks_perm localeCompare _ _)) in I.
  apply (Permutation_in _
           (Permutation_sym (filteredBooks_perm localeCompare _ _))).
  apply filter_In in I. destruct I as [I M]. apply filter_In.
  split; [exact I|].
  unfold matches in *.
  apply andb_true_iff in M. destruct M as [M S].
  apply andb_true_iff in M. destruct M as [M G].
  apply (matchesSearch_part term longer st book L) in M. rewrite M.
  unfold matchesGenre, matchesStock in *. cbn [selectedGenre stockFilter
    setSearchTerm] in *. now rewrite G, S.
Qed.

(** X21.  After Reset Filters, and at the start, every book of the
    collection is listed, once per entry, whatever the order chosen; the
    notice that no book matches is then shown for an empty collection
    only. *)
Theorem reset_filters_lists_every_book (books : list Book) (st : State) :
  Permutation (filteredBooks localeCompare books (resetFilters st)) books /\
  Permutation (filteredBooks localeCompare books initialState) books /\
  sortBy (resetFilters st) = sortBy st /\
  (noResults localeCompare books (resetFilters st) = true <-> books = []).
Proof.
  assert (R : forall st', searchTerm st' = "" -> selectedGenre st' = "all" ->
              stockFilter st' = AllBooks ->
              Permutation (filteredBooks localeCompare books st') books).
  { intros st' E1 E2 E3.
    eapply Permutation_trans; [apply filteredBooks_perm|].
    rewrite filter_all; [apply Permutation_refl|].
    intros book _. unfold matches.
    rewrite matchesSearch_empty by exact E1.
    unfold matchesGenre, matchesStock. now rewrite E2, E3. }
  split; [now apply R|]. split; [now apply R|]. split; [reflexivity|].
  unfold noResults. rewrite Nat.eqb_eq.
  rewrite (Permutation_length (R (resetFilters st) eq_refl eq_refl eq_refl)).
  apply length_zero_iff_nil.
Qed.

Lemma matches_setStockFilter (value : FilterStock) (st : State)
    (book : Book) :
  matches (setStockFilter value st) book =
  matchesSearch st book && matchesGenre st book &&
  match value with
  | AllBooks => true
  | Available => Z.ltb 0 (stock (availability book))
  | OutOfStock => Z.eqb (stock (availability book)) 0
  end.
Proof. reflexivity. Qed.

(** X22.  With every book stocked at zero or more, the books listed as
    available and those listed as out of stock are, together, the books
    listed under All Books, and no book is in both listings. *)
Theorem stock_filters_split_the_listing (books : list Book) (st : State) :
  Forall (fun book => (0 <= stock (availability book))%Z) books ->
  Permutation
    (List.app (filteredBooks localeCompare books (setStockFilter Available st))
              (filteredBooks localeCompare books
                 (setStockFilter OutOfStock st)))
    (filteredBooks localeCompare books (setStockFilter AllBooks st)) /\
  (forall book,
     In book (filteredBooks localeCompare books
                (setStockFilter Available st)) ->
     ~ In book (filteredBooks localeCompare books
                  (setStockFilter OutOfStock st))).
Proof.
  intros F. split.
  - eapply Permutation_trans;
      [apply Permutation_app; apply filteredBooks_perm|].
    eapply Permutation_trans;
      [|apply Permutation_sym, filteredBooks_perm].
    clear localeCompare. induction F as [|book books H F IH].
    + apply perm_nil.
    + cbn [filter]. rewrite !matches_setStockFilter.
      destruct (matchesSearch st book && matchesGenre st book);
        cbn [andb]; [|exact IH].
      destruct (Z.ltb_spec 0 (stock (availability book)));
        destruct (Z.eqb_spec (stock (availability book)) 0); try lia.
      * now apply perm_skip.
      * eapply Permutation_trans;
          [apply Permutation_sym, Permutation_middle | now apply perm_skip].
  - intros book I O.
    apply (Permutation_in _ (filteredBooks_perm localeCompare _ _)) in I.
    apply (Permutation_in _ (filteredBooks_perm localeCompare _ _)) in O.
    apply filter_In in I. apply filter_In in O.
    destruct I as [_ I]. destruct O as [_ O]. unfold matches in I, O.
    apply andb_true_iff in I. destruct I as [_ I].
    apply andb_true_iff in O. destruct O as [_ O].
    unfold matchesStock in I, O. simpl in I, O. lia.
Qed.

End LibraryFilters.

(** ** The library: the genre options *)

Section StringOrder.

Lemma ascii_compare_refl (a : ascii) : Ascii.compare a a = Eq.
Proof. unfold Ascii.compare. apply N.compare_refl. Qed.

Lemma ascii_compare_lt_trans (a b c : ascii) :
  Ascii.compare a b = Lt -> Ascii.compare b c = Lt -> Ascii.compare a c = Lt.
Proof.
  unfold Ascii.compare. rewrite !N.compare_lt_iff. apply N.lt_trans.
Qed.

Lemma string_compare_lt_trans (s t u : string) :
  String.compare s t = Lt -> String.compare t u = Lt ->
  String.compare s u = Lt.
Proof.
  revert t u. induction s as [|a s IH]; intros [|b t] [|c u]; simpl;
    try easy.
  destruct (Ascii.compare a b) eqn:E1; try discriminate;
    destruct (Ascii.compare b c) eqn:E2; try discriminate; intros H1 H2.
  - apply Ascii.compare_eq_iff in E1, E2. subst.
    rewrite ascii_compare_refl. eapply IH; eassumption.
  - apply Ascii.compare_eq_iff in E1. subst. now rewrite E2.
  - apply Ascii.compare_eq_iff in E2. subst. now rewrite E1.
  - now rewrite (ascii_compare_lt_trans _ _ _ E1 E2).
Qed.

Lemma ltb_trans (s t u : string) :
  String.ltb s t = true -> String.ltb t u = true -> String.ltb s u = true.
Proof.
  unfold String.ltb. intros H1 H2.
  destruct (String.compare s t) eqn:E1; try discriminate.
  destruct (String.compare t u) eqn:E2; try discriminate.
  now rewrite (string_compare_lt_trans _ _ _ E1 E2).
Qed.

Lemma leb_ltb (s t : string) :
  String.leb s t = true -> s <> t -> String.ltb s t = true.
Proof.
  unfold String.leb, String.ltb. intros H N.
  destruct (String.compare s t) eqn:E; try easy.
  now apply String.compare_eq_iff in E.
Qed.

End StringOrder.

Section GenreOptions.
Import BookLibrary Order.

Lemma add_spec (g : string) (set : list string) :
  NoDup set ->
  NoDup (add g set) /\ forall x, In x (add g set) <-> In x set \/ x = g.
Proof.
  intros N. unfold add. destruct (existsb (String.eqb g) set) eqn:E.
  - split; [exact N|]. intros x. split; [tauto|].
    intros [I| ->]; [exact I|].
    apply existsb_exists in E. destruct E as (y & I & Y).
    apply String.eqb_eq in Y. now subst.
  - split.
    + apply NoDup_app; [exact N | repeat constructor; easy |].
      intros x I [<-|[]].
      assert (T : existsb (String.eqb g) set = true).
      { apply existsb_exists. exists g. split; [exact I|].
        apply String.eqb_refl. }
      congruence.
    + intros x. rewrite in_app_iff. simpl. intuition.
Qed.

Lemma addAll_spec (gs set : list string) :
  NoDup set ->
  NoDup (fold_left (fun set g => add g set) gs set) /\
  forall x, In x (fold_left (fun set g => add g set) gs set) <->
            In x set \/ In x gs.
Proof.
  revert set. induction gs as [|g gs IH]; intros set N; simpl.
  - split; [exact N | tauto].
  - destruct (add_spec g set N) as [N' I'].
    destruct (IH _ N') as [N'' I'']. split; [exact N''|].
    intros x. rewrite I'', I'. intuition.
Qed.

Lemma genreSet_spec (books : list Book) (set : list string) :
  NoDup set ->
  let result :=
    fold_left
      (fun set book => fold_left (fun set g => add g set) (genres book) set)
      books set in
  NoDup result /\
  forall x, In x result <->
            In x set \/ exists book, In book books /\ In x (genres book).
Proof.
  revert set. induction books as [|book books IH]; intros set N; simpl.
  - split; [exact N|]. intros x. split; [tauto|].
    intros [I|(b & [] & _)]. exact I.
  - destruct (addAll_spec (genres book) set N) as [N' I'].
    destruct (IH _ N') as [N'' I'']. split; [exact N''|].
    intros x. rewrite I'', I'. split.
    + intros [[I|I]|(b & I & G)].
      * now left.
      * right. exists book. auto.
      * right. exists b. auto.
    + intros [I|(b & [<-|I] & G)].
      * left. now left.
      * left. now right.
      * right. exists b. auto.
Qed.

Lemma allGenres_in (books : list Book) (g : string) :
  In g (allGenres books) <->
  exists book, In book books /\ In g (genres book).
Proof.
  unfold allGenres.
  destruct (genreSet_spec books [] (NoDup_nil _)) as [_ I].
  split.
  - intros H. apply (Permutation_in _ (sort_perm _ _)) in H.
    apply I in H. destruct H as [[]|H]. exact H.
  - intros H. apply (Permutation_in _ (Permutation_sym (sort_perm _ _))).
    apply I. now right.
Qed.

Lemma allGenres_NoDup (books : list Book) : NoDup (allGenres books).
Proof.
  unfold allGenres.
  destruct (genreSet_spec books [] (NoDup_nil _)) as [N _].
  eapply Permutation_NoDup; [apply Permutation_sym, sort_perm | exact N].
Qed.

Lemma strictly_sorted (l : list string) :
  NoDup l -> Sorted (fun a b => String.leb a b = true) l ->
  Sorted (fun a b => String.ltb a b = true) l.
Proof.
  intros N S. induction S as [|a l S IH H].
  - constructor.
  - inversion N as [|? ? NI N']. subst. constructor; [now apply IH|].
    destruct H as [|b l H]; constructor.
    apply leb_ltb; [exact H|]. intros ->. apply NI. now left.
Qed.

(** X23.  The genre menu offers each genre that some book has, once, in
    ascending order of code units, and nothing else. *)
Theorem genre_options_are_the_genres_in_order (books : list Book) :
  StronglySorted (fun a b => String.ltb a b = true) (allGenres books) /\
  NoDup (allGenres books) /\
  (forall g, In g (allGenres books) <->
             exists book, In book books /\ In g (genres book)).
Proof.
  split; [|split; [apply allGenres_NoDup | apply allGenres_in]].
  apply Sorted_StronglySorted.
  - intros a b c. apply ltb_trans.
  - apply strictly_sorted; [apply allGenres_NoDup|].
    unfold allGenres. apply sort_sorted.
    intros a b H. destruct (String.leb_total a b) as [T|T]; congruence.
Qed.

Variable localeCompare : string -> string -> Z.

(** X24.  A genre picked from the menu, with the other filters reset, always
    lists a book, and every book then listed has that genre (or, for a
    genre spelled all, any genre). *)
Theorem genre_option_lists_a_book (books : list Book) (st : State)
    (g : string) :
  In g (allGenres books) ->
  let listed :=
    filteredBooks localeCompare books (setSelectedGenre g (resetFilters st)) in
  noResults localeCompare books (setSelectedGenre g (resetFilters st)) = false
  /\ (exists book, In book listed /\ In g (genres book))
  /\ (g <> "all" -> forall book, In book listed -> In g (genres book)).
Proof.
  intros I listed.
  pose proof (filteredBooks_perm localeCompare books
                (setSelectedGenre g (resetFilters st))) as P.
  apply allGenres_in in I. destruct I as (book & I & G).
  assert (L : In book listed).
  { apply (Permutation_in _ (Permutation_sym P)). apply filter_In.
    split; [exact I|]. unfold matches.
    rewrite matchesSearch_empty by reflexivity.
    unfold matchesGenre, matchesStock. cbn.
    replace (existsb (String.eqb g) (genres book)) with true.
    - now rewrite orb_true_r.
    - symmetry. apply existsb_exists. exists g. split; [exact G|].
      apply String.eqb_refl. }
  split; [|split].
  - unfold noResults. fold listed. destruct listed; [destruct L | reflexivity].
  - now exists book.
  - intros N b Hb. apply (Permutation_in _ P) in Hb.
    apply filter_In in Hb. destruct Hb as [_ M]. unfold matches in M.
    apply andb_true_iff in M. destruct M as [M _].
    apply andb_true_iff in M. destruct M as [_ M].
    unfold matchesGenre in M. cbn [selectedGenre setSelectedGenre] in M.
    apply orb_true_iff in M. destruct M as [M|M].
    + apply String.eqb_eq in M. contradiction.
    + apply existsb_exists in M. destruct M as (x & Hx & E).
      apply String.eqb_eq in E. now subst.
Qed.

End GenreOptions.

(** ** The library: the rating line *)

Section RatingStars.
Import BookLibrary.

Lemma half_star (n : Z) (d : positive) :
  (0 <= n)%Z ->
  Qle_bool (1 # 2) (fraction (n # d)) = true <->
  (Z.pos d <= 2 * (n mod Z.pos d))%Z.
Proof.
  intros N. rewrite Qle_bool_iff. unfold fraction, Qle. cbn [Qnum Qden].
  rewrite Z.quot_div_nonneg by lia.
  unfold Qminus, Qplus, Qopp, inject_Z. cbn [Qnum Qden].
  pose proof (Z.div_mod n (Z.pos d)) as D.
  pose proof (Z.mod_pos_bound n (Z.pos d)) as B.
  set (q := (n / Z.pos d)%Z) in *. set (r := (n mod Z.pos d)%Z) in *.
  rewrite Pos2Z.inj_mul. nia.
Qed.

Lemma full_stars (k : nat) :
  List.length (filter Order.isFull (repeat FullStar k)) = k.
Proof. induction k; simpl; auto. Qed.

Lemma no_full_stars (k : nat) :
  List.length (filter Order.isFull (repeat EmptyStar k)) = 0.
Proof. induction k; simpl; auto. Qed.

(** X25.  The rating line is drawn for a rating from 0 up to, but not
    including, 5.5, and then has five glyphs; for a negative rating and
    from 5.5 on, a negative repeat count makes the rendering throw. *)
Theorem rating_line_has_five_glyphs (rating : Q) :
  (getRatingStars rating = None <->
   (rating < 0)%Q \/ (11 # 2 <= rating)%Q) /\
  (forall glyphs,
     getRatingStars rating = Some glyphs ->
     List.length glyphs = 5 /\
     List.length (filter Order.isFull glyphs) = Z.to_nat (Qfloor rating)).
Proof.
  destruct rating as [n d].
  unfold getRatingStars, repeatGlyph. cbn [Qfloor].
  pose proof (Z.div_mod n (Z.pos d) ltac:(lia)) as D.
  pose proof (Z.mod_pos_bound n (Z.pos d) ltac:(lia)) as B.
  assert (L : ((n # d) < 0)%Q <-> (n < 0)%Z).
  { unfold Qlt. cbn [Qnum Qden]. lia. }
  assert (U : (11 # 2 <= n # d)%Q <-> (11 * Z.pos d <= n * 2)%Z).
  { unfold Qle. cbn [Qnum Qden]. lia. }
  rewrite L, U. clear L U.
  remember (n / Z.pos d)%Z as q eqn:Q.
  destruct (Z.ltb_spec q 0) as [F|F].
  - split; [|discriminate]. split; [|reflexivity]. intros _. left. nia.
  - assert (N : (0 <= n)%Z) by nia.
    pose proof (half_star n d N) as H.
    destruct (Qle_bool (1 # 2) (fraction (n # d))).
    + remember (5 - q - 1)%Z as e eqn:E.
      destruct (Z.ltb_spec e 0) as [E'|E'].
      * split; [|discriminate]. split; [|reflexivity]. intros _. right.
        assert (T : (Z.pos d <= 2 * (n mod Z.pos d))%Z) by now apply H.
        nia.
      * split.
        -- split; [discriminate|]. intros [C|C]; exfalso; [lia | nia].
        -- intros glyphs G.
           assert (G' : glyphs =
                        List.app (repeat FullStar (Z.to_nat q))
                          (List.app [HalfStar] (repeat EmptyStar (Z.to_nat e))))
             by congruence.
           rewrite G'. rewrite !filter_app, !List.length_app, !repeat_length.
           rewrite full_stars, no_full_stars. cbn [List.length filter
             Order.isFull]. lia.
    + remember (5 - q - 0)%Z as e eqn:E.
      destruct (Z.ltb_spec e 0) as [E'|E'].
      * split; [|discriminate]. split; [|reflexivity]. intros _. right.
        nia.
      * split.
        -- split; [discriminate|]. intros [C|C]; exfalso; [lia|].
           assert (T : ~ (Z.pos d <= 2 * (n mod Z.pos d))%Z).
           { intros T. apply H in T. discriminate T. }
           nia.
        -- intros glyphs G.
           assert (G' : glyphs =
                        List.app (repeat FullStar (Z.to_nat q))
                          (List.app [] (repeat EmptyStar (Z.to_nat e))))
             by congruence.
           rewrite G'. rewrite !filter_app, !List.length_app, !repeat_length.
           rewrite full_stars, no_full_stars. cbn [List.length filter
             Order.isFull]. lia.
Qed.

End RatingStars.

(** ** The shell and the proxy *)

Section Shell.
Import Remote PdfExtractionWorkflow App.
Variable construct : string -> Thrown + LandingAIADE.

Lemma workflowClient_some (apiKey : option string) (client : LandingAIADE) :
  workflowClient (render construct apiKey) = Some client <->
  exists key, apiKey = Some key /\ key <> "" /\ construct key = inr client.
Proof.
  unfold render, ready, adeClient, error, missing. cbn [workflowClient].
  destruct apiKey as [[|c key]|]; cbn [truthy negb].
  - split; [discriminate|]. intros (key & [= <-] & N & _). now destruct N.
  - unfold tryCatch. destruct (construct (String c key)) as [err|cl] eqn:C.
    + split; [discriminate|]. intros (k & [= <-] & _ & C'). congruence.
    + cbn [truthy negb]. split.
      * intros [= <-]. exists (String c key). now repeat split.
      * intros (k & [= <-] & _ & C'). congruence.
  - split; [discriminate|]. intros (key & K & _). discriminate K.
Qed.

(** X26.  The shell mounts the workflow exactly when a key is configured and
    the client could be built from it, and hands it that client; the
    error banner is up exactly when no key is configured; with a key from
    which no client can be built nothing is shown, neither banner nor
    workflow.  Mounted by the shell, the workflow never meets a missing
    client: a click on Parse sends the request if a document is selected. *)
Theorem shell_mounts_the_workflow_with_a_client (apiKey : option string) :
  let view := render construct apiKey in
  (forall client,
     workflowClient view = Some client <->
     exists key,
       apiKey = Some key /\ key <> "" /\ construct key = inr client) /\
  (statusBanner view = true <-> workflowClient view <> None) /\
  (errorBanner view = Some notConfiguredMessage <->
   apiKey = None \/ apiKey = Some "") /\
  (errorBanner view <> None -> workflowClient view = None) /\
  (forall key err,
     apiKey = Some key -> key <> "" -> construct key = inl err ->
     errorBanner view = None /\ statusBanner view = false /\
     workflowClient view = None) /\
  (forall client st,
     workflowClient view = Some client ->
     parseError (fst (begin (workflowClient view) st)) <> notReadyMessage /\
     (snd (begin (workflowClient view) st) = None <->
      selectedFile st = None)).
Proof.
  intros view. split; [apply workflowClient_some|].
  split; [|split; [|split; [|split]]].
  - unfold view, render. cbn [statusBanner workflowClient].
    destruct (ready _ _) eqn:R.
    + unfold ready in R. destruct (adeClient construct apiKey); easy.
    + split; [discriminate | easy].
  - unfold view, render, error, missing. cbn [errorBanner].
    destruct apiKey as [[|c key]|]; cbn [truthy negb whenTruthy].
    + split; auto.
    + split; [discriminate | now intros [H|H]].
    + split; auto.
  - unfold view, render, ready. cbn [errorBanner workflowClient].
    unfold whenTruthy. destruct (truthy (error apiKey)); [|easy].
    intros _. now destruct (adeClient construct apiKey).
  - intros key err -> N C. unfold view, render, ready, adeClient, error,
      missing. cbn [errorBanner statusBanner workflowClient].
    destruct key as [|c key]; [easy|]. cbn [truthy negb whenTruthy].
    now rewrite C.
  - intros client st W. rewrite W. unfold begin.
    destruct (selectedFile st) as [file|]; cbn [fst snd].
    + split; [discriminate | split; discriminate].
    + split; [discriminate | split; reflexivity].
Qed.

End Shell.

Section DevProxy.
Import Remote ViteConfig.
Variable env : Env.

(** X27.  The development server sends what the pipeline posts to
    /api/ade/parse and /api/ade/extract to /v1/ade/parse and
    /v1/ade/extract of the service, keeping what follows the prefix, and
    hands on no other URL; it adds an Authorization header exactly when
    the key it reads is not empty, and reads VISION_AGENT_API_KEY
    whenever that variable is set, even to the empty string. *)
Theorem proxy_forwards_the_pipeline_requests :
  (forall request,
     forward (proxy env) (endpoint request) =
     Some {| destination :=
               "https://api.va.landing.ai" ++
               match request with
               | PostParse _ _ => "/v1/ade/parse"
               | PostExtract _ _ _ => "/v1/ade/extract"
               end;
             added := authHeaders env |}) /\
  (forall rest,
     forward (proxy env) ("/api/ade/parse" ++ rest) =
     Some {| destination := "https://api.va.landing.ai/v1/ade/parse" ++ rest;
             added := authHeaders env |}) /\
  (forall rest,
     forward (proxy env) ("/api/ade/extract" ++ rest) =
     Some {| destination :=
               "https://api.va.landing.ai/v1/ade/extract" ++ rest;
             added := authHeaders env |}) /\
  (forall url,
     afterPrefix "/api/ade/parse" url = None ->
     afterPrefix "/api/ade/extract" url = None ->
     forward (proxy env) url = None) /\
  (forall key,
     env "VISION_AGENT_API_KEY" = Some key ->
     authHeaders env =
     if truthy key then [("Authorization", "Bearer " ++ key)] else []) /\
  (forall key,
     env "VISION_AGENT_API_KEY" = None ->
     env "VITE_VISION_AGENT_API_KEY" = Some key ->
     authHeaders env =
     if truthy key then [("Authorization", "Bearer " ++ key)] else []) /\
  (authHeaders env = [] <-> adeApiKey env = "").
Proof.
  split; [now intros [document model|schema markdown model]|].
  split; [reflexivity|]. split; [reflexivity|].
  split; [|split; [|split]].
  - intros url P E. unfold proxy. cbn [forward]. now rewrite P, E.
  - intros key K. unfold authHeaders, adeApiKey. now rewrite K.
  - intros key K V. unfold authHeaders, adeApiKey. now rewrite K, V.
  - unfold authHeaders. destruct (adeApiKey env); cbn [truthy].
    + split; reflexivity.
    + split; discriminate.
Qed.

End DevProxy.

(** ** Runs of the further properties *)

Section FurtherWitnesses.
Import Remote.

(** A parse of the slides that the service answers with three fragments,
    one of them blank. *)
Lemma parse_with_text_witness :
  let t := PdfExtractionWorkflow.parseDocument
             (Some PdfExtractionWorkflow.AdeClient) (Ok Sample.parsed)
             Sample.ready in
  PdfExtractionWorkflow.selectedFile
    (PdfExtractionWorkflow.workflow Sample.ready) = Some Sample.slides /\
  ~ Spec.blank "# Notes" /\
  PdfExtractionWorkflow.markdown (PdfExtractionWorkflow.workflow t)
  = "# Notes" ++ nl ++ nl ++ "By Acme." /\
  PdfExtractionWorkflow.extractor t = Some BookExtractor.initialState.
Proof.
  intros t.
  assert (B : ~ Spec.blank "# Notes") by (unfold Spec.blank; simpl; discriminate).
  assert (H : exists cs c, chunks Sample.parsed = Some cs /\ In c cs /\
                           ~ Spec.blank (Spec.textOrEmpty c)).
  { exists [ {| markdown := Some "# Notes" |};
             {| markdown := Some "  " |};
             {| markdown := Some "By Acme." |} ], {| markdown := Some "# Notes" |}.
    split; [reflexivity|]. split; [simpl; auto | exact B]. }
  destruct (parse_with_text_shows_markdown PdfExtractionWorkflow.AdeClient
              Sample.slides Sample.parsed Sample.ready eq_refl H)
    as (W & _ & X & _).
  split; [reflexivity|]. split; [exact B|]. split; [|exact X].
  fold t in W. now rewrite W.
Defined.

(** An extraction that the service answers with a payload that passes. *)
Lemma extraction_outcome_witness :
  BookExtractor.nothingToExtract "# Notes" = false /\
  BookExtractor.isExtracting
    (fst (BookExtractor.handleExtract Sample.wording
            (BookExtractor.defaultProps "# Notes") (Ok Sample.extracted)
            BookExtractor.initialState)) = false.
Proof.
  split; [reflexivity|].
  exact (proj1 (extraction_ends_with_record_or_error Sample.wording
                  (BookExtractor.defaultProps "# Notes") (Ok Sample.extracted)
                  BookExtractor.initialState eq_refl)).
Defined.

(** An extraction that the service refuses. *)
Lemma extraction_failure_witness :
  BookExtractor.nothingToExtract "# Notes" = false /\
  BookExtractor.error
    (fst (BookExtractor.handleExtract Sample.wording
            (BookExtractor.defaultProps "# Notes") (NotOk "Unauthorized")
            BookExtractor.initialState))
  = "Extract request failed: Unauthorized".
Proof.
  split; [reflexivity|].
  exact (proj1 (extraction_failure_messages Sample.wording
                  (BookExtractor.defaultProps "# Notes")
                  BookExtractor.initialState eq_refl) "Unauthorized").
Defined.

(** A document is selected and parsed, and its extraction is under way:
    the call of the extractor is in flight. *)
Lemma reachable_session_witness :
  let s :=
    Session.step Session.ClickExtract
      (Session.step (Session.ParseSettles (Ok Sample.parsed))
         (Session.step
            (Session.ClickParse (Some PdfExtractionWorkflow.AdeClient))
            (Session.step (Session.SelectDocument (Some [Sample.slides]))
               Session.initial))) in
  Session.Reachable s /\
  PdfExtractionWorkflow.phase (Session.tree s)
  = PdfExtractionWorkflow.PhaseExtracting /\
  Session.Consistent s.
Proof.
  intros s.
  assert (R : Session.Reachable s)
    by (do 4 apply Session.reach_step; apply Session.reach_initial).
  split; [exact R|]. split; [reflexivity|].
  exact (proj1 (reachable_sessions_are_consistent s R)).
Defined.

(** Calls stay in flight between the events: after the click on Parse the
    phase is parsing until the call settles; while an extraction is under
    way the file input is enabled, and a document selected then unmounts
    the extractor, whose call no longer reaches the tree. *)
Example calls_stay_in_flight :
  let selected :=
    Session.step (Session.SelectDocument (Some [Sample.slides]))
      Session.initial in
  let parsing :=
    Session.step (Session.ClickParse (Some PdfExtractionWorkflow.AdeClient))
      selected in
  let extracting :=
    Session.step Session.ClickExtract
      (Session.step (Session.ParseSettles (Ok Sample.parsed)) parsing) in
  let reselected :=
    Session.step (Session.SelectDocument (Some [Sample.slides]))
      extracting in
  PdfExtractionWorkflow.phase (Session.tree parsing)
  = PdfExtractionWorkflow.PhaseParsing /\
  Session.parseCalls parsing = 1 /\
  Session.step (Session.SelectDocument None) parsing = parsing /\
  PdfExtractionWorkflow.phase (Session.tree extracting)
  = PdfExtractionWorkflow.PhaseExtracting /\
  Session.extractCalls extracting
  = [BookExtractor.defaultProps ("# Notes" ++ nl ++ nl ++ "By Acme.")] /\
  PdfExtractionWorkflow.canSelect (Session.tree extracting) = true /\
  Session.tree reselected = Sample.ready /\
  Session.extractCalls reselected = [] /\
  Session.step (Session.ExtractSettles 0 Sample.wording (Ok Sample.extracted))
    reselected = reselected.
Proof. repeat split. Qed.

(** The preview of a short markdown is that markdown. *)
Lemma preview_witness :
  let t := PdfExtractionWorkflow.parseDocument
             (Some PdfExtractionWorkflow.AdeClient) (Ok Sample.parsed)
             Sample.ready in
  let preview := "# Notes" ++ nl ++ nl ++ "By Acme." in
  PdfExtractionWorkflow.markdownPreview (PdfExtractionWorkflow.shown t)
  = Some preview /\
  String.length preview
  = Nat.min 1200
      (String.length
         (PdfExtractionWorkflow.markdown (PdfExtractionWorkflow.workflow t))).
Proof.
  intros t preview.
  assert (H : PdfExtractionWorkflow.markdownPreview
                (PdfExtractionWorkflow.shown t) = Some preview)
    by reflexivity.
  split; [exact H|].
  exact (proj1 (proj2 (proj2 (preview_is_the_head_of_the_markdown t preview H)))).
Defined.

(** The export of the record extracted from two lines of markdown. *)
Lemma export_witness :
  let data := JObj [("title", JStr "Notes");
                    ("publisher", JObj [("name", JStr "Acme")])] in
  let st' := fst (BookExtractor.handleExtract Sample.wording
                    (BookExtractor.defaultProps "# Notes")
                    (Ok {| extraction := Some Sample.withExtras |})
                    BookExtractor.initialState) in
  BookExtractor.nothingToExtract "# Notes" = false /\
  Zod.safeParse Books.DocumentExtractionSchema Sample.withExtras
  = Zod.success data /\
  exists before,
    BookExtractor.exported Sample.march7 "3/7/2024" st' =
    Some ("2024-03-07-notes.md",
          before ++ "## Document Content" ++ nl ++ nl ++ "# Notes").
Proof.
  intros data st'.
  assert (S : Zod.safeParse Books.DocumentExtractionSchema Sample.withExtras
              = Zod.success data) by reflexivity.
  split; [reflexivity|]. split; [exact S|].
  exact (export_holds_the_extracted_markdown Sample.wording "# Notes"
           Sample.withExtras data BookExtractor.initialState Sample.march7
           "3/7/2024" eq_refl S).
Defined.

(** The record of a payload with undeclared keys, validated again. *)
Lemma validated_again_witness :
  let data := JObj [("title", JStr "Notes");
                    ("publisher", JObj [("name", JStr "Acme")])] in
  Zod.safeParse Books.DocumentExtractionSchema Sample.withExtras
  = Zod.success data /\
  Zod.safeParse Books.DocumentExtractionSchema data = Zod.success data.
Proof.
  intros data.
  assert (S : Zod.safeParse Books.DocumentExtractionSchema Sample.withExtras
              = Zod.success data) by reflexivity.
  split; [exact S|].
  exact (validated_record_validates_again Sample.withExtras data S).
Defined.

(** A list of authors whose second entry is a number. *)
Lemma bad_list_item_witness :
  let props := [("authors", JArr [JStr "Ada Lovelace"; JNum 7])] in
  let issue := {| Zod.code := Zod.invalid_type Zod.t_string Zod.t_number;
                  Zod.path := [Zod.Key "authors"; Zod.Index 1] |} in
  getProp "authors" props = Some (JArr [JStr "Ada Lovelace"; JNum 7]) /\
  nth_error [JStr "Ada Lovelace"; JNum 7] 1 = Some (JNum 7) /\
  Notions.isString (JNum 7) = false /\
  In issue
     (fst (Zod.parse Books.DocumentExtractionSchema [] (Some (JObj props)))) /\
  BookExtractor.issueText Sample.wording issue = "authors.1: Invalid input".
Proof.
  intros props issue.
  destruct (bad_list_item_is_located Sample.wording props "authors"
              [JStr "Ada Lovelace"; JNum 7] 1 (JNum 7)
              (or_introl eq_refl) eq_refl eq_refl eq_refl) as [I T].
  split; [reflexivity|]. split; [reflexivity|]. split; [reflexivity|].
  split; [exact I | exact T].
Defined.

(** The issue of a page count of zero lies under the key pages. *)
Lemma issue_key_witness :
  In Spec.pagesNotPositive
     (fst (Zod.parse Books.DocumentExtractionSchema []
             (Some (JObj Sample.zeroPages)))) /\
  exists k rest,
    Zod.path Spec.pagesNotPositive = Zod.Key k :: rest /\
    In k Books.declaredKeys.
Proof.
  assert (I : In Spec.pagesNotPositive
                (fst (Zod.parse Books.DocumentExtractionSchema []
                        (Some (JObj Sample.zeroPages)))))
    by (simpl; auto).
  split; [exact I|].
  exact (proj1 (issues_name_declared_keys (JObj Sample.zeroPages)
                  Spec.pagesNotPositive I) Sample.zeroPages eq_refl).
Defined.

(** A payload with a page count of 320. *)
Lemma validated_page_count_witness :
  let data := JObj [("pages", JNum 320)] in
  Zod.safeParse Books.DocumentExtractionSchema data = Zod.success data /\
  pages (Books.asDocumentExtraction data) = Present 320%Z /\
  (320 <= Notions.maxSafeInteger)%Z /\
  In ("**Pages:** 320" ++ nl)
     (ExportMarkdown.markdownSections "3/7/2024"
        (Books.asDocumentExtraction data) None).
Proof.
  intros data.
  assert (S : Zod.safeParse Books.DocumentExtractionSchema data
              = Zod.success data) by reflexivity.
  assert (P : pages (Books.asDocumentExtraction data) = Present 320%Z)
    by reflexivity.
  assert (B : (320 <= Notions.maxSafeInteger)%Z)
    by (unfold Notions.maxSafeInteger; lia).
  split; [exact S|]. split; [exact P|]. split; [exact B|].
  exact (proj2 (validated_page_count_is_exported data data 320 "3/7/2024"
                  None S P B)).
Defined.

(** Emma is found under Emma, and so under Em. *)
Lemma longer_search_term_witness :
  BookLibrary.includes (toLowerCase "Em") (toLowerCase "Emma") = true /\
  In Shelf.emma
     (BookLibrary.filteredBooks Shelf.byCodeUnits Shelf.books
        (BookLibrary.setSearchTerm "Emma" BookLibrary.initialState)) /\
  In Shelf.emma
     (BookLibrary.filteredBooks Shelf.byCodeUnits Shelf.books
        (BookLibrary.setSearchTerm "Em" BookLibrary.initialState)).
Proof.
  assert (I : In Shelf.emma
                (BookLibrary.filteredBooks Shelf.byCodeUnits Shelf.books
                   (BookLibrary.setSearchTerm "Emma"
                      BookLibrary.initialState)))
    by (vm_compute; auto).
  split; [reflexivity|]. split; [exact I|].
  exact (longer_search_term_narrows Shelf.byCodeUnits "Em" "Emma"
           Shelf.books BookLibrary.initialState Shelf.emma eq_refl I).
Defined.

(** A collection with one book in stock and one out of stock. *)
Lemma stock_filters_witness :
  Forall (fun book =>
            (0 <= BookLibrary.stock (BookLibrary.availability book))%Z)
         Shelf.books /\
  Permutation
    (List.app
       (BookLibrary.filteredBooks Shelf.byCodeUnits Shelf.books
          (BookLibrary.setStockFilter BookLibrary.Available
             BookLibrary.initialState))
       (BookLibrary.filteredBooks Shelf.byCodeUnits Shelf.books
          (BookLibrary.setStockFilter BookLibrary.OutOfStock
             BookLibrary.initialState)))
    (BookLibrary.filteredBooks Shelf.byCodeUnits Shelf.books
       (BookLibrary.setStockFilter BookLibrary.AllBooks
          BookLibrary.initialState)).
Proof.
  assert (F : Forall (fun book =>
                (0 <= BookLibrary.stock (BookLibrary.availability book))%Z)
                Shelf.books)
    by (repeat constructor; simpl; lia).
  split; [exact F|].
  exact (proj1 (stock_filters_split_the_listing Shelf.byCodeUnits Shelf.books
                  BookLibrary.initialState F)).
Defined.

(** Horror is on the menu, and picking it lists a book. *)
Lemma genre_option_witness :
  In "Horror" (BookLibrary.allGenres Shelf.books) /\
  BookLibrary.noResults Shelf.byCodeUnits Shelf.books
    (BookLibrary.setSelectedGenre "Horror"
       (BookLibrary.resetFilters BookLibrary.initialState)) = false.
Proof.
  assert (I : In "Horror" (BookLibrary.allGenres Shelf.books))
    by (vm_compute; auto).
  split; [exact I|].
  exact (proj1 (genre_option_lists_a_book Shelf.byCodeUnits Shelf.books
                  BookLibrary.initialState "Horror" I)).
Defined.

End FurtherWitnesses.
